(** * Deal extraction and progressive learning: a shallow embedding

    The development follows the Python sources of the deal-matching core
    ([deal_parser_regex.py], [deal_parser_template.py], [deal_matcher.py],
    [accuracy_tracker.py], [progressive_learning.py]).

    Modelling conventions.
    - Python [str] is a sequence of code points; here a text is a [string]
      (a [list ascii] inside the algorithms), i.e. the Latin-1 range.  The
      character classes [\d], [\s], [\w] and the case conversions are the
      ASCII ones.
    - Python [float] is modelled by the rationals [Q]: sums, products,
      quotients, comparisons and [min]/[max] are exact.
    - A raised exception is a value [Raise e] of the type [result].
    - A [dict] whose iteration order is irrelevant is a [gmap]; one whose
      iteration order is observable is an association list. *)

From Stdlib Require Import QArith Qround Qabs Qminmax Lia Lqa Ascii Sorted.
From Stdlib Require String.
From stdpp Require Import gmap strings list fin_maps pretty.

Local Open Scope Q_scope.

(** ** Characters and strings *)

Module Chars.

Definition code (c : ascii) : nat := nat_of_ascii c.

Definition between (lo hi : nat) (c : ascii) : bool :=
  (lo <=? code c)%nat && (code c <=? hi)%nat.

Definition is_digit (c : ascii) : bool := between 48 57 c.
Definition is_upper (c : ascii) : bool := between 65 90 c.
Definition is_lower (c : ascii) : bool := between 97 122 c.
Definition is_alpha (c : ascii) : bool := is_upper c || is_lower c.

(** [str.isspace] on the ASCII range: TAB..CR, FS..US and the blank. *)
Definition is_space (c : ascii) : bool :=
  between 9 13 c || between 28 32 c.

(** [\w]: letters, digits and the underscore. *)
Definition is_word (c : ascii) : bool :=
  is_alpha c || is_digit c || (code c =? 95)%nat.

Definition to_lower (c : ascii) : ascii :=
  if is_upper c then ascii_of_nat (code c + 32) else c.

Definition to_upper (c : ascii) : ascii :=
  if is_lower c then ascii_of_nat (code c - 32) else c.

Definition eqb (a b : ascii) : bool := (code a =? code b)%nat.

Definition chars (s : string) : list ascii := String.list_ascii_of_string s.
Definition text (l : list ascii) : string := String.string_of_list_ascii l.

Definition newline : ascii := ascii_of_nat 10.
Definition blank : ascii := ascii_of_nat 32.

End Chars.

Import Chars.

Module Str.

(** [s.lower()] *)
Definition lower (l : list ascii) : list ascii := map to_lower l.

Fixpoint lstrip (l : list ascii) : list ascii :=
  match l with
  | c :: l' => if is_space c then lstrip l' else l
  | [] => []
  end.

(** [s.strip()] *)
Definition strip (l : list ascii) : list ascii :=
  rev (lstrip (rev (lstrip l))).

Fixpoint eqb (a b : list ascii) : bool :=
  match a, b with
  | [], [] => true
  | x :: a', y :: b' => Chars.eqb x y && eqb a' b'
  | _, _ => false
  end.

Fixpoint prefixb (p l : list ascii) : bool :=
  match p, l with
  | [], _ => true
  | x :: p', y :: l' => Chars.eqb x y && prefixb p' l'
  | _ :: _, [] => false
  end.

(** [p in l] for strings. *)
Fixpoint contains (p l : list ascii) : bool :=
  prefixb p l ||
  match l with
  | [] => false
  | _ :: l' => contains p l'
  end.

(** [s.split()]: the maximal runs of non-blank characters. *)
Fixpoint split_ws_aux (cur : list ascii) (l : list ascii) : list (list ascii) :=
  match l with
  | [] => match cur with [] => [] | _ => [rev cur] end
  | c :: l' =>
      if is_space c
      then match cur with
           | [] => split_ws_aux [] l'
           | _ => rev cur :: split_ws_aux [] l'
           end
      else split_ws_aux (c :: cur) l'
  end.

Definition split_ws (l : list ascii) : list (list ascii) := split_ws_aux [] l.

(** [sep.join(parts)] *)
Fixpoint join (sep : list ascii) (parts : list (list ascii)) : list ascii :=
  match parts with
  | [] => []
  | [p] => p
  | p :: ps => p ++ sep ++ join sep ps
  end.

(** [s.split(sep)] for a one-character separator. *)
Fixpoint split_on_aux (sep : ascii) (cur : list ascii) (l : list ascii)
  : list (list ascii) :=
  match l with
  | [] => [rev cur]
  | c :: l' =>
      if Chars.eqb c sep then rev cur :: split_on_aux sep [] l'
      else split_on_aux sep (c :: cur) l'
  end.

Definition split_on (sep : ascii) (l : list ascii) : list (list ascii) :=
  split_on_aux sep [] l.

(** [s.title()]: a letter is upper-cased when the previous character is
    not a letter and lower-cased otherwise. *)
Fixpoint title_aux (prev_alpha : bool) (l : list ascii) : list ascii :=
  match l with
  | [] => []
  | c :: l' =>
      (if is_alpha c
       then if prev_alpha then to_lower c else to_upper c
       else c) :: title_aux (is_alpha c) l'
  end.

Definition title (l : list ascii) : list ascii := title_aux false l.

(** [s[a:b]] *)
Definition slice (a b : nat) (l : list ascii) : list ascii :=
  take (b - a) (drop a l).

End Str.

(** ** Exceptions *)

Inductive exn : Type :=
| ZeroDivisionError
| ValueError
| IndexError
| TypeError
| ReError.

Inductive result (A : Type) : Type :=
| Ok (a : A)
| Raise (e : exn).

Arguments Ok {A} a.
Arguments Raise {A} e.

#[global] Instance result_ret : MRet result := fun A a => Ok a.

#[global] Instance result_bind : MBind result := fun A B f m =>
  match m with
  | Ok a => f a
  | Raise e => Raise e
  end.

(** [acc] extended by the results of [f] on each element, left to right;
    the first exception aborts the loop. *)
Fixpoint for_each {A B} (f : A -> result (list B)) (l : list A)
  : result (list B) :=
  match l with
  | [] => Ok []
  | a :: l' => bs ← f a; rest ← for_each f l'; Ok (bs ++ rest)
  end.

(** ** A backtracking matcher for the fragment of [re] the sources use *)

Module Re.

Inductive citem : Type :=
| CChr (c : ascii)
| CRng (lo hi : ascii)
| CDigit
| CSpace
| CWord.

Inductive regex : Type :=
| Lit (c : ascii)
| Cls (items : list citem)
| NCls (items : list citem)
| Eps
| Seq (r1 r2 : regex)
| Alt (r1 r2 : regex)
| Rep (lo : nat) (hi : option nat) (r : regex)
| Grp (n : nat) (r : regex)
| WordB
| Bol
| Eol.

Record flags : Type := { icase : bool; multiline : bool }.

Definition IGNORECASE : flags := {| icase := true; multiline := false |}.
Definition MULTILINE : flags := {| icase := false; multiline := true |}.
Definition NOFLAGS : flags := {| icase := false; multiline := false |}.

Record cursor : Type :=
  { prev : option ascii; rest : list ascii; pos : nat }.

Definition start_of (l : list ascii) : cursor :=
  {| prev := None; rest := l; pos := 0 |}.

(** Capture table: group number and span, the latest binding first. *)
Definition caps : Type := list (nat * (nat * nat)).

Definition citem_matches (it : citem) (c : ascii) : bool :=
  match it with
  | CChr a => Chars.eqb a c
  | CRng lo hi => between (code lo) (code hi) c
  | CDigit => is_digit c
  | CSpace => is_space c
  | CWord => is_word c
  end.

Definition items_match (fl : flags) (items : list citem) (c : ascii) : bool :=
  existsb (fun it =>
    citem_matches it c ||
    (icase fl && (citem_matches it (to_lower c) || citem_matches it (to_upper c))))
    items.

Definition lit_matches (fl : flags) (a c : ascii) : bool :=
  Chars.eqb a c || (icase fl && Chars.eqb (to_lower a) (to_lower c)).

Definition step1 (c : cursor) : option (ascii * cursor) :=
  match rest c with
  | [] => None
  | x :: xs => Some (x, {| prev := Some x; rest := xs; pos := S (pos c) |})
  end.

Definition at_word_boundary (c : cursor) : bool :=
  let before := match prev c with Some x => is_word x | None => false end in
  let after := match rest c with x :: _ => is_word x | [] => false end in
  xorb before after.

Definition at_bol (fl : flags) (c : cursor) : bool :=
  match prev c with
  | None => true
  | Some x => multiline fl && Chars.eqb x newline
  end.

(** [$] matches at the end, before a final newline, and with [MULTILINE]
    before every newline. *)
Definition at_eol (fl : flags) (c : cursor) : bool :=
  match rest c with
  | [] => true
  | x :: xs =>
      Chars.eqb x newline &&
      (multiline fl || match xs with [] => true | _ => false end)
  end.

Definition kont : Type := cursor -> caps -> option (cursor * caps).

(** Greedy bounded repetition.  [fuel] bounds the number of iterations; an
    iteration past the lower bound that consumes nothing stops the loop. *)
Fixpoint rep_loop (body : cursor -> caps -> kont -> option (cursor * caps))
    (fuel lo : nat) (hi : option nat) (c : cursor) (cs : caps) (k : kont)
  : option (cursor * caps) :=
  match fuel with
  | O => if (lo =? 0)%nat then k c cs else None
  | S fuel' =>
      let more :=
        match hi with
        | Some O => None
        | _ =>
            body c cs (fun c' cs' =>
              if ((pos c' =? pos c) && (lo =? 0))%nat then None
              else rep_loop body fuel' (Nat.pred lo) (Nat.pred <$> hi) c' cs' k)
        end in
      match more with
      | Some r => Some r
      | None => if (lo =? 0)%nat then k c cs else None
      end
  end.

Fixpoint rmatch (fl : flags) (r : regex) (c : cursor) (cs : caps) (k : kont)
  {struct r} : option (cursor * caps) :=
  match r with
  | Lit a =>
      match step1 c with
      | Some (x, c') => if lit_matches fl a x then k c' cs else None
      | None => None
      end
  | Cls items =>
      match step1 c with
      | Some (x, c') => if items_match fl items x then k c' cs else None
      | None => None
      end
  | NCls items =>
      match step1 c with
      | Some (x, c') => if items_match fl items x then None else k c' cs
      | None => None
      end
  | Eps => k c cs
  | Seq r1 r2 => rmatch fl r1 c cs (fun c' cs' => rmatch fl r2 c' cs' k)
  | Alt r1 r2 =>
      match rmatch fl r1 c cs k with
      | Some res => Some res
      | None => rmatch fl r2 c cs k
      end
  | Rep lo hi r0 =>
      rep_loop (rmatch fl r0) (lo + length (rest c) + 1) lo hi c cs k
  | Grp n r0 =>
      rmatch fl r0 c cs (fun c' cs' => k c' ((n, (pos c, pos c')) :: cs'))
  | WordB => if at_word_boundary c then k c cs else None
  | Bol => if at_bol fl c then k c cs else None
  | Eol => if at_eol fl c then k c cs else None
  end.

(** A match object: the subject, the span and the capture table. *)
Record Match : Type :=
  { m_subject : list ascii; m_start : nat; m_end : nat; m_caps : caps }.

Definition match_at (fl : flags) (r : regex) (c : cursor)
  : option (cursor * caps) :=
  rmatch fl r c [] (fun c' cs => Some (c', cs)).

(** The leftmost match starting at or after the cursor. *)
Fixpoint search_from (fl : flags) (r : regex)
    (pv : option ascii) (l : list ascii) (p : nat)
  : option (nat * cursor * caps) :=
  match match_at fl r {| prev := pv; rest := l; pos := p |} with
  | Some (c', cs) => Some (p, c', cs)
  | None =>
      match l with
      | [] => None
      | x :: xs => search_from fl r (Some x) xs (S p)
      end
  end.

(** [re.search(pattern, subject, flags)] *)
Definition search (fl : flags) (r : regex) (subject : list ascii)
  : option Match :=
  match search_from fl r None subject 0 with
  | Some (s, c', cs) =>
      Some {| m_subject := subject; m_start := s; m_end := pos c'; m_caps := cs |}
  | None => None
  end.

(** [re.match(pattern, subject, flags)] *)
Definition match_ (fl : flags) (r : regex) (subject : list ascii)
  : option Match :=
  match match_at fl r (start_of subject) with
  | Some (c', cs) =>
      Some {| m_subject := subject; m_start := 0; m_end := pos c'; m_caps := cs |}
  | None => None
  end.

(** [pattern.finditer(subject)]: the successive non-overlapping matches.  After
    an empty match the scan resumes one character further. *)
Fixpoint finditer_aux (fl : flags) (r : regex) (subject : list ascii)
    (fuel : nat) (c : cursor) : list Match :=
  match fuel with
  | O => []
  | S fuel' =>
      match search_from fl r (prev c) (rest c) (pos c) with
      | None => []
      | Some (s, c', cs) =>
          {| m_subject := subject; m_start := s; m_end := pos c'; m_caps := cs |}
          :: (if (pos c' =? s)%nat
              then match step1 c' with
                   | Some (_, c'') => finditer_aux fl r subject fuel' c''
                   | None => []
                   end
              else finditer_aux fl r subject fuel' c')
      end
  end.

Definition finditer (fl : flags) (r : regex) (subject : list ascii)
  : list Match :=
  finditer_aux fl r subject (S (length subject)) (start_of subject).

(** [match.group(0)] *)
Definition group0 (m : Match) : list ascii :=
  Str.slice (m_start m) (m_end m) (m_subject m).

Fixpoint lookup_cap (n : nat) (cs : caps) : option (nat * nat) :=
  match cs with
  | [] => None
  | (i, sp) :: cs' => if (i =? n)%nat then Some sp else lookup_cap n cs'
  end.

(** [match.group(n)] for [n >= 1]; [None] when the group did not take part. *)
Definition group (n : nat) (m : Match) : option (list ascii) :=
  match lookup_cap n (m_caps m) with
  | Some (a, b) => Some (Str.slice a b (m_subject m))
  | None => None
  end.

(** Pattern combinators, named after the concrete syntax. *)
Fixpoint lits (l : list ascii) : regex :=
  match l with
  | [] => Eps
  | [c] => Lit c
  | c :: l' => Seq (Lit c) (lits l')
  end.

Definition str (s : string) : regex := lits (chars s).

Fixpoint seqs (rs : list regex) : regex :=
  match rs with
  | [] => Eps
  | [r] => r
  | r :: rs' => Seq r (seqs rs')
  end.

Fixpoint alts (rs : list regex) : regex :=
  match rs with
  | [] => Eps
  | [r] => r
  | r :: rs' => Alt r (alts rs')
  end.

Definition star (r : regex) : regex := Rep 0 None r.
Definition plus (r : regex) : regex := Rep 1 None r.
Definition opt (r : regex) : regex := Rep 0 (Some 1%nat) r.
Definition times (n : nat) (r : regex) : regex := Rep n (Some n) r.
Definition range (lo hi : nat) (r : regex) : regex := Rep lo (Some hi) r.

Definition d : regex := Cls [CDigit].
Definition s : regex := Cls [CSpace].
Definition chr (c : string) : regex := str c.

End Re.

(** [re.sub(pattern, repl, subject)] with a literal replacement. *)
Module ReSub.
Import Re.

Fixpoint splice (repl : list ascii) (subject : list ascii) (from : nat)
    (ms : list Match) : list ascii :=
  match ms with
  | [] => drop from subject
  | m :: ms' =>
      Str.slice from (m_start m) subject ++ repl
      ++ splice repl subject (m_end m) ms'
  end.

Definition sub (fl : flags) (r : regex) (repl : list ascii)
    (subject : list ascii) : list ascii :=
  splice repl subject 0 (finditer fl r subject).

End ReSub.

(** ** Numbers read from text *)

Module Num.

Definition digit_val (c : ascii) : Z := Z.of_nat (code c - 48).

Fixpoint digits_val (acc : Z) (l : list ascii) : option Z :=
  match l with
  | [] => Some acc
  | c :: l' =>
      if is_digit c then digits_val (10 * acc + digit_val c)%Z l' else None
  end.

(** [int(s)] on a run of decimal digits; anything else is a [ValueError]. *)
Definition int_of (l : list ascii) : result Z :=
  match l with
  | [] => Raise ValueError
  | _ => match digits_val 0 l with Some z => Ok z | None => Raise ValueError end
  end.

Fixpoint split_dot (cur : list ascii) (l : list ascii)
  : list ascii * option (list ascii) :=
  match l with
  | [] => (rev cur, None)
  | c :: l' =>
      if Chars.eqb c "."%char then (rev cur, Some l')
      else split_dot (c :: cur) l'
  end.

(** [float(s)] on [digits] or [digits.digits]; anything else is a
    [ValueError]. *)
Definition float_of (l : list ascii) : result Q :=
  match split_dot [] l with
  | (ip, None) =>
      match ip, digits_val 0 ip with
      | _ :: _, Some z => Ok (inject_Z z)
      | _, _ => Raise ValueError
      end
  | (ip, Some fp) =>
      match digits_val 0 ip, digits_val 0 fp with
      | Some z, Some f =>
          match ip, fp with
          | [], [] => Raise ValueError
          | _, _ => Ok (Qred (inject_Z z + inject_Z f / inject_Z (10 ^ Z.of_nat (length fp))))
          end
      | _, _ => Raise ValueError
      end
  end.

(** [a / b] on floats. *)
Definition fdiv (a b : Q) : result Q :=
  if Qeq_bool b 0 then Raise ZeroDivisionError else Ok (Qred (a / b)).

(** Truthiness of an optional float: neither [None] nor zero. *)
Definition truthy (o : option Q) : bool :=
  match o with
  | Some q => negb (Qeq_bool q 0)
  | None => false
  end.

Definition opt_eqb (a b : option Q) : bool :=
  match a, b with
  | Some x, Some y => Qeq_bool x y
  | None, None => true
  | _, _ => false
  end.

Definition Qltb (a b : Q) : bool := negb (Qle_bool b a).

End Num.

(** ** The data model of [deal_parser_regex.py] *)

Inductive DealType : Type :=
| PRICE
| UNIT_PRICE
| MULTI_BUY
| BOGO
| SAVE_AMOUNT
| PERCENT_OFF
| MEMBER_PRICE
| UNKNOWN.

#[global] Instance DealType_eq_dec : EqDecision DealType.
Proof. solve_decision. Defined.

(** [DealType.value] *)
Definition DealType_value (t : DealType) : string :=
  match t with
  | PRICE => "price"
  | UNIT_PRICE => "unit_price"
  | MULTI_BUY => "multi_buy"
  | BOGO => "bogo"
  | SAVE_AMOUNT => "save_amount"
  | PERCENT_OFF => "percent_off"
  | MEMBER_PRICE => "member_price"
  | UNKNOWN => "unknown"
  end.

Definition all_deal_types : list DealType :=
  [PRICE; UNIT_PRICE; MULTI_BUY; BOGO; SAVE_AMOUNT; PERCENT_OFF;
   MEMBER_PRICE; UNKNOWN].

(** [DealType(s)]; [None] stands for the [ValueError] of an unknown name. *)
Definition DealType_of_value (s : string) : option DealType :=
  find (fun t => bool_decide (DealType_value t = s)) all_deal_types.

(** Values stored in the free-form [metadata] dictionary. *)
Inductive meta_val : Type :=
| MStr (s : string)
| MNum (q : Q)
| MInt (z : Z)
| MNone.

Definition meta_eqb (a b : meta_val) : bool :=
  match a, b with
  | MStr x, MStr y => bool_decide (x = y)
  | MNum x, MNum y => Qeq_bool x y
  | MInt x, MInt y => (x =? y)%Z
  | MNum x, MInt y | MInt y, MNum x => Qeq_bool x (inject_Z y)
  | MNone, MNone => true
  | _, _ => false
  end.

Record ExtractedDeal : Type := mkDeal
  { raw_text : string;
    deal_type : DealType;
    product_name : option string;
    price : option Q;
    unit : option string;
    quantity : option Z;
    discount_amount : option Q;
    discount_percent : option Q;
    original_price : option Q;
    confidence : Q;
    position : nat * nat;
    metadata : gmap string meta_val }.

(** The constructor call [ExtractedDeal(raw_text=.., deal_type=..)] with every
    other field at its default. *)
Definition new_deal (raw : string) (t : DealType) : ExtractedDeal :=
  {| raw_text := raw; deal_type := t; product_name := None; price := None;
     unit := None; quantity := None; discount_amount := None;
     discount_percent := None; original_price := None; confidence := 0;
     position := (0%nat, 0%nat); metadata := ∅ |}.

Definition set_product_name (v : option string) (d : ExtractedDeal) :=
  {| raw_text := raw_text d; deal_type := deal_type d; product_name := v;
     price := price d; unit := unit d; quantity := quantity d;
     discount_amount := discount_amount d;
     discount_percent := discount_percent d;
     original_price := original_price d; confidence := confidence d;
     position := position d; metadata := metadata d |}.

Definition set_price (v : option Q) (d : ExtractedDeal) :=
  {| raw_text := raw_text d; deal_type := deal_type d;
     product_name := product_name d;
     price := v; unit := unit d; quantity := quantity d;
     discount_amount := discount_amount d;
     discount_percent := discount_percent d;
     original_price := original_price d; confidence := confidence d;
     position := position d; metadata := metadata d |}.

Definition set_unit (v : option string) (d : ExtractedDeal) :=
  {| raw_text := raw_text d; deal_type := deal_type d;
     product_name := product_name d;
     price := price d; unit := v; quantity := quantity d;
     discount_amount := discount_amount d;
     discount_percent := discount_percent d;
     original_price := original_price d; confidence := confidence d;
     position := position d; metadata := metadata d |}.

Definition set_quantity (v : option Z) (d : ExtractedDeal) :=
  {| raw_text := raw_text d; deal_type := deal_type d;
     product_name := product_name d;
     price := price d; unit := unit d; quantity := v;
     discount_amount := discount_amount d;
     discount_percent := discount_percent d;
     original_price := original_price d; confidence := confidence d;
     position := position d; metadata := metadata d |}.

Definition set_discount_amount (v : option Q) (d : ExtractedDeal) :=
  {| raw_text := raw_text d; deal_type := deal_type d;
     product_name := product_name d;
     price := price d; unit := unit d; quantity := quantity d;
     discount_amount := v;
     discount_percent := discount_percent d;
     original_price := original_price d; confidence := confidence d;
     position := position d; metadata := metadata d |}.

Definition set_discount_percent (v : option Q) (d : ExtractedDeal) :=
  {| raw_text := raw_text d; deal_type := deal_type d;
     product_name := product_name d;
     price := price d; unit := unit d; quantity := quantity d;
     discount_amount := discount_amount d;
     discount_percent := v;
     original_price := original_price d; confidence := confidence d;
     position := position d; metadata := metadata d |}.

Definition set_original_price (v : option Q) (d : ExtractedDeal) :=
  {| raw_text := raw_text d; deal_type := deal_type d;
     product_name := product_name d;
     price := price d; unit := unit d; quantity := quantity d;
     discount_amount := discount_amount d;
     discount_percent := discount_percent d;
     original_price := v; confidence := confidence d;
     position := position d; metadata := metadata d |}.

Definition set_confidence (v : Q) (d : ExtractedDeal) :=
  {| raw_text := raw_text d; deal_type := deal_type d;
     product_name := product_name d;
     price := price d; unit := unit d; quantity := quantity d;
     discount_amount := discount_amount d;
     discount_percent := discount_percent d;
     original_price := original_price d; confidence := v;
     position := position d; metadata := metadata d |}.

Definition set_position (v : nat * nat) (d : ExtractedDeal) :=
  {| raw_text := raw_text d; deal_type := deal_type d;
     product_name := product_name d;
     price := price d; unit := unit d; quantity := quantity d;
     discount_amount := discount_amount d;
     discount_percent := discount_percent d;
     original_price := original_price d; confidence := confidence d;
     position := v; metadata := metadata d |}.

Definition set_metadata (v : gmap string meta_val) (d : ExtractedDeal) :=
  {| raw_text := raw_text d; deal_type := deal_type d;
     product_name := product_name d;
     price := price d; unit := unit d; quantity := quantity d;
     discount_amount := discount_amount d;
     discount_percent := discount_percent d;
     original_price := original_price d; confidence := confidence d;
     position := position d; metadata := v |}.

(** Truthiness of an optional string and of an optional integer. *)
Definition str_truthy (o : option string) : bool :=
  match o with
  | Some s => negb (bool_decide (s = ""))
  | None => false
  end.

Definition int_truthy (o : option Z) : bool :=
  match o with
  | Some z => negb (z =? 0)%Z
  | None => false
  end.

Definition metadata_eqb (a b : gmap string meta_val) : bool :=
  bool_decide (dom a = dom b) &&
  forallb (fun kv =>
    match b !! kv.1 with
    | Some w => meta_eqb kv.2 w
    | None => false
    end) (map_to_list a).

(** The dataclass equality [d1 == d2]: field by field. *)
Definition deal_eqb (a b : ExtractedDeal) : bool :=
  bool_decide (raw_text a = raw_text b) &&
  bool_decide (deal_type a = deal_type b) &&
  bool_decide (product_name a = product_name b) &&
  Num.opt_eqb (price a) (price b) &&
  bool_decide (unit a = unit b) &&
  bool_decide (quantity a = quantity b) &&
  Num.opt_eqb (discount_amount a) (discount_amount b) &&
  Num.opt_eqb (discount_percent a) (discount_percent b) &&
  Num.opt_eqb (original_price a) (original_price b) &&
  Qeq_bool (confidence a) (confidence b) &&
  bool_decide (position a = position b) &&
  metadata_eqb (metadata a) (metadata b).

(** ** Phase 1: [RegexDealParser] *)

Module RegexDealParser.
Import Re.

(** The sub-pattern [(\d+(?:\.\d{2})?)] as capture group [n]. *)
Definition money (n : nat) : regex :=
  Grp n (Seq (plus d) (opt (Seq (str ".") (times 2 d)))).

Definition dollar : regex := str "$".

(** [PRICE_PATTERNS], the more specific patterns first. *)
Definition PRICE_PATTERNS : list (regex * string) :=
  [ (seqs [dollar; money 1; star s; str "/"; star s;
           alts [str "lb"; str "pound"; str "lbs"]], "unit_price_lb");
    (seqs [dollar; money 1; star s; str "/"; star s;
           alts [str "oz"; str "ounce"]], "unit_price_oz");
    (seqs [dollar; money 1; star s; str "/"; star s;
           alts [str "kg"; str "kilogram"]], "unit_price_kg");
    (seqs [dollar; money 1; star s; alts [str "ea"; str "each"]],
     "unit_price_each");
    (seqs [dollar; money 1], "price") ].

(** [MULTI_BUY_PATTERNS]: "2 for $X" or "2/$X", and "Buy 2 for $X". *)
Definition MULTI_BUY_PATTERNS : list (regex * string) :=
  [ (seqs [Grp 1 (plus d); star s; alts [str "for"; str "/"]; star s;
           dollar; money 2], "multi_buy");
    (seqs [str "buy"; plus s; Grp 1 (plus d); plus s;
           alts [str "for"; str "@"]; star s; dollar; money 2], "multi_buy") ].

(** [BOGO_PATTERNS] *)
Definition BOGO_PATTERNS : list (regex * string) :=
  [ (seqs [str "buy"; plus s; Grp 1 (plus d); plus s; str "get"; plus s;
           Grp 2 (plus d); plus s; str "free"], "bogo");
    (seqs [str "b"; opt (Seq (str "uy") (star s)); Grp 1 d;
           str "g"; opt (Seq (str "et") (star s)); Grp 2 d;
           str "f"; opt (str "ree")], "bogo_short");
    (seqs [WordB; str "bogo"; WordB], "bogo_simple") ].

(** [DISCOUNT_PATTERNS] *)
Definition DISCOUNT_PATTERNS : list (regex * string) :=
  [ (seqs [str "save"; plus s; dollar; money 1], "save_amount");
    (seqs [Grp 1 (Seq (plus d) (opt (Seq (str ".") (range 1 2 d))));
           star s; str "%"; star s; str "off"], "percent_off");
    (seqs [dollar; money 1; star s; str "off"], "dollar_off") ].

Definition AZ : citem := CRng "A" "Z".
Definition az : citem := CRng "a" "z".

(** [PRODUCT_PATTERNS].  The bullet of the third pattern lies outside the
    modelled character range, which leaves the dash. *)
Definition PRODUCT_PATTERNS : list (regex * string) :=
  [ (Grp 1 (Seq (Cls [AZ]) (range 3 30 (Cls [AZ; CSpace]))), "caps_product");
    (seqs [Grp 1 (Seq (Cls [AZ; az])
                      (range 2 30 (Cls [AZ; az; CSpace; CChr "'"])));
           star s; dollar], "product_before_price");
    (seqs [Cls [CChr "-"]; star s;
           Grp 1 (Seq (Cls [AZ; az])
                      (range 2 30 (Cls [AZ; az; CSpace; CChr "'"])))],
     "bulleted_product") ].

Definition colon_or_space : regex := plus (Cls [CChr ":"; CSpace]).

(** [STORE_PATTERNS], in the order of the dictionary literal. *)
Definition STORE_PATTERNS : list (string * list (regex * string)) :=
  [ ("costco",
     [ (seqs [opt (seqs [str "manufacturer'"; opt (str "s"); plus s]);
              str "instant"; plus s; str "saving"; opt (str "s"); plus s;
              dollar; money 1], "instant_savings");
       (seqs [str "after"; plus s; opt (Seq (str "instant") (plus s));
              str "saving"; opt (str "s"); plus s; dollar; money 1],
        "after_savings") ]);
    ("whole_foods",
     [ (seqs [str "prime"; plus s; str "member"; plus s; str "deal";
              colon_or_space; dollar; money 1], "prime_deal");
       (seqs [str "sale"; colon_or_space; dollar; money 1], "sale_price") ]);
    ("safeway",
     [ (seqs [str "club"; plus s; str "price"; colon_or_space; dollar;
              money 1], "club_price");
       (seqs [str "just"; plus s; str "for"; plus s; str "u";
              colon_or_space; dollar; money 1], "j4u_price") ]);
    ("walmart",
     [ (seqs [str "rollback"; colon_or_space; dollar; money 1], "rollback");
       (seqs [str "was"; plus s; dollar; money 1; star s; str "now"; plus s;
              dollar; money 2], "was_now") ]) ].

(** The parser object: its only state is the lower-cased store hint. *)
Record t : Type := { store_hint : option string }.

Definition new (hint : option string) : t :=
  {| store_hint :=
       if str_truthy hint
       then (fun h => text (Str.lower (chars h))) <$> hint
       else None |}.

Definition store_patterns (store : string) : option (list (regex * string)) :=
  snd <$> find (fun kv => bool_decide (kv.1 = store)) STORE_PATTERNS.

(** [_clean_text]: the three substitutions in dictionary order, then
    [strip]. *)
Definition cent : ascii := ascii_of_nat 162.

Definition _clean_text (txt : list ascii) : list ascii :=
  let c1 := ReSub.sub NOFLAGS (Lit cent) (chars " cents") txt in
  let c2 := ReSub.sub NOFLAGS (Rep 2 None s) (chars " ") c1 in
  let c3 := ReSub.sub NOFLAGS (Rep 3 None (Lit newline))
              [newline; newline] c2 in
  Str.strip c3.

(** ['needle' in label] *)
Definition within (needle label : string) : bool :=
  Str.contains (chars needle) (chars label).

(** [float(match.group(n))] and [int(match.group(n))]. *)
Definition float_group (n : nat) (m : Match) : result Q :=
  match group n m with
  | Some g => Num.float_of g
  | None => Raise ValueError
  end.

Definition int_group (n : nat) (m : Match) : result Z :=
  match group n m with
  | Some g => Num.int_of g
  | None => Raise ValueError
  end.

Definition span (m : Match) : nat * nat := (m_start m, m_end m).

(** The two nested loops shared by every extractor: patterns in order, and
    for each pattern its matches in text order. *)
Definition over_matches (pats : list (regex * string)) (txt : list ascii)
    (body : string -> Match -> result (list ExtractedDeal))
  : result (list ExtractedDeal) :=
  for_each (fun pl : regex * string =>
    for_each (body pl.2) (finditer IGNORECASE pl.1 txt)) pats.

Definition _extract_prices (txt : list ascii) : result (list ExtractedDeal) :=
  over_matches PRICE_PATTERNS txt (fun label m =>
    p ← float_group 1 m;
    let '(ty, un) :=
      if within "lb" label then (UNIT_PRICE, Some "lb")
      else if within "oz" label then (UNIT_PRICE, Some "oz")
      else if within "each" label then (UNIT_PRICE, Some "ea")
      else if within "kg" label then (UNIT_PRICE, Some "kg")
      else (PRICE, None) in
    Ok [ set_metadata {[ "pattern" := MStr label ]}
           (set_position (span m)
             (set_unit un
               (set_price (Some p) (new_deal (text (group0 m)) ty)))) ]).

Definition _extract_multi_buy (txt : list ascii)
  : result (list ExtractedDeal) :=
  over_matches MULTI_BUY_PATTERNS txt (fun label m =>
    qty ← int_group 1 m;
    total_price ← float_group 2 m;
    unit_price ← Num.fdiv total_price (inject_Z qty);
    Ok [ set_metadata
           (<[ "total_price" := MNum total_price ]>
              {[ "pattern" := MStr label ]})
           (set_position (span m)
             (set_quantity (Some qty)
               (set_price (Some unit_price)
                 (new_deal (text (group0 m)) MULTI_BUY)))) ]).

Definition _extract_bogo (txt : list ascii) : result (list ExtractedDeal) :=
  over_matches BOGO_PATTERNS txt (fun label m =>
    qs ← (if bool_decide (label = "bogo") || bool_decide (label = "bogo_short")
          then b ← int_group 1 m; g ← int_group 2 m; Ok (b, g)
          else Ok (1%Z, 1%Z));
    Ok [ set_metadata
           (<[ "get_quantity" := MInt qs.2 ]>
              (<[ "buy_quantity" := MInt qs.1 ]>
                 {[ "pattern" := MStr label ]}))
           (set_position (span m)
             (set_quantity (Some qs.1)
               (new_deal (text (group0 m)) BOGO))) ]).

Definition _extract_discounts (txt : list ascii)
  : result (list ExtractedDeal) :=
  over_matches DISCOUNT_PATTERNS txt (fun label m =>
    if bool_decide (label = "save_amount") || bool_decide (label = "dollar_off")
    then
      amount ← float_group 1 m;
      Ok [ set_metadata {[ "pattern" := MStr label ]}
             (set_position (span m)
               (set_discount_amount (Some amount)
                 (new_deal (text (group0 m)) SAVE_AMOUNT))) ]
    else if bool_decide (label = "percent_off")
    then
      percent ← float_group 1 m;
      Ok [ set_metadata {[ "pattern" := MStr label ]}
             (set_position (span m)
               (set_discount_percent (Some percent)
                 (new_deal (text (group0 m)) PERCENT_OFF))) ]
    else Ok []).

Definition _extract_store_specific (self : t) (txt : list ascii)
  : result (list ExtractedDeal) :=
  match store_hint self with
  | None => Ok []
  | Some hint =>
      match store_patterns hint with
      | None => Ok []
      | Some pats =>
          over_matches pats txt (fun label m =>
            let md : gmap string meta_val :=
              <[ "store" := MStr hint ]> {[ "pattern" := MStr label ]} in
            if bool_decide (label = "was_now")
            then
              was_price ← float_group 1 m;
              now_price ← float_group 2 m;
              Ok [ set_metadata md
                     (set_position (span m)
                       (set_discount_amount (Some (was_price - now_price))
                         (set_original_price (Some was_price)
                           (set_price (Some now_price)
                             (new_deal (text (group0 m)) PRICE))))) ]
            else
              p ← float_group 1 m;
              Ok [ set_metadata md
                     (set_position (span m)
                       (set_price (Some p)
                         (new_deal (text (group0 m))
                            (if within "prime" label || within "club" label
                             then MEMBER_PRICE else PRICE)))) ])
      end
  end.

(** [_clean_product_name] *)
Definition _clean_product_name (name : list ascii) : list ascii :=
  let cleaned := Str.join [blank] (Str.split_ws name) in
  let cleaned :=
    ReSub.sub NOFLAGS (NCls [CWord; CSpace; CChr "'"; CChr "-"]) [] cleaned in
  take 50 (Str.title cleaned).

Record candidate : Type :=
  { c_name : list ascii; c_position : nat * nat; c_label : string }.

Definition product_candidates (txt : list ascii) : list candidate :=
  concat (map (fun pl : regex * string =>
    map (fun m =>
      {| c_name := Str.strip (default [] (group 1 m));
         c_position := span m; c_label := pl.2 |})
      (finditer IGNORECASE pl.1 txt)) PRODUCT_PATTERNS).

(** The inner loop of [_associate_products]: the closest candidate that
    ends before the deal starts, strictly closer than the running minimum. *)
Fixpoint closest_before (deal_start : nat) (cands : list candidate)
    (closest : option candidate) (min_distance : nat) : option candidate :=
  match cands with
  | [] => closest
  | p :: cands' =>
      let prod_end := (c_position p).2 in
      if (prod_end <=? deal_start)%nat
      then
        let distance := (deal_start - prod_end)%nat in
        if (distance <? min_distance)%nat
        then closest_before deal_start cands' (Some p) distance
        else closest_before deal_start cands' closest min_distance
      else closest_before deal_start cands' closest min_distance
  end.

Definition _associate_products (txt : list ascii) (deals : list ExtractedDeal)
  : list ExtractedDeal :=
  let cands := product_candidates txt in
  map (fun deal =>
    match closest_before (position deal).1 cands None 100 with
    | Some p =>
        set_product_name (Some (text (_clean_product_name (c_name p)))) deal
    | None => deal
    end) deals.

Definition _positions_overlap (pos1 pos2 : nat * nat) : bool :=
  negb ((pos1.2 <? pos2.1)%nat || (pos2.2 <? pos1.1)%nat).

Definition _deal_info_score (deal : ExtractedDeal) : nat :=
  ((if str_truthy (product_name deal) then 3 else 0)
   + (if Num.truthy (price deal) then 2 else 0)
   + (if str_truthy (unit deal) then 1 else 0)
   + (if Num.truthy (discount_amount deal) || Num.truthy (discount_percent deal)
      then 1 else 0)
   + (if Num.truthy (original_price deal) then 1 else 0))%nat.

(** [sorted(deals, key=lambda d: d.position[0])]: a stable insertion sort. *)
Fixpoint insert_by_start (x : ExtractedDeal) (l : list ExtractedDeal)
  : list ExtractedDeal :=
  match l with
  | [] => [x]
  | y :: l' =>
      if ((position x).1 <? (position y).1)%nat then x :: l
      else y :: insert_by_start x l'
  end.

Definition sorted_by_start (l : list ExtractedDeal) : list ExtractedDeal :=
  fold_left (fun acc x => insert_by_start x acc) l [].

(** [lst.remove(x)]: the first element equal to [x] is dropped. *)
Fixpoint list_remove (x : ExtractedDeal) (l : list ExtractedDeal)
  : list ExtractedDeal :=
  match l with
  | [] => []
  | y :: l' => if deal_eqb y x then l' else y :: list_remove x l'
  end.

(** One iteration of the outer loop of [_deduplicate_deals]. *)
Definition dedup_step (unique_deals : list ExtractedDeal) (deal : ExtractedDeal)
  : list ExtractedDeal :=
  match find (fun existing =>
          _positions_overlap (position deal) (position existing))
          unique_deals with
  | Some existing =>
      if (_deal_info_score existing <? _deal_info_score deal)%nat
      then list_remove existing unique_deals ++ [deal]
      else unique_deals
  | None => unique_deals ++ [deal]
  end.

Definition _deduplicate_deals (deals : list ExtractedDeal)
  : list ExtractedDeal :=
  match deals with
  | [] => deals
  | _ => fold_left dedup_step (sorted_by_start deals) []
  end.

(** The confidence of one deal, before it is stored in the deal. *)
Definition deal_confidence (deal : ExtractedDeal) : Q :=
  let c := 3 # 10 in
  let c := if str_truthy (product_name deal) then c + (2 # 10) else c in
  let c := if Num.truthy (price deal) &&
              match price deal with Some p => Num.Qltb 0 p | None => false end
           then c + (15 # 100) else c in
  let c := if bool_decide (deal_type deal <> UNKNOWN) then c + (1 # 10) else c in
  let c := if str_truthy (unit deal) || int_truthy (quantity deal)
           then c + (1 # 10) else c in
  let c := if bool_decide (is_Some (metadata deal !! "store"))
           then c + (15 # 100) else c in
  Qmin c 1.

Definition _calculate_confidence (deals : list ExtractedDeal)
  : list ExtractedDeal :=
  map (fun deal => set_confidence (deal_confidence deal) deal) deals.

(** [RegexDealParser.parse] *)
Definition parse_chars (self : t) (txt : list ascii)
  : result (list ExtractedDeal) :=
  let cleaned_text := _clean_text txt in
  d1 ← _extract_prices cleaned_text;
  d2 ← _extract_multi_buy cleaned_text;
  d3 ← _extract_bogo cleaned_text;
  d4 ← _extract_discounts cleaned_text;
  d5 ← (match store_hint self with
        | Some hint =>
            if bool_decide (is_Some (store_patterns hint))
            then _extract_store_specific self cleaned_text
            else Ok []
        | None => Ok []
        end);
  let deals := d1 ++ d2 ++ d3 ++ d4 ++ d5 in
  let deals := _associate_products cleaned_text deals in
  let deals := _deduplicate_deals deals in
  Ok (_calculate_confidence deals).

Definition parse (self : t) (txt : string) : result (list ExtractedDeal) :=
  parse_chars self (chars txt).

End RegexDealParser.

(** ** Files and JSON documents

    [json.dump] followed by [json.load] is the identity on the documents the
    program writes, so a file holds the document itself. *)

#[warnings="-register-all"]
Inductive json : Type :=
| JNull
| JBool (b : bool)
| JNum (q : Q)
| JStr (s : string)
| JArr (l : list json)
| JObj (fields : list (string * json)).

(** The file system: path to document. *)
Abbreviation disk := (gmap string json).

(** Insertion-ordered dictionaries with string keys. *)
Module Dict.

Definition t (V : Type) : Type := list (string * V).

Fixpoint get {V} (k : string) (m : t V) : option V :=
  match m with
  | [] => None
  | (k', v) :: m' => if bool_decide (k' = k) then Some v else get k m'
  end.

(** [m[k] = v]: an existing key keeps its place, a new key goes last. *)
Fixpoint set {V} (k : string) (v : V) (m : t V) : t V :=
  match m with
  | [] => [(k, v)]
  | (k', v') :: m' =>
      if bool_decide (k' = k) then (k, v) :: m' else (k', v') :: set k v m'
  end.

Definition mem {V} (k : string) (m : t V) : bool :=
  match get k m with Some _ => true | None => false end.

Definition keys {V} (m : t V) : list string := map fst m.

End Dict.

(** ** Phase 2: [TemplateDealParser] *)

Record LayoutRegion : Type := mkRegion
  { r_name : string;
    x_start : Q;
    x_end : Q;
    y_start : Q;
    y_end : Q;
    contains : string }.

Record StoreTemplate : Type := mkTemplate
  { store_name : string;
    layout_type : string;
    regions : list LayoutRegion;
    price_pattern : option string;
    product_pattern : option string;
    deal_separator : string;
    columns : Z;
    has_header : bool;
    has_member_prices : bool;
    sample_count : Z;
    accuracy : Q;
    last_updated : option string;
    custom_patterns : list (Dict.t string) }.

(** [StoreTemplate(store_name=name)] with every other field at its default. *)
Definition new_template (name : string) : StoreTemplate :=
  {| store_name := name; layout_type := "grid"; regions := [];
     price_pattern := None; product_pattern := None;
     deal_separator := String newline EmptyString;
     columns := 1; has_header := true; has_member_prices := false;
     sample_count := 0; accuracy := 0; last_updated := None;
     custom_patterns := [] |}.

(** One OCR fragment of the [coordinates] argument. *)
Record Coordinate : Type := { c_x : Q; c_y : Q; c_text : string }.

Module TemplateCodec.

Definition opt_str (o : option string) : json :=
  match o with Some s => JStr s | None => JNull end.

Definition region_to_json (r : LayoutRegion) : json :=
  JObj [ ("name", JStr (r_name r)); ("x_start", JNum (x_start r));
         ("x_end", JNum (x_end r)); ("y_start", JNum (y_start r));
         ("y_end", JNum (y_end r)); ("contains", JStr (contains r)) ].

Definition pattern_to_json (p : Dict.t string) : json :=
  JObj (map (fun kv : string * string => (kv.1, JStr kv.2)) p).

(** The dictionary [save_templates] builds for one template. *)
Definition template_to_json (t : StoreTemplate) : json :=
  JObj [ ("store_name", JStr (store_name t));
         ("layout_type", JStr (layout_type t));
         ("columns", JNum (inject_Z (columns t)));
         ("has_header", JBool (has_header t));
         ("has_member_prices", JBool (has_member_prices t));
         ("price_pattern", opt_str (price_pattern t));
         ("product_pattern", opt_str (product_pattern t));
         ("deal_separator", JStr (deal_separator t));
         ("sample_count", JNum (inject_Z (sample_count t)));
         ("accuracy", JNum (accuracy t));
         ("last_updated", opt_str (last_updated t));
         ("custom_patterns", JArr (map pattern_to_json (custom_patterns t)));
         ("regions", JArr (map region_to_json (regions t))) ].

Definition as_str (j : json) : option string :=
  match j with JStr s => Some s | _ => None end.

Definition as_opt_str (j : json) : option (option string) :=
  match j with JStr s => Some (Some s) | JNull => Some None | _ => None end.

Definition as_num (j : json) : option Q :=
  match j with JNum q => Some q | _ => None end.

(** An integer-valued number; the numerator is read back. *)
Definition as_int (j : json) : option Z :=
  match j with
  | JNum q => if bool_decide (Qden q = 1%positive) then Some (Qnum q) else None
  | _ => None
  end.

Definition as_bool (j : json) : option bool :=
  match j with JBool b => Some b | _ => None end.

Fixpoint all_some {A} (l : list (option A)) : option (list A) :=
  match l with
  | [] => Some []
  | Some a :: l' => cons a <$> all_some l'
  | None :: _ => None
  end.

(** The constructor call on the unpacked region dictionary: keyword by
    keyword over the defaults; an unknown
    keyword or a missing [name] fails. *)
Definition region_field (acc : LayoutRegion * bool) (kv : string * json)
  : option (LayoutRegion * bool) :=
  let '(k, v) := kv in
  let '(r, named) := acc in
  if bool_decide (k = "name") then
    s ← as_str v;
    Some (mkRegion s (x_start r) (x_end r) (y_start r) (y_end r)
            (contains r), true)
  else if bool_decide (k = "x_start") then
    q ← as_num v;
    Some (mkRegion (r_name r) q (x_end r) (y_start r) (y_end r)
            (contains r), named)
  else if bool_decide (k = "x_end") then
    q ← as_num v;
    Some (mkRegion (r_name r) (x_start r) q (y_start r) (y_end r)
            (contains r), named)
  else if bool_decide (k = "y_start") then
    q ← as_num v;
    Some (mkRegion (r_name r) (x_start r) (x_end r) q (y_end r)
            (contains r), named)
  else if bool_decide (k = "y_end") then
    q ← as_num v;
    Some (mkRegion (r_name r) (x_start r) (x_end r) (y_start r) q
            (contains r), named)
  else if bool_decide (k = "contains") then
    s ← as_str v;
    Some (mkRegion (r_name r) (x_start r) (x_end r) (y_start r)
            (y_end r) s, named)
  else None.

Fixpoint fold_fields {S} (f : S -> string * json -> option S) (acc : S)
    (fields : list (string * json)) : option S :=
  match fields with
  | [] => Some acc
  | kv :: fields' => acc' ← f acc kv; fold_fields f acc' fields'
  end.

Definition region_of_json (j : json) : option LayoutRegion :=
  match j with
  | JObj fields =>
      match fold_fields region_field
              (mkRegion "" 0 1 0 1 "deals", false) fields with
      | Some (r, true) => Some r
      | _ => None
      end
  | _ => None
  end.

Definition pattern_of_json (j : json) : option (Dict.t string) :=
  match j with
  | JObj fields =>
      all_some (map (fun kv : string * json =>
                  (fun s => (kv.1, s)) <$> as_str kv.2) fields)
  | _ => None
  end.

Definition with_regions (rs : list LayoutRegion) (t : StoreTemplate) :=
  mkTemplate (store_name t) (layout_type t) rs (price_pattern t)
    (product_pattern t) (deal_separator t) (columns t) (has_header t)
    (has_member_prices t) (sample_count t) (accuracy t) (last_updated t)
    (custom_patterns t).

(** One keyword of the constructor call on the unpacked template dictionary. *)
Definition template_field (acc : StoreTemplate * bool) (kv : string * json)
  : option (StoreTemplate * bool) :=
  let '(k, v) := kv in
  let '(t, named) := acc in
  if bool_decide (k = "store_name") then
    s ← as_str v;
    Some (mkTemplate s (layout_type t) (regions t) (price_pattern t)
            (product_pattern t) (deal_separator t) (columns t) (has_header t)
            (has_member_prices t) (sample_count t) (accuracy t)
            (last_updated t) (custom_patterns t), true)
  else if bool_decide (k = "layout_type") then
    s ← as_str v;
    Some (mkTemplate (store_name t) s (regions t) (price_pattern t)
            (product_pattern t) (deal_separator t) (columns t) (has_header t)
            (has_member_prices t) (sample_count t) (accuracy t)
            (last_updated t) (custom_patterns t), named)
  else if bool_decide (k = "price_pattern") then
    s ← as_opt_str v;
    Some (mkTemplate (store_name t) (layout_type t) (regions t) s
            (product_pattern t) (deal_separator t) (columns t) (has_header t)
            (has_member_prices t) (sample_count t) (accuracy t)
            (last_updated t) (custom_patterns t), named)
  else if bool_decide (k = "product_pattern") then
    s ← as_opt_str v;
    Some (mkTemplate (store_name t) (layout_type t) (regions t)
            (price_pattern t) s (deal_separator t) (columns t) (has_header t)
            (has_member_prices t) (sample_count t) (accuracy t)
            (last_updated t) (custom_patterns t), named)
  else if bool_decide (k = "deal_separator") then
    s ← as_str v;
    Some (mkTemplate (store_name t) (layout_type t) (regions t)
            (price_pattern t) (product_pattern t) s (columns t) (has_header t)
            (has_member_prices t) (sample_count t) (accuracy t)
            (last_updated t) (custom_patterns t), named)
  else if bool_decide (k = "columns") then
    z ← as_int v;
    Some (mkTemplate (store_name t) (layout_type t) (regions t)
            (price_pattern t) (product_pattern t) (deal_separator t) z
            (has_header t) (has_member_prices t) (sample_count t) (accuracy t)
            (last_updated t) (custom_patterns t), named)
  else if bool_decide (k = "has_header") then
    b ← as_bool v;
    Some (mkTemplate (store_name t) (layout_type t) (regions t)
            (price_pattern t) (product_pattern t) (deal_separator t)
            (columns t) b (has_member_prices t) (sample_count t) (accuracy t)
            (last_updated t) (custom_patterns t), named)
  else if bool_decide (k = "has_member_prices") then
    b ← as_bool v;
    Some (mkTemplate (store_name t) (layout_type t) (regions t)
            (price_pattern t) (product_pattern t) (deal_separator t)
            (columns t) (has_header t) b (sample_count t) (accuracy t)
            (last_updated t) (custom_patterns t), named)
  else if bool_decide (k = "sample_count") then
    z ← as_int v;
    Some (mkTemplate (store_name t) (layout_type t) (regions t)
            (price_pattern t) (product_pattern t) (deal_separator t)
            (columns t) (has_header t) (has_member_prices t) z (accuracy t)
            (last_updated t) (custom_patterns t), named)
  else if bool_decide (k = "accuracy") then
    q ← as_num v;
    Some (mkTemplate (store_name t) (layout_type t) (regions t)
            (price_pattern t) (product_pattern t) (deal_separator t)
            (columns t) (has_header t) (has_member_prices t) (sample_count t)
            q (last_updated t) (custom_patterns t), named)
  else if bool_decide (k = "last_updated") then
    s ← as_opt_str v;
    Some (mkTemplate (store_name t) (layout_type t) (regions t)
            (price_pattern t) (product_pattern t) (deal_separator t)
            (columns t) (has_header t) (has_member_prices t) (sample_count t)
            (accuracy t) s (custom_patterns t), named)
  else if bool_decide (k = "custom_patterns") then
    match v with
    | JArr l =>
        ps ← all_some (map pattern_of_json l);
        Some (mkTemplate (store_name t) (layout_type t) (regions t)
                (price_pattern t) (product_pattern t) (deal_separator t)
                (columns t) (has_header t) (has_member_prices t)
                (sample_count t) (accuracy t) (last_updated t) ps, named)
    | _ => None
    end
  else None.

Definition is_regions (kv : string * json) : bool :=
  bool_decide (kv.1 = "regions").

(** The body of the loading loop for one store: [regions] is popped and
    rebuilt, the remaining keywords build the template. *)
Definition template_of_json (j : json) : option StoreTemplate :=
  match j with
  | JObj fields =>
      rs ← match Dict.get "regions" fields with
           | Some (JArr l) => all_some (map region_of_json l)
           | Some _ => None
           | None => Some []
           end;
      match fold_fields template_field (new_template "", false)
              (filter (fun kv => negb (is_regions kv)) fields) with
      | Some (t, true) => Some (with_regions rs t)
      | _ => None
      end
  | _ => None
  end.

End TemplateCodec.

Definition lower_str (s : string) : string := text (Str.lower (chars s)).

(** [f"{x:.2f}"]: two decimals, ties to even. *)
Module Fmt.

Definition round_half_even (q : Q) : Z :=
  let f := Qfloor q in
  let r := q - inject_Z f in
  if Num.Qltb r (1 # 2) then f
  else if Num.Qltb (1 # 2) r then (f + 1)%Z
  else if Z.even f then f else (f + 1)%Z.

Definition two_digits (z : Z) : string :=
  if (z <? 10)%Z then "0" +:+ pretty z else pretty z.

Definition format_2f (q : Q) : string :=
  let cents := Z.abs (round_half_even (q * 100)) in
  (if Num.Qltb q 0 then "-" else "")
  +:+ pretty (cents / 100)%Z +:+ "." +:+ two_digits (cents mod 100)%Z.

(** [re.escape]: the characters special to [re] get a backslash. *)
Definition special : list ascii :=
  chars "()[]{}?*+-|^$\.&~# " ++
  map ascii_of_nat [9; 10; 13; 11; 12]%nat.

Definition escape (l : list ascii) : list ascii :=
  concat (map (fun c =>
    if existsb (Chars.eqb c) special then ["\"%char; c] else [c]) l).

End Fmt.

Module TemplateDealParser.
Import Re.

Definition region (name : string) (xs xe ys ye : Q) (what : string)
  : LayoutRegion := mkRegion name xs xe ys ye what.

(** [DEFAULT_TEMPLATES], in the order of the dictionary literal. *)
Definition DEFAULT_TEMPLATES : Dict.t StoreTemplate :=
  [ ("costco",
     mkTemplate "costco" "grid"
       [ region "header" 0 1 0 (1 # 10) "header";
         region "main_deals" 0 1 (1 # 10) (85 # 100) "deals";
         region "footer" 0 1 (85 # 100) 1 "footer" ]
       (Some "\$(\d+\.\d{2})\s+(?:after|instant)")
       (Some "^([A-Z][A-Z\s]{5,40})$")
       (String newline EmptyString) 2 true true 0 0 None []);
    ("whole_foods",
     mkTemplate "whole_foods" "mixed"
       [ region "header" 0 1 0 (15 # 100) "header";
         region "prime_deals" 0 (1 # 2) (15 # 100) (1 # 2) "deals";
         region "regular_deals" (1 # 2) 1 (15 # 100) (85 # 100) "deals";
         region "footer" 0 1 (85 # 100) 1 "footer" ]
       (Some "(?:sale|prime)\s*\$(\d+\.\d{2})") None
       (String newline EmptyString) 3 true true 0 0 None []);
    ("safeway",
     mkTemplate "safeway" "grid"
       [ region "header" 0 1 0 (12 # 100) "header";
         region "main_grid" 0 1 (12 # 100) (88 # 100) "deals";
         region "footer" 0 1 (88 # 100) 1 "footer" ]
       (Some "club\s+price\s+\$(\d+\.\d{2})") None
       (String newline EmptyString) 3 true true 0 0 None []);
    ("walmart",
     mkTemplate "walmart" "list"
       [ region "header" 0 1 0 (1 # 10) "header";
         region "deals" 0 1 (1 # 10) (9 # 10) "deals";
         region "footer" 0 1 (9 # 10) 1 "footer" ]
       (Some "(?:rollback|was\s+\$\d+\.\d{2}\s+now)\s*\$(\d+\.\d{2})") None
       (String newline EmptyString) 1 true false 0 0 None []);
    ("kroger",
     mkTemplate "kroger" "grid"
       [ region "header" 0 1 0 (1 # 10) "header";
         region "digital_coupons" 0 (3 # 10) (1 # 10) (1 # 2) "deals";
         region "main_deals" (3 # 10) 1 (1 # 10) (9 # 10) "deals";
         region "footer" 0 1 (9 # 10) 1 "footer" ]
       None None
       (String newline EmptyString) 4 true true 0 0 None []) ].

(** The sub-pattern [(\d+\.\d{2})] as capture group [n]. *)
Definition cents2 (n : nat) : regex :=
  Grp n (seqs [plus d; str "."; times 2 d]).

(** The compiled forms of the pattern texts of [DEFAULT_TEMPLATES]; any other
    text is left to the [re_compile] in force. *)
Definition compile_default (src : string) : option regex :=
  if bool_decide (src = "\$(\d+\.\d{2})\s+(?:after|instant)") then
    Some (seqs [str "$"; cents2 1; plus s; Alt (str "after") (str "instant")])
  else if bool_decide (src = "^([A-Z][A-Z\s]{5,40})$") then
    Some (seqs [Bol;
                Grp 1 (Seq (Cls [CRng "A" "Z"])
                           (range 5 40 (Cls [CRng "A" "Z"; CSpace])));
                Eol])
  else if bool_decide (src = "(?:sale|prime)\s*\$(\d+\.\d{2})") then
    Some (seqs [Alt (str "sale") (str "prime"); star s; str "$"; cents2 1])
  else if bool_decide (src = "club\s+price\s+\$(\d+\.\d{2})") then
    Some (seqs [str "club"; plus s; str "price"; plus s; str "$"; cents2 1])
  else if bool_decide
            (src = "(?:rollback|was\s+\$\d+\.\d{2}\s+now)\s*\$(\d+\.\d{2})") then
    Some (seqs [Alt (str "rollback")
                    (seqs [str "was"; plus s; str "$"; plus d; str ".";
                           times 2 d; plus s; str "now"]);
                star s; str "$"; cents2 1])
  else None.

(** The parser object.  [regex_parser] is [RegexDealParser()] without a
    store hint. *)
Record t : Type := mkParser
  { templates : Dict.t StoreTemplate;
    templates_path : option string;
    regex_parser : RegexDealParser.t }.

(** The loop of [_load_templates]: the first entry that fails to build ends
    the loading, the entries before it stay. *)
Fixpoint load_loop (ts : Dict.t StoreTemplate) (items : list (string * json))
  : Dict.t StoreTemplate :=
  match items with
  | [] => ts
  | (store, data) :: items' =>
      match TemplateCodec.template_of_json data with
      | Some tpl => load_loop (Dict.set store tpl ts) items'
      | None => ts
      end
  end.

Definition _load_templates (self : t) (fs : disk) : t :=
  match templates_path self with
  | Some path =>
      match fs !! path with
      | Some (JObj items) =>
          mkParser (load_loop (templates self) items) (templates_path self)
            (regex_parser self)
      | _ => self
      end
  | None => self
  end.

(** [TemplateDealParser(templates_path)]; [defaults] is the class-level
    table at the time of the call. *)
Definition new (defaults : Dict.t StoreTemplate) (path : option string)
    (fs : disk) : t :=
  let self := mkParser defaults path (RegexDealParser.new None) in
  match path with
  | Some p => if bool_decide (is_Some (fs !! p)) then _load_templates self fs
              else self
  | None => self
  end.

Definition save_templates (self : t) (fs : disk) : disk :=
  match templates_path self with
  | None => fs
  | Some path =>
      <[ path := JObj (map (fun kv : string * StoreTemplate =>
                   (kv.1, TemplateCodec.template_to_json kv.2))
                   (templates self)) ]> fs
  end.

Definition substr (a b : string) : bool := Str.contains (chars a) (chars b).

Definition _get_template (self : t) (store : option string)
  : option StoreTemplate :=
  match store with
  | None => None
  | Some st =>
      if bool_decide (st = "") then None
      else
        let store_lower := lower_str st in
        match Dict.get store_lower (templates self) with
        | Some tpl => Some tpl
        | None =>
            snd <$> find (fun kv : string * StoreTemplate =>
                      substr kv.1 store_lower || substr store_lower kv.1)
                      (templates self)
        end
  end.

Definition _split_grid (txt : list ascii) (cols : Z) : list (list ascii) :=
  let lines := Str.split_on newline txt in
  let '(blocks, current) :=
    fold_left (fun (st : list (list ascii) * list (list ascii)) line =>
      let '(blocks, current) := st in
      match Str.strip line with
      | [] => match current with
              | [] => (blocks, current)
              | _ => (blocks ++ [Str.join [newline] current], [])
              end
      | _ => (blocks, current ++ [line])
      end) lines ([], []) in
  match current with
  | [] => blocks
  | _ => blocks ++ [Str.join [newline] current]
  end.

(** [re.split(pattern, subject)] for a pattern without groups. *)
Fixpoint split_at (subject : list ascii) (from : nat) (ms : list Match)
  : list (list ascii) :=
  match ms with
  | [] => [drop from subject]
  | m :: ms' =>
      Str.slice from (m_start m) subject :: split_at subject (m_end m) ms'
  end.

Definition _split_mixed (txt : list ascii) : list (list ascii) :=
  let blocks :=
    split_at txt 0 (finditer NOFLAGS (Rep 2 None (Lit newline)) txt) in
  filter (fun b => b <> []) (map Str.strip blocks).

(** [subject.split(sep)] for a non-empty separator. *)
Fixpoint split_str_aux (sep : list ascii) (skip : nat) (cur : list ascii)
    (l : list ascii) : list (list ascii) :=
  match l with
  | [] => [rev cur]
  | c :: l' =>
      match skip with
      | S k => split_str_aux sep k cur l'
      | O =>
          if Str.prefixb sep l
          then rev cur :: split_str_aux sep (length sep - 1) [] l'
          else split_str_aux sep 0 (c :: cur) l'
      end
  end.

Definition split_str (sep : list ascii) (l : list ascii)
  : result (list (list ascii)) :=
  match sep with
  | [] => Raise ValueError
  | _ => Ok (split_str_aux sep 0 [] l)
  end.

(** The number of capture groups of a pattern. *)
Fixpoint ngroups (r : regex) : nat :=
  match r with
  | Seq a b | Alt a b => Nat.max (ngroups a) (ngroups b)
  | Rep _ _ a => ngroups a
  | Grp n a => Nat.max n (ngroups a)
  | _ => 0
  end.

(** [match.group(1)] used as a string: a group the pattern lacks is an
    [IndexError], a group that did not take part yields [None], whose use
    is a [TypeError]. *)
Definition group1 (r : regex) (m : Match) : result (list ascii) :=
  if (ngroups r <? 1)%nat then Raise IndexError
  else match group 1 m with
       | Some g => Ok g
       | None => Raise TypeError
       end.

(** [match.groups()] *)
Definition groups (r : regex) (m : Match) : list (option (list ascii)) :=
  map (fun i => group i m) (seq 1 (ngroups r)).

Definition product_line : regex :=
  seqs [Bol; Cls [CRng "A" "Z"];
        range 2 30 (Cls [CRng "A" "Z"; CRng "a" "z"; CSpace; CChr "'"]); Eol].

Definition generic_price : regex := Seq (str "$") (cents2 1).

Definition template_md (tpl : StoreTemplate) (block_index : nat)
  : gmap string meta_val :=
  <[ "block_index" := MInt (Z.of_nat block_index) ]>
    (<[ "store" := MStr (store_name tpl) ]>
       {[ "source" := MStr "template" ]}).

Definition in_range (lo hi q : Q) : bool := Qle_bool lo q && Qle_bool q hi.

(** The first group that reads as a price in [0.01, 1000]. *)
Fixpoint first_price (gs : list (option (list ascii))) : option Q :=
  match gs with
  | [] => None
  | g :: gs' =>
      match g with
      | Some l =>
          match Num.float_of l with
          | Ok p => if in_range (1 # 100) 1000 p then Some p else first_price gs'
          | Raise _ => first_price gs'
          end
      | None => first_price gs'
      end
  end.

Definition by_yx (a b : Coordinate) : bool :=
  Num.Qltb (c_y a) (c_y b) ||
  (Qeq_bool (c_y a) (c_y b) && Num.Qltb (c_x a) (c_x b)).

(** [blocks.sort(key=lambda b: (b['y'], b['x']))]: stable. *)
Fixpoint insert_yx (x : Coordinate) (l : list Coordinate) : list Coordinate :=
  match l with
  | [] => [x]
  | y :: l' => if by_yx x y then x :: l else y :: insert_yx x l'
  end.

Definition sort_yx (l : list Coordinate) : list Coordinate :=
  fold_left (fun acc x => insert_yx x acc) l [].

Definition inside (rg : LayoutRegion) (c : Coordinate) : bool :=
  in_range (x_start rg) (x_end rg) (c_x c) &&
  in_range (y_start rg) (y_end rg) (c_y c).

(** The bucket filling of [_extract_with_coordinates]: the first region that
    holds the fragment decides, and only a [deals] region keeps it. *)
Definition bucket (rgs : list LayoutRegion)
    (region_texts : Dict.t (list Coordinate)) (c : Coordinate)
  : Dict.t (list Coordinate) :=
  match find (fun rg => inside rg c) rgs with
  | Some rg =>
      if bool_decide (contains rg = "deals")
      then Dict.set (r_name rg)
             (default [] (Dict.get (r_name rg) region_texts) ++ [c])
             region_texts
      else region_texts
  | None => region_texts
  end.

(** The rows of one region: a fragment more than 0.05 below the previous one
    starts a new row. *)
Fixpoint rows_of (blocks : list Coordinate) (current : list string)
    (last_y : Q) : list (list string) :=
  match blocks with
  | [] => match current with [] => [] | _ => [current] end
  | b :: blocks' =>
      if Qle_bool 0 last_y && Num.Qltb (5 # 100) (Qabs (c_y b - last_y))
      then match current with
           | [] => rows_of blocks' [c_text b] (c_y b)
           | _ => current :: rows_of blocks' [c_text b] (c_y b)
           end
      else rows_of blocks' (current ++ [c_text b]) (c_y b)
  end.

Definition join_row (row : list string) : list ascii :=
  Str.join [blank] (map chars row).

Section Extraction.

(** [re.compile] on a pattern text; [None] is [re.error]. *)
Variable re_compile : string -> option regex.

(** [re.search(pattern_text, subject, flags)] *)
Definition search_text (fl : flags) (src : string) (subject : list ascii)
  : result (option (regex * Match)) :=
  match re_compile src with
  | Some r => Ok ((fun m => (r, m)) <$> search fl r subject)
  | None => Raise ReError
  end.

Definition _extract_from_block (block : list ascii) (tpl : StoreTemplate)
    (block_index : nat) : result (list ExtractedDeal) :=
  match Str.strip block with
  | [] => Ok []
  | _ =>
      name1 ← (if str_truthy (product_pattern tpl)
               then
                 found ← search_text MULTILINE
                           (default "" (product_pattern tpl)) block;
                 match found with
                 | Some (r, m) => g ← group1 r m; Ok (Some (text (Str.strip g)))
                 | None => Ok None
                 end
               else Ok None);
      price1 ← (if str_truthy (price_pattern tpl)
                then
                  found ← search_text IGNORECASE
                            (default "" (price_pattern tpl)) block;
                  match found with
                  | Some (r, m) => g ← group1 r m; p ← Num.float_of g; Ok (Some p)
                  | None => Ok None
                  end
                else Ok None);
      price2 ← (match price1 with
                | Some p => Ok (Some p)
                | None =>
                    match search NOFLAGS generic_price block with
                    | Some m =>
                        p ← Num.float_of (default [] (group 1 m)); Ok (Some p)
                    | None => Ok None
                    end
                end);
      let name2 :=
        match name1 with
        | Some n => Some n
        | None =>
            let lines := Str.split_on newline (Str.strip block) in
            (fun line => text (Str.strip line)) <$>
              find (fun line =>
                match match_ NOFLAGS product_line (Str.strip line) with
                | Some _ => true
                | None => false
                end) (take 3 lines)
        end in
      match price2 with
      | Some p =>
          Ok [ set_metadata (template_md tpl block_index)
                 (set_price (Some p)
                   (set_product_name name2
                     (new_deal (text (take 100 block)) PRICE))) ]
      | None => Ok []
      end
  end.

Fixpoint enumerate_from {A} (i : nat) (l : list A) : list (nat * A) :=
  match l with
  | [] => []
  | a :: l' => (i, a) :: enumerate_from (S i) l'
  end.

Definition _extract_with_template (txt : list ascii) (tpl : StoreTemplate)
  : result (list ExtractedDeal) :=
  blocks ← (if bool_decide (layout_type tpl = "grid")
            then Ok (_split_grid txt (columns tpl))
            else if bool_decide (layout_type tpl = "list")
            then split_str (chars (deal_separator tpl)) txt
            else Ok (_split_mixed txt));
  for_each (fun ib : nat * list ascii =>
    _extract_from_block ib.2 tpl ib.1) (enumerate_from 0 blocks).

Definition _extract_with_coordinates (txt : list ascii) (tpl : StoreTemplate)
    (coordinates : list Coordinate) : result (list ExtractedDeal) :=
  let empty : Dict.t (list Coordinate) :=
    fold_left (fun acc rg => Dict.set (r_name rg) [] acc) (regions tpl) [] in
  let region_texts := fold_left (bucket (regions tpl)) coordinates empty in
  for_each (fun kv : string * list Coordinate =>
    match kv.2 with
    | [] => Ok []
    | _ =>
        for_each (fun row => _extract_from_block (join_row row) tpl 0)
          (rows_of (sort_yx kv.2) [] (-1))
    end) region_texts.

Definition custom_md (info : Dict.t string) : gmap string meta_val :=
  <[ "pattern_id" :=
       match Dict.get "id" info with Some i => MStr i | None => MNone end ]>
    {[ "source" := MStr "custom_pattern" ]}.

Definition _apply_custom_patterns (txt : list ascii) (tpl : StoreTemplate)
  : list ExtractedDeal :=
  concat (map (fun info : Dict.t string =>
    let ty_name := default "price" (Dict.get "deal_type" info) in
    match Dict.get "pattern" info with
    | None => []
    | Some src =>
        if bool_decide (src = "") then []
        else
          match re_compile src with
          | None => []
          | Some r =>
              omap (fun m =>
                let ty := default PRICE (DealType_of_value ty_name) in
                let deal :=
                  set_metadata (custom_md info)
                    (new_deal (text (group0 m)) ty) in
                let deal :=
                  match first_price (groups r m) with
                  | Some p => set_price (Some p) deal
                  | None => deal
                  end in
                if Num.truthy (price deal) then Some deal else None)
                (finditer IGNORECASE r txt)
          end
    end) (custom_patterns tpl)).

End Extraction.

(** [set(name.split())] *)
Definition word_set (l : list ascii) : gset string :=
  list_to_set (map text (Str.split_ws l)).

Definition _similar_products (name1 name2 : option string) : bool :=
  match name1, name2 with
  | Some a, Some b =>
      if bool_decide (a = "") || bool_decide (b = "") then false
      else
        let n1 := Str.strip (Str.lower (chars a)) in
        let n2 := Str.strip (Str.lower (chars b)) in
        if Str.eqb n1 n2 then true
        else if Str.contains n1 n2 || Str.contains n2 n1 then true
        else
          let words1 := word_set n1 in
          let words2 := word_set n2 in
          let overlap := size (words1 ∩ words2) in
          Qle_bool (inject_Z (Z.of_nat (Nat.min (size words1) (size words2)))
                    * (1 # 2))
                   (inject_Z (Z.of_nat overlap))
  | _, _ => false
  end.

(** The test of the inner loop of [_merge_deals]. *)
Definition is_duplicate_of (regex_deal template_deal : ExtractedDeal) : bool :=
  Num.opt_eqb (price template_deal) (price regex_deal) &&
  _similar_products (product_name template_deal) (product_name regex_deal).

(** The outer loop of [_merge_deals], one regex deal at a time. *)
Fixpoint merge_loop (template_deals merged regex_deals : list ExtractedDeal)
  : list ExtractedDeal :=
  match regex_deals with
  | [] => merged
  | regex_deal :: regex_deals' =>
      if existsb (is_duplicate_of regex_deal) template_deals
      then merge_loop template_deals merged regex_deals'
      else merge_loop template_deals (merged ++ [regex_deal]) regex_deals'
  end.

Definition _merge_deals (template_deals regex_deals : list ExtractedDeal)
  : list ExtractedDeal :=
  merge_loop template_deals template_deals regex_deals.

Definition source_is (deal : ExtractedDeal) (src : string) : bool :=
  match metadata deal !! "source" with
  | Some v => meta_eqb v (MStr src)
  | None => false
  end.

Definition deal_confidence (deal : ExtractedDeal) (tpl : option StoreTemplate)
  : Q :=
  let c := 4 # 10 in
  let c := if source_is deal "template" then c + (15 # 100)
           else if source_is deal "custom_pattern" then c + (2 # 10)
           else c in
  let c := if str_truthy (product_name deal) then c + (15 # 100) else c in
  let c := if Num.truthy (price deal) &&
              match price deal with
              | Some p => in_range (1 # 100) 500 p
              | None => false
              end
           then c + (1 # 10) else c in
  let c := match tpl with
           | Some t => if Num.Qltb 0 (accuracy t)
                       then c + accuracy t * (1 # 10) else c
           | None => c
           end in
  Qmin c 1.

Definition _calculate_confidence (deals : list ExtractedDeal)
    (tpl : option StoreTemplate) : list ExtractedDeal :=
  map (fun deal => set_confidence (deal_confidence deal tpl) deal) deals.

Section Parse.

Variable re_compile : string -> option regex.

(** [TemplateDealParser.parse] *)
Definition parse (self : t) (txt : string) (store : option string)
    (coordinates : list Coordinate) : result (list ExtractedDeal) :=
  let tpl := _get_template self store in
  deals ← (match tpl with
           | Some t =>
               ds ← (match coordinates with
                     | _ :: _ =>
                         _extract_with_coordinates re_compile (chars txt) t
                           coordinates
                     | [] => _extract_with_template re_compile (chars txt) t
                     end);
               Ok (ds ++ _apply_custom_patterns re_compile (chars txt) t)
           | None => Ok []
           end);
  regex_deals ← RegexDealParser.parse (regex_parser self) txt;
  let merged_deals := _merge_deals deals regex_deals in
  Ok (_calculate_confidence merged_deals tpl).

End Parse.

(** The three shapes probed by [learn_from_correction], each with its
    pattern text and its compiled form. *)
Definition patterns_to_try (price_str : string) : list (string * regex) :=
  let escaped := text (Fmt.escape (chars price_str)) in
  let lit := Grp 1 (lits (chars price_str)) in
  [ ("\$(" +:+ escaped +:+ ")", Seq (str "$") lit);
    ("(" +:+ escaped +:+ ")\s*(?:dollars?|usd)",
     seqs [lit; star s; Alt (Seq (str "dollar") (opt (str "s"))) (str "usd")]);
    ("price[:\s]+\$?(" +:+ escaped +:+ ")",
     seqs [str "price"; plus (Cls [CChr ":"; CSpace]); opt (str "$"); lit]) ].

Definition with_learning (tpl : StoreTemplate) (count : Z)
    (updated : option string) (pats : list (Dict.t string)) : StoreTemplate :=
  mkTemplate (store_name tpl) (layout_type tpl) (regions tpl)
    (price_pattern tpl) (product_pattern tpl) (deal_separator tpl)
    (columns tpl) (has_header tpl) (has_member_prices tpl) count
    (accuracy tpl) updated pats.

Definition learned_pattern (count : Z) (src : string)
    (corrected_deal : ExtractedDeal) : Dict.t string :=
  [ ("id", "price_" +:+ pretty count);
    ("pattern", src);
    ("deal_type", "price");
    ("learned_from", text (take 50 (chars (raw_text corrected_deal)))) ].

(** The pattern learned from one correction, if any. *)
Definition learn_pattern (original_deal corrected_deal : ExtractedDeal)
    (raw : string) : option string :=
  if Num.truthy (price corrected_deal) &&
     negb (Num.opt_eqb (price original_deal) (price corrected_deal))
  then
    let price_str := Fmt.format_2f (default 0 (price corrected_deal)) in
    fst <$> find (fun pr : string * regex =>
              match search IGNORECASE pr.2 (chars raw) with
              | Some _ => true
              | None => false
              end) (patterns_to_try price_str)
  else None.

(** [TemplateDealParser.learn_from_correction]; [now] is the reading of
    [datetime.now().isoformat()]. *)
Definition learn_from_correction (self : t) (store : string)
    (original_deal corrected_deal : ExtractedDeal) (raw : string)
    (now : string) (fs : disk) : t * disk :=
  let store_lower := lower_str store in
  let tpl := default (new_template store_lower)
               (Dict.get store_lower (templates self)) in
  let count := (sample_count tpl + 1)%Z in
  let pats :=
    match learn_pattern original_deal corrected_deal raw with
    | Some src =>
        custom_patterns tpl ++ [learned_pattern count src corrected_deal]
    | None => custom_patterns tpl
    end in
  let tpl' := with_learning tpl count (Some now) pats in
  let self' := mkParser (Dict.set store_lower tpl' (templates self))
                 (templates_path self) (regex_parser self) in
  (self', save_templates self' fs).

Definition with_accuracy (tpl : StoreTemplate) (acc : Q) : StoreTemplate :=
  mkTemplate (store_name tpl) (layout_type tpl) (regions tpl)
    (price_pattern tpl) (product_pattern tpl) (deal_separator tpl)
    (columns tpl) (has_header tpl) (has_member_prices tpl) (sample_count tpl)
    acc (last_updated tpl) (custom_patterns tpl).

End TemplateDealParser.

(** ** Phase 3: [DealMatcher] *)

(** A catalog entry; an absent key of the dictionary is [None]. *)
Record Product : Type := mkProduct
  { p_id : option string;
    p_name : option string;
    p_category : option string;
    p_typical_price : option Q;
    p_unit : option string;
    p_brand : option string;
    p_purchase_frequency : option Q }.

#[global] Instance Q_eq_dec : EqDecision Q.
Proof. solve_decision. Defined.

#[global] Instance Product_eq_dec : EqDecision Product.
Proof. solve_decision. Defined.

Record ProductMatch : Type := mkMatch
  { pm_deal : ExtractedDeal;
    pm_product_id : string;
    pm_product_name : string;
    pm_category : string;
    match_score : Q;
    match_features : list (string * Q);
    is_verified : bool }.

Record ProductCatalog : Type :=
  { products : list Product; categories : list string }.

Definition empty_catalog : ProductCatalog :=
  {| products := []; categories := [] |}.

(** One labelled example of the training buffer. *)
Record TrainingExample : Type := mkExample
  { ex_deal : ExtractedDeal; ex_product : Product; ex_is_match : bool }.

Module Similarity.

(** One row of the Levenshtein matrix from the row above.  [above] starts at
    column [j-1] of the previous row and [left] is column [j-1] of the row
    being filled. *)
Fixpoint fill_row (c1 : ascii) (s2 : list ascii) (above : list nat)
    (left : nat) : list nat :=
  match s2, above with
  | c2 :: s2', diag :: ((up :: _) as above') =>
      let cost := if Chars.eqb c1 c2 then 0%nat else 1%nat in
      let v := Nat.min (up + 1) (Nat.min (left + 1) (diag + cost)) in
      v :: fill_row c1 s2' above' v
  | _, _ => []
  end.

(** Row [i] of the matrix, [i >= 1], from row [i-1]. *)
Definition next_row (i : nat) (c1 : ascii) (s2 : list ascii)
    (above : list nat) : list nat :=
  i :: fill_row c1 s2 above i.

(** The rows [i], [i+1], ... over the rest of [s1]; the result is the last
    row. *)
Fixpoint rows_from (i : nat) (s1 s2 : list ascii) (above : list nat)
  : list nat :=
  match s1 with
  | [] => above
  | c1 :: s1' => rows_from (S i) s1' s2 (next_row (S i) c1 s2 above)
  end.

(** [matrix[len1][len2]] *)
Definition levenshtein (s1 s2 : list ascii) : nat :=
  default 0%nat (rows_from 0 s1 s2 (seq 0 (S (length s2))) !! length s2).

Definition ratio (a b : nat) : Q :=
  inject_Z (Z.of_nat a) / inject_Z (Z.of_nat b).

Definition _levenshtein_similarity (s1 s2 : list ascii) : Q :=
  match s1, s2 with
  | [], _ | _, [] => 0
  | _, _ =>
      let distance := levenshtein s1 s2 in
      let max_len := Nat.max (length s1) (length s2) in
      1 - ratio distance max_len
  end.

(** The inner loop of the match search: the first [j] in [[j, stop)] that is
    still free and carries the character [c]. *)
Fixpoint find_partner (c : ascii) (s2 : list ascii) (s2_matches : list bool)
    (j : nat) (n : nat) : option nat :=
  match n with
  | O => None
  | S n' =>
      match s2_matches !! j, s2 !! j with
      | Some false, Some c2 =>
          if Chars.eqb c c2 then Some j
          else find_partner c s2 s2_matches (S j) n'
      | _, _ => find_partner c s2 s2_matches (S j) n'
      end
  end.

Record jaro_state : Type :=
  { s1_matches : list bool; s2_matches : list bool; matches : nat }.

(** One iteration of the first loop over [i]. *)
Definition match_step (s1 s2 : list ascii) (match_distance : Z)
    (st : jaro_state) (i : nat) : jaro_state :=
  let start := Z.to_nat (Z.max 0 (Z.of_nat i - match_distance)) in
  let stop := Z.to_nat (Z.min (Z.of_nat i + match_distance + 1)
                              (Z.of_nat (length s2))) in
  match s1 !! i with
  | Some c =>
      match find_partner c s2 (s2_matches st) start (stop - start) with
      | Some j =>
          {| s1_matches := <[ i := true ]> (s1_matches st);
             s2_matches := <[ j := true ]> (s2_matches st);
             matches := S (matches st) |}
      | None => st
      end
  | None => st
  end.

(** [while not s2_matches[k]: k += 1] on the part of the array from [k]
    on; running off the array is an [IndexError]. *)
Fixpoint next_matched (tail : list bool) (k : nat) : result nat :=
  match tail with
  | [] => Raise IndexError
  | true :: _ => Ok k
  | false :: tail' => next_matched tail' (S k)
  end.

(** The second loop over [i], with the running [k] and count. *)
Fixpoint count_transpositions (s1 s2 : list ascii) (s1m s2m : list bool)
    (idx : list nat) (k transpositions : nat) : result nat :=
  match idx with
  | [] => Ok transpositions
  | i :: idx' =>
      match s1m !! i with
      | Some true =>
          k' ← next_matched (drop k s2m) k;
          match s1 !! i, s2 !! k' with
          | Some a, Some b =>
              count_transpositions s1 s2 s1m s2m idx' (S k')
                (if Chars.eqb a b then transpositions else S transpositions)
          | _, _ => Raise IndexError
          end
      | _ => count_transpositions s1 s2 s1m s2m idx' k transpositions
      end
  end.

(** The Winkler prefix: the common prefix within the first
    [min(len1, len2, 4)] characters. *)
Fixpoint common_prefix (n : nat) (s1 s2 : list ascii) : nat :=
  match n, s1, s2 with
  | S n', a :: s1', b :: s2' =>
      if Chars.eqb a b then S (common_prefix n' s1' s2') else 0
  | _, _, _ => 0
  end.

Definition qnat (n : nat) : Q := inject_Z (Z.of_nat n).

Definition jaro_of (m t len1 len2 : nat) : Q :=
  (qnat m / qnat len1 + qnat m / qnat len2
   + (qnat m - qnat t / 2) / qnat m) / 3.

Definition _jaro_winkler_similarity (s1 s2 : list ascii) : result Q :=
  match s1, s2 with
  | [], _ | _, [] => Ok 0
  | _, _ =>
      if Str.eqb s1 s2 then Ok 1
      else
        let len1 := length s1 in
        let len2 := length s2 in
        let match_distance := (Z.of_nat (Nat.max len1 len2) / 2 - 1)%Z in
        let st :=
          fold_left (match_step s1 s2 match_distance) (seq 0 len1)
            {| s1_matches := replicate len1 false;
               s2_matches := replicate len2 false;
               matches := 0 |} in
        if (matches st =? 0)%nat then Ok 0
        else
          t ← count_transpositions s1 s2 (s1_matches st) (s2_matches st)
                (seq 0 len1) 0 0;
          let jaro := jaro_of (matches st) t len1 len2 in
          let prefix :=
            common_prefix (Nat.min len1 (Nat.min len2 4)) s1 s2 in
          Ok (jaro + qnat prefix * (1 # 10) * (1 - jaro))
  end.

(** [set(s[i:i+n] for i in range(len(s) - n + 1))] *)
Definition ngrams (n : nat) (l : list ascii) : gset string :=
  list_to_set
    (map (fun i => text (Str.slice i (i + n) l))
       (seq 0 (Z.to_nat (Z.of_nat (length l) - Z.of_nat n + 1)))).

Definition _ngram_overlap (s1 s2 : list ascii) (n : nat) : Q :=
  match s1, s2 with
  | [], _ | _, [] => 0
  | _, _ =>
      let ngrams1 := ngrams n s1 in
      let ngrams2 := ngrams n s2 in
      if bool_decide (ngrams1 = ∅) || bool_decide (ngrams2 = ∅) then 0
      else
        let smaller := Nat.min (size ngrams1) (size ngrams2) in
        if (0 <? smaller)%nat
        then ratio (size (ngrams1 ∩ ngrams2)) smaller else 0
  end.

(** [set(re.findall(r'\w+', s.lower()))] *)
Definition words_of (l : list ascii) : gset string :=
  list_to_set
    (map (fun m => text (Re.group0 m))
       (Re.finditer Re.NOFLAGS (Re.plus (Re.Cls [Re.CWord])) (Str.lower l))).

Definition _word_overlap (s1 s2 : list ascii) : Q :=
  let words1 := words_of s1 in
  let words2 := words_of s2 in
  if bool_decide (words1 = ∅) || bool_decide (words2 = ∅) then 0
  else
    let union := size (words1 ∪ words2) in
    if (0 <? union)%nat then ratio (size (words1 ∩ words2)) union else 0.

End Similarity.

Module ProductCatalogOps.

Definition name_lower (p : Product) : list ascii :=
  Str.lower (chars (default "" (p_name p))).

(** [ProductCatalog.get_by_category] *)
Definition get_by_category (cat : ProductCatalog) (category : string)
  : list Product :=
  filter (fun p => p_category p = Some category) (products cat).

(** [ProductCatalog.search] *)
Definition search (cat : ProductCatalog) (query : string) (limit : nat)
  : list Product :=
  let query_lower := Str.lower (chars query) in
  take limit
    (filter (fun p =>
       Is_true (Str.contains query_lower (name_lower p) ||
                existsb (fun word => Str.contains word (name_lower p))
                  (Str.split_ws query_lower)))
       (products cat)).

End ProductCatalogOps.

Module DealMatcher.

Definition feature_names : list string :=
  [ "levenshtein_sim"; "jaro_winkler_sim"; "ngram_overlap_2";
    "ngram_overlap_3"; "word_overlap"; "category_match";
    "price_reasonableness"; "historical_purchase"; "brand_match";
    "unit_match" ].

(** The weights of [_heuristic_match], in feature order. *)
Definition weights : list Q :=
  [ 15 # 100; 2 # 10; 1 # 10; 1 # 10; 15 # 100; 1 # 10; 5 # 100; 5 # 100;
    5 # 100; 5 # 100 ].

(** The report of [train]: an error object or the training metrics. *)
Inductive TrainReport : Type :=
| TrainError (reason : string)
| TrainMetrics (train_accuracy validation_accuracy : Q)
    (samples_trained samples_validated : nat)
    (feature_importance : list (string * Q)).

Definition meta_category (deal : ExtractedDeal) : string :=
  match metadata deal !! "category" with
  | Some (MStr c) => c
  | _ => ""
  end.

Definition _extract_brand (name : option string) : option string :=
  match name with
  | None => None
  | Some n =>
      match Str.split_ws (chars n) with
      | (c :: w) :: _ =>
          if is_upper c then Some (text (Str.lower (c :: w))) else None
      | _ => None
      end
  end.

Definition indicator (b : bool) : Q := if b then 1 else 0.

Definition _calculate_features (deal : ExtractedDeal) (product : Product)
  : result (list Q) :=
  let deal_name := Str.lower (chars (default "" (product_name deal))) in
  let prod_name := ProductCatalogOps.name_lower product in
  jw ← Similarity._jaro_winkler_similarity deal_name prod_name;
  let deal_category := lower_str (meta_category deal) in
  let product_category := lower_str (default "" (p_category product)) in
  let price_feature :=
    match price deal, p_typical_price product with
    | Some p, Some typical =>
        if Num.truthy (Some p) && Num.Qltb 0 typical
        then Qmax 0 (1 - Qabs (p / typical - 1)) else 0
    | _, _ => 0
    end in
  let deal_brand := _extract_brand (product_name deal) in
  let product_brand := lower_str (default "" (p_brand product)) in
  let unit_feature :=
    match unit deal, p_unit product with
    | Some u, Some pu =>
        if bool_decide (u = "") then 0 else indicator (bool_decide (u = pu))
    | _, _ => 0
    end in
  Ok [ Similarity._levenshtein_similarity deal_name prod_name;
       jw;
       Similarity._ngram_overlap deal_name prod_name 2;
       Similarity._ngram_overlap deal_name prod_name 3;
       Similarity._word_overlap deal_name prod_name;
       indicator (negb (bool_decide (deal_category = "")) &&
                  bool_decide (deal_category = product_category));
       price_feature;
       default 0 (p_purchase_frequency product);
       indicator (match deal_brand with
                  | Some b => negb (bool_decide (b = "")) &&
                              TemplateDealParser.substr b product_brand
                  | None => false
                  end);
       unit_feature ].

Definition dot (a b : list Q) : Q :=
  fold_left Qplus (zip_with Qmult a b) 0.

Definition make_match (deal : ExtractedDeal) (product : Product)
    (features : list Q) (score : Q) : ProductMatch :=
  {| pm_deal := deal;
     pm_product_id := default "" (p_id product);
     pm_product_name := default "" (p_name product);
     pm_category := default "" (p_category product);
     match_score := score;
     match_features := zip feature_names features;
     is_verified := false |}.

(** [scored.sort(key=lambda x: x[2], reverse=True)]: stable, best first. *)
Fixpoint insert_desc {A} (x : A * Q) (l : list (A * Q)) : list (A * Q) :=
  match l with
  | [] => [x]
  | y :: l' => if Num.Qltb y.2 x.2 then x :: l else y :: insert_desc x l'
  end.

Definition sort_desc {A} (l : list (A * Q)) : list (A * Q) :=
  fold_left (fun acc x => insert_desc x acc) l [].

Definition _heuristic_match (deal : ExtractedDeal)
    (candidate_features : list (Product * list Q)) (top_k : nat)
  : list ProductMatch :=
  let scored :=
    map (fun pf : Product * list Q => (pf, dot pf.2 weights))
      candidate_features in
  map (fun s : (Product * list Q) * Q => make_match deal s.1.1 s.1.2 s.2)
    (take top_k (sort_desc scored)).

Section Backend.

(** The classifier library.  [Model] is a fitted classifier;
    [SKLEARN_AVAILABLE] records whether the import succeeded;
    [predict_top model X k] is the indices and positive-class probabilities
    of the [k] best rows of [X], best first; [fit_and_score X y n_val]
    shuffles, holds [n_val] rows out, fits and scores, giving the model, the
    two accuracies and the feature importances; [new_forest] is the
    classifier object before fitting. *)
Variable Model : Type.
Variable new_forest : Model.
Variable SKLEARN_AVAILABLE : bool.
Variable predict_top : Model -> list (list Q) -> nat -> result (list (nat * Q)).
Variable fit_and_score :
  list (list Q) -> list bool -> nat -> result (Model * (Q * Q * list Q)).

Record t : Type := mkMatcher
  { model : option Model;
    catalog : ProductCatalog;
    model_path : option string }.

Definition _get_candidates (self : t) (deal : ExtractedDeal) (limit : nat)
  : list Product :=
  let candidates :=
    if str_truthy (product_name deal)
    then ProductCatalogOps.search (catalog self)
           (default "" (product_name deal)) limit
    else [] in
  let candidates :=
    if (length candidates <? 10)%nat &&
       negb (bool_decide (meta_category deal = ""))
    then
      fold_left (fun acc p =>
        if bool_decide (p ∈ acc) then acc else acc ++ [p])
        (ProductCatalogOps.get_by_category (catalog self) (meta_category deal))
        candidates
    else candidates in
  take limit candidates.

Definition _ml_match (m : Model) (deal : ExtractedDeal)
    (candidate_features : list (Product * list Q)) (top_k : nat)
  : result (list ProductMatch) :=
  top ← predict_top m (map snd candidate_features) top_k;
  for_each (fun ix : nat * Q =>
    match candidate_features !! ix.1 with
    | Some (product, features) => Ok [make_match deal product features ix.2]
    | None => Raise IndexError
    end) top.

Definition features_of (deal : ExtractedDeal) (ps : list Product)
  : result (list (Product * list Q)) :=
  for_each (fun p => f ← _calculate_features deal p; Ok [(p, f)]) ps.

Definition _match_single_deal (self : t) (deal : ExtractedDeal) (top_k : nat)
  : result (list ProductMatch) :=
  if negb (str_truthy (product_name deal)) then Ok []
  else
    match _get_candidates self deal 50 with
    | [] => Ok []
    | candidates =>
        candidate_features ← features_of deal candidates;
        match model self with
        | Some m =>
            if SKLEARN_AVAILABLE
            then _ml_match m deal candidate_features top_k
            else Ok (_heuristic_match deal candidate_features top_k)
        | None => Ok (_heuristic_match deal candidate_features top_k)
        end
    end.

(** [DealMatcher.match] *)
Definition match_ (self : t) (deals : list ExtractedDeal) (top_k : nat)
  : result (list ProductMatch) :=
  for_each (fun deal => _match_single_deal self deal top_k) deals.

(** The strategy [_match_single_deal] takes for a deal with candidates. *)
Inductive strategy : Type := Heuristic | Classifier.

Definition active_strategy (self : t) : strategy :=
  match model self with
  | Some _ => if SKLEARN_AVAILABLE then Classifier else Heuristic
  | None => Heuristic
  end.

(** [DealMatcher.train]: the report and the matcher afterwards.  Writing the
    model file is left out: no other component reads it. *)
Definition train (self : t) (training_data : list TrainingExample)
  : result TrainReport * t :=
  if negb SKLEARN_AVAILABLE then (Ok (TrainError "sklearn not available"), self)
  else if (length training_data <? 10)%nat
  then (Ok (TrainError "insufficient training data"), self)
  else
    match for_each (fun ex =>
            f ← _calculate_features (ex_deal ex) (ex_product ex); Ok [f])
            training_data with
    | Raise e => (Raise e, self)
    | Ok X =>
        let y := map ex_is_match training_data in
        let n_val := Z.to_nat (Z.of_nat (length X) * 2 / 10) in
        match fit_and_score X y n_val with
        | Raise e =>
            (Raise e, mkMatcher (Some new_forest) (catalog self)
                        (model_path self))
        | Ok (m, (train_acc, val_acc, importance)) =>
            (Ok (TrainMetrics train_acc val_acc (length X - n_val) n_val
                   (zip feature_names importance)),
             mkMatcher (Some m) (catalog self) (model_path self))
        end
    end.

Definition set_catalog (self : t) (cat : ProductCatalog) : t :=
  mkMatcher (model self) cat (model_path self).

End Backend.

End DealMatcher.

(** ** [AccuracyTracker] *)

Record AccuracyMetrics : Type := mkMetrics
  { total_deals : Z;
    correct_matches : Z;
    incorrect_matches : Z;
    corrections_received : Z }.

Definition no_metrics : AccuracyMetrics := mkMetrics 0 0 0 0.

Definition qdiv (a b : Z) : Q := inject_Z a / inject_Z b.

(** [AccuracyMetrics.accuracy] *)
Definition metrics_accuracy (m : AccuracyMetrics) : Q :=
  if (total_deals m =? 0)%Z then 0
  else qdiv (correct_matches m) (total_deals m).

(** [AccuracyMetrics.correction_rate] *)
Definition metrics_correction_rate (m : AccuracyMetrics) : Q :=
  if (total_deals m =? 0)%Z then 0
  else qdiv (corrections_received m) (total_deals m).

(** One entry of a store's history.  [h_timestamp] is the instant the ISO
    text denotes, in seconds; [None] is a text [fromisoformat] rejects. *)
Record HistoryEntry : Type := mkEntry
  { h_timestamp : option Z;
    h_is_correct : bool;
    h_phase : Z;
    h_deal_type : string }.

Record StoreAccuracy : Type := mkStoreAccuracy
  { sa_store_name : string;
    overall : AccuracyMetrics;
    by_phase : gmap Z AccuracyMetrics;
    by_deal_type : gmap string AccuracyMetrics;
    history : list HistoryEntry }.

Definition new_store_accuracy (name : string) : StoreAccuracy :=
  mkStoreAccuracy name no_metrics ∅ ∅ [].

Module StoreAccuracyOps.

Definition bump (is_correct count_incorrect : bool) (m : AccuracyMetrics)
  : AccuracyMetrics :=
  mkMetrics (total_deals m + 1)
    (if is_correct then correct_matches m + 1 else correct_matches m)
    (if is_correct then incorrect_matches m
     else if count_incorrect then incorrect_matches m + 1
     else incorrect_matches m)
    (corrections_received m).

Definition corrected (m : AccuracyMetrics) : AccuracyMetrics :=
  mkMetrics (total_deals m) (correct_matches m) (incorrect_matches m)
    (corrections_received m + 1).

(** [StoreAccuracy.add_result] *)
Definition add_result (sa : StoreAccuracy) (is_correct : bool) (phase : Z)
    (deal_type : string) (timestamp : Z) : StoreAccuracy :=
  mkStoreAccuracy (sa_store_name sa)
    (bump is_correct true (overall sa))
    (<[ phase := bump is_correct false
                   (default no_metrics (by_phase sa !! phase)) ]> (by_phase sa))
    (<[ deal_type := bump is_correct false
                       (default no_metrics (by_deal_type sa !! deal_type)) ]>
       (by_deal_type sa))
    (history sa ++ [mkEntry (Some timestamp) is_correct phase deal_type]).

(** [StoreAccuracy.add_correction] *)
Definition add_correction (sa : StoreAccuracy) (phase : Z)
    (deal_type : string) : StoreAccuracy :=
  mkStoreAccuracy (sa_store_name sa)
    (corrected (overall sa))
    (alter corrected phase (by_phase sa))
    (alter corrected deal_type (by_deal_type sa))
    (history sa).

End StoreAccuracyOps.

Module AccuracyTracker.

Record t : Type := mkTracker
  { storage_path : option string;
    stores : gmap string StoreAccuracy;
    global_metrics : AccuracyMetrics }.

Definition new_empty (path : option string) : t :=
  mkTracker path ∅ no_metrics.

(** [phase_targets.get(phase, 0.5)] *)
Definition phase_target (phase : Z) : Q :=
  if (phase =? 1)%Z then 35 # 100
  else if (phase =? 2)%Z then 55 # 100
  else if (phase =? 3)%Z then 80 # 100
  else 1 # 2.

Definition metrics_to_json (m : AccuracyMetrics) : json :=
  JObj [ ("total_deals", JNum (inject_Z (total_deals m)));
         ("correct_matches", JNum (inject_Z (correct_matches m)));
         ("incorrect_matches", JNum (inject_Z (incorrect_matches m)));
         ("corrections_received", JNum (inject_Z (corrections_received m))) ].

Definition phase_metrics_to_json (m : AccuracyMetrics) : json :=
  JObj [ ("total_deals", JNum (inject_Z (total_deals m)));
         ("correct_matches", JNum (inject_Z (correct_matches m)));
         ("corrections_received", JNum (inject_Z (corrections_received m))) ].

Definition type_metrics_to_json (m : AccuracyMetrics) : json :=
  JObj [ ("total_deals", JNum (inject_Z (total_deals m)));
         ("correct_matches", JNum (inject_Z (correct_matches m))) ].

Definition entry_to_json (e : HistoryEntry) : json :=
  JObj [ ("timestamp",
          match h_timestamp e with
          | Some ts => JNum (inject_Z ts)
          | None => JNull
          end);
         ("is_correct", JBool (h_is_correct e));
         ("phase", JNum (inject_Z (h_phase e)));
         ("deal_type", JStr (h_deal_type e)) ].

(** [lst[-n:]] *)
Definition last_n {A} (n : nat) (l : list A) : list A :=
  drop (length l - n) l.

Definition store_to_json (sa : StoreAccuracy) : json :=
  JObj [ ("store_name", JStr (sa_store_name sa));
         ("overall", metrics_to_json (overall sa));
         ("by_phase",
          JObj (map (fun kv : Z * AccuracyMetrics =>
                  (pretty kv.1, phase_metrics_to_json kv.2))
                  (map_to_list (by_phase sa))));
         ("by_deal_type",
          JObj (map (fun kv : string * AccuracyMetrics =>
                  (kv.1, type_metrics_to_json kv.2))
                  (map_to_list (by_deal_type sa))));
         ("history", JArr (map entry_to_json (last_n 1000 (history sa)))) ].

Definition to_json (self : t) : json :=
  JObj [ ("global_metrics", metrics_to_json (global_metrics self));
         ("stores",
          JObj (map (fun kv : string * StoreAccuracy =>
                  (kv.1, store_to_json kv.2)) (map_to_list (stores self)))) ].

(** [AccuracyTracker._save] *)
Definition _save (self : t) (fs : disk) : disk :=
  match storage_path self with
  | None => fs
  | Some path => <[ path := to_json self ]> fs
  end.

Definition store_entry (self : t) (store_lower : string) : StoreAccuracy :=
  default (new_store_accuracy store_lower) (stores self !! store_lower).

(** [AccuracyTracker.record_result] *)
Definition record_result (self : t) (store : string) (is_correct : bool)
    (phase : Z) (deal_type : string) (timestamp : Z) (fs : disk) : t * disk :=
  let store_lower := lower_str store in
  let sa := StoreAccuracyOps.add_result (store_entry self store_lower)
              is_correct phase deal_type timestamp in
  let self' :=
    mkTracker (storage_path self) (<[ store_lower := sa ]> (stores self))
      (StoreAccuracyOps.bump is_correct true (global_metrics self)) in
  (self', _save self' fs).

(** [AccuracyTracker.record_correction] *)
Definition record_correction (self : t) (store : string) (phase : Z)
    (deal_type : string) (fs : disk) : t * disk :=
  let store_lower := lower_str store in
  let sa := StoreAccuracyOps.add_correction (store_entry self store_lower)
              phase deal_type in
  let self' :=
    mkTracker (storage_path self) (<[ store_lower := sa ]> (stores self))
      (StoreAccuracyOps.corrected (global_metrics self)) in
  (self', _save self' fs).

Record PhaseAccuracy : Type :=
  { pa_phase : Z; pa_total_deals : Z; pa_accuracy : Q;
    pa_target : Q; pa_meets_target : bool; pa_gap : Q }.

(** [AccuracyTracker.get_phase_accuracy] *)
Definition get_phase_accuracy (self : t) (phase : Z) : PhaseAccuracy :=
  let '(total, correct) :=
    map_fold (fun (_ : string) sa (acc : Z * Z) =>
      match by_phase sa !! phase with
      | Some m => (acc.1 + total_deals m, acc.2 + correct_matches m)%Z
      | None => acc
      end) (0%Z, 0%Z) (stores self) in
  let acc := if (0 <? total)%Z then qdiv correct total else 0 in
  let target := phase_target phase in
  {| pa_phase := phase; pa_total_deals := total; pa_accuracy := acc;
     pa_target := target; pa_meets_target := Qle_bool target acc;
     pa_gap := target - acc |}.

Inductive Trend : Type :=
| InsufficientData
| Improving
| Declining
| Stable.

Record DailyAccuracy : Type :=
  { da_date : Z; da_accuracy : Q; da_total : Z }.

Record TrendData : Type :=
  { td_days : Z;
    td_data_points : nat;
    td_trend : Trend;
    td_daily_accuracy : list DailyAccuracy;
    td_overall_accuracy : Q }.

Definition seconds_per_day : Z := 86400.

(** [ts.date()]: the day an instant falls on. *)
Definition date_of (ts : Z) : Z := (ts / seconds_per_day)%Z.

(** The history kept by the first loop of [get_trend]. *)
Definition is_recent (cutoff : Z) (e : HistoryEntry) : bool :=
  match h_timestamp e with
  | Some ts => (cutoff <=? ts)%Z
  | None => false
  end.

Definition recent (cutoff : Z) (entries : list HistoryEntry)
  : list HistoryEntry :=
  filter (fun e => is_recent cutoff e) entries.

Definition collect_history (self : t) (store : option string) (cutoff : Z)
  : list HistoryEntry :=
  let stores_to_check :=
    match store with
    | Some st => if bool_decide (st = "") then (map_to_list (stores self)).*1
                 else [lower_str st]
    | None => (map_to_list (stores self)).*1
    end in
  concat (map (fun name =>
    match stores self !! name with
    | Some sa => recent cutoff (history sa)
    | None => []
    end) stores_to_check).

(** The day buckets: date to (correct, total). *)
Definition group_by_day (hist : list HistoryEntry) : gmap Z (Z * Z) :=
  fold_left (fun (daily : gmap Z (Z * Z)) e =>
    match h_timestamp e with
    | Some ts =>
        let '(c, n) := default (0%Z, 0%Z) (daily !! date_of ts) in
        <[ date_of ts := ((if h_is_correct e then c + 1 else c)%Z, (n + 1)%Z) ]>
          daily
    | None => daily
    end) hist ∅.

(** [sorted(keys)] *)
Fixpoint insert_sorted (x : Z) (l : list Z) : list Z :=
  match l with
  | [] => [x]
  | y :: l' => if (x <? y)%Z then x :: l else y :: insert_sorted x l'
  end.

Definition sorted (l : list Z) : list Z :=
  fold_left (fun acc x => insert_sorted x acc) l [].

Definition daily_rates (daily : gmap Z (Z * Z)) : list DailyAccuracy :=
  map (fun date =>
    let '(c, n) := default (0%Z, 0%Z) (daily !! date) in
    {| da_date := date;
       da_accuracy := if (0 <? n)%Z then qdiv c n else 0;
       da_total := n |})
    (sorted (map_to_list daily).*1).

Definition qsum (l : list Q) : Q := fold_right Qplus 0 l.

(** [np.mean] *)
Definition mean (l : list Q) : Q := qsum l / inject_Z (Z.of_nat (length l)).

Definition classify (accuracies : list DailyAccuracy) : Trend :=
  if (length accuracies <? 2)%nat then InsufficientData
  else
    let half := (length accuracies / 2)%nat in
    let first_half := mean (map da_accuracy (take half accuracies)) in
    let second_half := mean (map da_accuracy (drop half accuracies)) in
    if Num.Qltb (first_half + (5 # 100)) second_half then Improving
    else if Num.Qltb second_half (first_half - (5 # 100)) then Declining
    else Stable.

Definition overall_of (accuracies : list DailyAccuracy) : Q :=
  match accuracies with
  | [] => 0
  | _ =>
      qsum (map (fun a => da_accuracy a * inject_Z (da_total a)) accuracies)
      / qsum (map (fun a => inject_Z (da_total a)) accuracies)
  end.

(** [AccuracyTracker.get_trend]; [now] is the reading of the clock. *)
Definition get_trend (self : t) (now : Z) (store : option string) (days : Z)
  : TrendData :=
  let cutoff := (now - days * seconds_per_day)%Z in
  let hist := collect_history self store cutoff in
  match hist with
  | [] =>
      {| td_days := days; td_data_points := 0; td_trend := InsufficientData;
         td_daily_accuracy := []; td_overall_accuracy := 0 |}
  | _ =>
      let accuracies := daily_rates (group_by_day hist) in
      {| td_days := days; td_data_points := length hist;
         td_trend := classify accuracies;
         td_daily_accuracy := accuracies;
         td_overall_accuracy := overall_of accuracies |}
  end.

(** The slope of the least-squares line through [(0, y0), (1, y1), ...]:
    the first coefficient of [np.polyfit(x, y, 1)]. *)
Definition polyfit_slope (ys : list Q) : Q :=
  let n := inject_Z (Z.of_nat (length ys)) in
  let xs := map (fun i => inject_Z (Z.of_nat i)) (seq 0 (length ys)) in
  let sx := qsum xs in
  let sy := qsum ys in
  let sxy := qsum (zip_with Qmult xs ys) in
  let sxx := qsum (map (fun x => x * x) xs) in
  (n * sxy - sx * sy) / (n * sxx - sx * sx).

Inductive PredictionKind : Type :=
| PInsufficientData
| PAchieved
| PNotImproving
| PLongTerm
| PEstimated.

Record Prediction : Type :=
  { prediction : PredictionKind;
    target_accuracy : Q;
    current_accuracy : option Q;
    daily_improvement : option Q;
    estimated_days : option Z;
    estimated_date : option Z }.

(** [int(x)]: truncation towards zero. *)
Definition trunc (q : Q) : Z := Z.quot (Qnum q) (Zpos (Qden q)).

(** [AccuracyTracker.predict_target_date] *)
Definition predict_target_date (self : t) (now : Z) (target : Q)
    (store : option string) : Prediction :=
  let trend_data := get_trend self now store 14 in
  match td_trend trend_data with
  | InsufficientData =>
      {| prediction := PInsufficientData; target_accuracy := target;
         current_accuracy := None; daily_improvement := None;
         estimated_days := None; estimated_date := None |}
  | _ =>
      let current := td_overall_accuracy trend_data in
      if Qle_bool target current then
        {| prediction := PAchieved; target_accuracy := target;
           current_accuracy := Some current; daily_improvement := None;
           estimated_days := None; estimated_date := None |}
      else
        let daily_acc := td_daily_accuracy trend_data in
        if (length daily_acc <? 3)%nat then
          {| prediction := PInsufficientData; target_accuracy := target;
             current_accuracy := Some current; daily_improvement := None;
             estimated_days := None; estimated_date := None |}
        else
          let slope := polyfit_slope (map da_accuracy daily_acc) in
          if Qle_bool slope 0 then
            {| prediction := PNotImproving; target_accuracy := target;
               current_accuracy := Some current;
               daily_improvement := Some slope;
               estimated_days := None; estimated_date := None |}
          else
            let gap := target - current in
            let days_to_target := trunc (gap / slope) in
            if (365 <? days_to_target)%Z then
              {| prediction := PLongTerm; target_accuracy := target;
                 current_accuracy := Some current;
                 daily_improvement := Some slope;
                 estimated_days := Some days_to_target;
                 estimated_date := None |}
            else
              {| prediction := PEstimated; target_accuracy := target;
                 current_accuracy := Some current;
                 daily_improvement := Some slope;
                 estimated_days := Some days_to_target;
                 estimated_date :=
                   Some (now + days_to_target * seconds_per_day)%Z |}
  end.

End AccuracyTracker.

(** ** [ProgressiveLearner] *)

Inductive LearningPhase : Type :=
| PHASE_1_REGEX
| PHASE_2_TEMPLATE
| PHASE_3_ML.

#[global] Instance LearningPhase_eq_dec : EqDecision LearningPhase.
Proof. solve_decision. Defined.

(** [LearningPhase.value] *)
Definition phase_value (p : LearningPhase) : Z :=
  match p with
  | PHASE_1_REGEX => 1
  | PHASE_2_TEMPLATE => 2
  | PHASE_3_ML => 3
  end.

(** [LearningPhase(n)]; [None] stands for the [ValueError]. *)
Definition phase_of_value (n : Z) : option LearningPhase :=
  if (n =? 1)%Z then Some PHASE_1_REGEX
  else if (n =? 2)%Z then Some PHASE_2_TEMPLATE
  else if (n =? 3)%Z then Some PHASE_3_ML
  else None.

Record PhaseTransitionConfig : Type := mkConfig
  { min_ads_for_phase_2 : Z;
    min_corrections_for_phase_2 : Z;
    min_ads_for_phase_3 : Z;
    min_corrections_for_phase_3 : Z;
    min_accuracy_for_phase_3 : Q;
    ml_retrain_threshold : Z }.

(** [PhaseTransitionConfig()] *)
Definition default_config : PhaseTransitionConfig :=
  mkConfig 5 20 15 50 (55 # 100) 10.

(** The result of [process_ad], without the wall-clock processing time. *)
Record ProcessingResult : Type := mkResult
  { res_deals : list ExtractedDeal;
    res_matches : list ProductMatch;
    phase_used : LearningPhase;
    res_confidence : Q;
    res_store : option string;
    regex_count : nat;
    ads_processed_for_store : Z }.

Record CorrectionRecord : Type := mkCorrection
  { correction_id : string;
    timestamp : Z;
    cr_store : string;
    cr_original_deal : ExtractedDeal;
    cr_corrected_deal : ExtractedDeal;
    cr_original_match : option ProductMatch;
    cr_corrected_match : option ProductMatch;
    phase_at_correction : Z;
    cr_raw_text : string }.

Module ProgressiveLearner.

(** The status object of [_retrain_ml_model]. *)
Inductive RetrainStatus : Type :=
| Skipped (reason : string)
| Success (metrics : DealMatcher.TrainReport)
| Errored (e : exn).

(** The dictionary [learn_from_correction] returns. *)
Record CorrectionResult : Type := mkCorrectionResult
  { cres_correction_id : string;
    cres_total_corrections : Z;
    cres_current_phase : Z;
    actions_taken : list string;
    ml_retrain : option RetrainStatus;
    phase_advanced : bool;
    new_phase : option Z }.

Definition empty_product : Product :=
  mkProduct None None None None None None None.

(** Truthiness of an optional dictionary: present and not empty. *)
Definition product_truthy (o : option Product) : bool :=
  match o with
  | Some p => negb (bool_decide (p = empty_product))
  | None => false
  end.

(** [_deals_similar] *)
Definition _deals_similar (deal1 deal2 : ExtractedDeal) : bool :=
  (Num.truthy (price deal1) && Num.truthy (price deal2) &&
   match price deal1, price deal2 with
   | Some p1, Some p2 => Num.Qltb (Qabs (p1 - p2)) (1 # 100)
   | _, _ => false
   end)
  ||
  (negb (bool_decide (raw_text deal1 = "")) &&
   negb (bool_decide (raw_text deal2 = "")) &&
   (TemplateDealParser.substr (raw_text deal1) (raw_text deal2) ||
    TemplateDealParser.substr (raw_text deal2) (raw_text deal1))).

(** The outer loop of [_merge_results], one regex deal at a time. *)
Fixpoint merge_loop (template_deals merged regex_deals : list ExtractedDeal)
  : list ExtractedDeal :=
  match regex_deals with
  | [] => merged
  | regex_deal :: regex_deals' =>
      if existsb (fun template_deal => _deals_similar regex_deal template_deal)
           template_deals
      then merge_loop template_deals merged regex_deals'
      else merge_loop template_deals (merged ++ [regex_deal]) regex_deals'
  end.

Definition _merge_results (template_deals regex_deals : list ExtractedDeal)
  : list ExtractedDeal :=
  merge_loop template_deals template_deals regex_deals.

Definition phase_weight (phase : LearningPhase) : Q :=
  match phase with
  | PHASE_1_REGEX => 35 # 100
  | PHASE_2_TEMPLATE => 55 # 100
  | PHASE_3_ML => 75 # 100
  end.

Definition qlen {A} (l : list A) : Q := inject_Z (Z.of_nat (length l)).

(** [ProgressiveLearner._calculate_confidence] *)
Definition _calculate_confidence (deals : list ExtractedDeal)
    (matches : list ProductMatch) (phase : LearningPhase) : Q :=
  match deals with
  | [] => 0
  | _ =>
      let deal_confidence :=
        AccuracyTracker.qsum (map confidence deals) / qlen deals in
      match matches with
      | [] =>
          Qmin ((6 # 10) * deal_confidence + (4 # 10) * phase_weight phase) 1
      | _ =>
          let match_confidence :=
            AccuracyTracker.qsum (map match_score matches) / qlen matches in
          Qmin ((4 # 10) * deal_confidence + (4 # 10) * match_confidence
                + (2 # 10) * phase_weight phase) 1
      end
  end.

Module Codec.

Definition opt_str (o : option string) : json :=
  match o with Some s => JStr s | None => JNull end.

Definition opt_num (o : option Q) : json :=
  match o with Some q => JNum q | None => JNull end.

(** A product dictionary: the keys present, in a fixed order. *)
Definition product_to_json (p : Product) : json :=
  JObj (omap (fun kv : string * option json => (fun v => (kv.1, v)) <$> kv.2)
    [ ("id", JStr <$> p_id p); ("name", JStr <$> p_name p);
      ("category", JStr <$> p_category p);
      ("typical_price", JNum <$> p_typical_price p);
      ("unit", JStr <$> p_unit p); ("brand", JStr <$> p_brand p);
      ("purchase_frequency", JNum <$> p_purchase_frequency p) ]).

Definition get_str (k : string) (fields : list (string * json))
  : option (option string) :=
  match Dict.get k fields with
  | Some (JStr s) => Some (Some s)
  | Some _ => None
  | None => Some None
  end.

Definition get_num (k : string) (fields : list (string * json))
  : option (option Q) :=
  match Dict.get k fields with
  | Some (JNum q) => Some (Some q)
  | Some _ => None
  | None => Some None
  end.

Definition product_of_json (j : json) : option Product :=
  match j with
  | JObj f =>
      i ← get_str "id" f; n ← get_str "name" f; c ← get_str "category" f;
      tp ← get_num "typical_price" f; u ← get_str "unit" f;
      b ← get_str "brand" f; pf ← get_num "purchase_frequency" f;
      Some (mkProduct i n c tp u b pf)
  | _ => None
  end.

(** The part of a deal [_save_state] writes. *)
Definition deal_to_json (d : ExtractedDeal) : json :=
  JObj [ ("raw_text", JStr (raw_text d));
         ("deal_type", JStr (DealType_value (deal_type d)));
         ("product_name", opt_str (product_name d));
         ("price", opt_num (price d));
         ("confidence", JNum (confidence d)) ].

Definition example_to_json (ex : TrainingExample) : json :=
  JObj [ ("deal", deal_to_json (ex_deal ex));
         ("product", product_to_json (ex_product ex));
         ("is_match", JBool (ex_is_match ex)) ].

(** The deal [_load_state] rebuilds from the written part. *)
Definition deal_of_json (j : json) : option ExtractedDeal :=
  match j with
  | JObj f =>
      raw ← (match Dict.get "raw_text" f with
             | Some (JStr s) => Some s
             | _ => None
             end);
      ty ← (match Dict.get "deal_type" f with
            | Some (JStr s) => DealType_of_value s
            | _ => None
            end);
      name ← (match Dict.get "product_name" f with
              | Some (JStr s) => Some (Some s)
              | Some JNull | None => Some None
              | Some _ => None
              end);
      pr ← (match Dict.get "price" f with
            | Some (JNum q) => Some (Some q)
            | Some JNull | None => Some None
            | Some _ => None
            end);
      conf ← (match Dict.get "confidence" f with
              | Some (JNum q) => Some q
              | None => Some (1 # 2)
              | Some _ => None
              end);
      Some (set_confidence conf
              (set_price pr (set_product_name name (new_deal raw ty))))
  | _ => None
  end.

Definition example_of_json (j : json) : option TrainingExample :=
  match j with
  | JObj f =>
      d ← Dict.get "deal" f ≫= deal_of_json;
      p ← Dict.get "product" f ≫= product_of_json;
      m ← (match Dict.get "is_match" f with
           | Some (JBool b) => Some b
           | _ => None
           end);
      Some (mkExample d p m)
  | _ => None
  end.

Definition ads_to_json (ads : gmap string Z) : json :=
  JObj (map (fun kv : string * Z => (kv.1, JNum (inject_Z kv.2)))
          (map_to_list ads)).

Definition ads_of_json (j : json) : option (gmap string Z) :=
  match j with
  | JObj f =>
      list_to_map <$>
        TemplateCodec.all_some
          (map (fun kv : string * json =>
             (fun z => (kv.1, z)) <$> TemplateCodec.as_int kv.2) f)
  | _ => None
  end.

End Codec.

Definition state_path (dir : string) : string := dir +:+ "/learner_state.json".
Definition training_path (dir : string) : string :=
  dir +:+ "/training_data.json".
Definition templates_file (dir : string) : string := dir +:+ "/templates.json".
Definition tracker_file (dir : string) : string :=
  dir +:+ "/accuracy_tracker.json".
Definition model_file (dir : string) : string := dir +:+ "/deal_matcher.pkl".

Section Learner.

Variable Model : Type.
Variable new_forest : Model.
Variable SKLEARN_AVAILABLE : bool.
Variable predict_top : Model -> list (list Q) -> nat -> result (list (nat * Q)).
Variable fit_and_score :
  list (list Q) -> list bool -> nat -> result (Model * (Q * Q * list Q)).
Variable re_compile : string -> option Re.regex.

Record t : Type := mkLearner
  { data_dir : string;
    config : PhaseTransitionConfig;
    catalog : ProductCatalog;
    regex_parser : RegexDealParser.t;
    template_parser : TemplateDealParser.t;
    ml_matcher : DealMatcher.t Model;
    accuracy_tracker : AccuracyTracker.t;
    current_phase : LearningPhase;
    corrections : list CorrectionRecord;
    ads_processed : gmap string Z;
    total_corrections : Z;
    training_data : list TrainingExample;
    pending_corrections_for_retrain : Z }.

Definition set_template_parser (v : TemplateDealParser.t) (self : t) : t :=
  mkLearner (data_dir self) (config self) (catalog self) (regex_parser self) v
    (ml_matcher self) (accuracy_tracker self) (current_phase self)
    (corrections self) (ads_processed self) (total_corrections self)
    (training_data self) (pending_corrections_for_retrain self).

Definition set_ml_matcher (v : DealMatcher.t Model) (self : t) : t :=
  mkLearner (data_dir self) (config self) (catalog self) (regex_parser self)
    (template_parser self) v (accuracy_tracker self) (current_phase self)
    (corrections self) (ads_processed self) (total_corrections self)
    (training_data self) (pending_corrections_for_retrain self).

Definition set_accuracy_tracker (v : AccuracyTracker.t) (self : t) : t :=
  mkLearner (data_dir self) (config self) (catalog self) (regex_parser self)
    (template_parser self) (ml_matcher self) v (current_phase self)
    (corrections self) (ads_processed self) (total_corrections self)
    (training_data self) (pending_corrections_for_retrain self).

Definition set_current_phase (v : LearningPhase) (self : t) : t :=
  mkLearner (data_dir self) (config self) (catalog self) (regex_parser self)
    (template_parser self) (ml_matcher self) (accuracy_tracker self) v
    (corrections self) (ads_processed self) (total_corrections self)
    (training_data self) (pending_corrections_for_retrain self).

Definition set_corrections (v : list CorrectionRecord) (self : t) : t :=
  mkLearner (data_dir self) (config self) (catalog self) (regex_parser self)
    (template_parser self) (ml_matcher self) (accuracy_tracker self)
    (current_phase self) v (ads_processed self) (total_corrections self)
    (training_data self) (pending_corrections_for_retrain self).

Definition set_ads_processed (v : gmap string Z) (self : t) : t :=
  mkLearner (data_dir self) (config self) (catalog self) (regex_parser self)
    (template_parser self) (ml_matcher self) (accuracy_tracker self)
    (current_phase self) (corrections self) v (total_corrections self)
    (training_data self) (pending_corrections_for_retrain self).

Definition set_total_corrections (v : Z) (self : t) : t :=
  mkLearner (data_dir self) (config self) (catalog self) (regex_parser self)
    (template_parser self) (ml_matcher self) (accuracy_tracker self)
    (current_phase self) (corrections self) (ads_processed self) v
    (training_data self) (pending_corrections_for_retrain self).

Definition set_training_data (v : list TrainingExample) (self : t) : t :=
  mkLearner (data_dir self) (config self) (catalog self) (regex_parser self)
    (template_parser self) (ml_matcher self) (accuracy_tracker self)
    (current_phase self) (corrections self) (ads_processed self)
    (total_corrections self) v (pending_corrections_for_retrain self).

Definition set_pending_corrections_for_retrain (v : Z) (self : t) : t :=
  mkLearner (data_dir self) (config self) (catalog self) (regex_parser self)
    (template_parser self) (ml_matcher self) (accuracy_tracker self)
    (current_phase self) (corrections self) (ads_processed self)
    (total_corrections self) (training_data self) v.

Definition set_catalog (v : ProductCatalog) (self : t) : t :=
  mkLearner (data_dir self) (config self) v (regex_parser self)
    (template_parser self) (ml_matcher self) (accuracy_tracker self)
    (current_phase self) (corrections self) (ads_processed self)
    (total_corrections self) (training_data self)
    (pending_corrections_for_retrain self).

(** The attributes [__init__] sets before [_load_state], on a data
    directory whose component files are read from [fs]; [loaded] is the
    classifier [DealMatcher.load_model] finds, if any. *)
Definition init (dir : string) (cfg : PhaseTransitionConfig)
    (cat : ProductCatalog) (defaults : Dict.t StoreTemplate)
    (tracker : AccuracyTracker.t) (loaded : option Model) (fs : disk) : t :=
  mkLearner dir cfg cat (RegexDealParser.new None)
    (TemplateDealParser.new defaults (Some (templates_file dir)) fs)
    (DealMatcher.mkMatcher Model loaded cat (Some (model_file dir)))
    tracker PHASE_1_REGEX [] ∅ 0 [] 0.

(** [sum(self.ads_processed.values())] *)
Definition total_ads (self : t) : Z :=
  map_fold (fun (_ : string) n acc => (n + acc)%Z) 0%Z (ads_processed self).

(** [_retrain_ml_model] *)
Definition _retrain_ml_model (self : t) : RetrainStatus * t :=
  if (length (training_data self) <? 10)%nat
  then (Skipped "insufficient_data", self)
  else
    match DealMatcher.train Model new_forest SKLEARN_AVAILABLE fit_and_score
            (ml_matcher self) (training_data self) with
    | (Ok report, matcher') =>
        (Success report,
         set_pending_corrections_for_retrain 0 (set_ml_matcher matcher' self))
    | (Raise e, matcher') => (Errored e, set_ml_matcher matcher' self)
    end.

(** [_check_phase_advancement] *)
Definition _check_phase_advancement (self : t) : bool * t :=
  let ads := total_ads self in
  match current_phase self with
  | PHASE_1_REGEX =>
      if (min_ads_for_phase_2 (config self) <=? ads)%Z ||
         (min_corrections_for_phase_2 (config self) <=? total_corrections self)%Z
      then (true, set_current_phase PHASE_2_TEMPLATE self)
      else (false, self)
  | PHASE_2_TEMPLATE =>
      let current_accuracy :=
        AccuracyTracker.pa_accuracy
          (AccuracyTracker.get_phase_accuracy (accuracy_tracker self) 2) in
      if ((min_ads_for_phase_3 (config self) <=? ads)%Z ||
          (min_corrections_for_phase_3 (config self)
             <=? total_corrections self)%Z) &&
         Qle_bool (min_accuracy_for_phase_3 (config self)) current_accuracy
      then
        let self1 :=
          match training_data self with
          | [] => self
          | _ => (_retrain_ml_model self).2
          end in
        (true, set_current_phase PHASE_3_ML self1)
      else (false, self)
  | PHASE_3_ML => (false, self)
  end.

(** [process_ad]: the outcome and the learner afterwards.  The learner
    keeps the changes made before an exception. *)
Definition process_ad (self : t) (ad_text : string) (store : option string)
    (coordinates : list Coordinate) : result ProcessingResult * t :=
  let store_lower :=
    lower_str (if str_truthy store then default "" store else "unknown") in
  let count := (default 0%Z (ads_processed self !! store_lower) + 1)%Z in
  let self1 := set_ads_processed (<[ store_lower := count ]> (ads_processed self))
                 self in
  let outcome :=
    regex_results ← RegexDealParser.parse (regex_parser self1) ad_text;
    step2 ← (if (2 <=? phase_value (current_phase self1))%Z
             then
               template_results ←
                 TemplateDealParser.parse re_compile (template_parser self1)
                   ad_text store coordinates;
               match template_results with
               | [] => Ok (regex_results, PHASE_1_REGEX)
               | _ => Ok (_merge_results template_results regex_results,
                          PHASE_2_TEMPLATE)
               end
             else Ok (regex_results, PHASE_1_REGEX));
    step3 ← (if (3 <=? phase_value (current_phase self1))%Z &&
                bool_decide (is_Some (DealMatcher.model Model
                                        (ml_matcher self1))) &&
                negb (bool_decide (products (catalog self1) = []))
             then
               ms ← DealMatcher.match_ Model SKLEARN_AVAILABLE predict_top
                      (ml_matcher self1) step2.1 3;
               Ok (ms, PHASE_3_ML)
             else Ok ([], step2.2));
    Ok (mkResult step2.1 step3.1 step3.2
          (_calculate_confidence step2.1 step3.1 step3.2) store
          (length regex_results) count) in
  match outcome with
  | Ok res => (Ok res, (_check_phase_advancement self1).2)
  | Raise e => (Raise e, self1)
  end.

(** [_save_state] *)
Definition state_json (self : t) : json :=
  JObj [ ("current_phase", JNum (inject_Z (phase_value (current_phase self))));
         ("ads_processed", Codec.ads_to_json (ads_processed self));
         ("total_corrections", JNum (inject_Z (total_corrections self)));
         ("pending_corrections_for_retrain",
          JNum (inject_Z (pending_corrections_for_retrain self)));
         ("training_data_count",
          JNum (inject_Z (Z.of_nat (length (training_data self))))) ].

Definition _save_state (self : t) (fs : disk) : disk :=
  let fs1 := <[ state_path (data_dir self) := state_json self ]> fs in
  match training_data self with
  | [] => fs1
  | _ =>
      <[ training_path (data_dir self) :=
           JArr (map Codec.example_to_json (training_data self)) ]> fs1
  end.

(** [_load_state].  A document whose values have the wrong JSON type is
    outside the model and reported as a [TypeError]. *)
Definition _load_state (self : t) (fs : disk) : result t :=
  self1 ← (match fs !! state_path (data_dir self) with
           | Some (JObj f) =>
               ph ← (match Dict.get "current_phase" f with
                     | Some j =>
                         match TemplateCodec.as_int j ≫= phase_of_value with
                         | Some p => Ok p
                         | None => Raise ValueError
                         end
                     | None => Ok PHASE_1_REGEX
                     end);
               ads ← (match Dict.get "ads_processed" f with
                      | Some j =>
                          match Codec.ads_of_json j with
                          | Some m => Ok m
                          | None => Raise TypeError
                          end
                      | None => Ok ∅
                      end);
               tc ← (match Dict.get "total_corrections" f with
                     | Some j =>
                         match TemplateCodec.as_int j with
                         | Some z => Ok z
                         | None => Raise TypeError
                         end
                     | None => Ok 0%Z
                     end);
               pc ← (match Dict.get "pending_corrections_for_retrain" f with
                     | Some j =>
                         match TemplateCodec.as_int j with
                         | Some z => Ok z
                         | None => Raise TypeError
                         end
                     | None => Ok 0%Z
                     end);
               Ok (set_pending_corrections_for_retrain pc
                     (set_total_corrections tc
                        (set_ads_processed ads (set_current_phase ph self))))
           | Some _ => Raise TypeError
           | None => Ok self
           end);
  match fs !! training_path (data_dir self) with
  | Some (JArr items) =>
      match TemplateCodec.all_some (map Codec.example_of_json items) with
      | Some exs => Ok (set_training_data exs self1)
      | None => Raise TypeError
      end
  | Some _ => Raise TypeError
  | None => Ok self1
  end.

(** [force_phase] *)
Definition force_phase (self : t) (phase : Z) (fs : disk) : t * disk :=
  match phase_of_value phase with
  | Some p =>
      let self' := set_current_phase p self in (self', _save_state self' fs)
  | None => (self, fs)
  end.

Definition corrected_match_of (corrected_deal : ExtractedDeal)
    (corrected_product : option Product) : option ProductMatch :=
  if product_truthy corrected_product
  then
    let p := default empty_product corrected_product in
    Some (mkMatch corrected_deal (default "" (p_id p)) (default "" (p_name p))
            (default "" (p_category p)) 1 [] true)
  else None.

(** [learn_from_correction]; [now] is the reading of the clock and
    [now_iso] its ISO text. *)
Definition learn_from_correction (self : t) (deal_id : string)
    (original_deal corrected_deal : ExtractedDeal) (raw : string)
    (store : string) (original_match : option ProductMatch)
    (corrected_product : option Product) (now : Z) (now_iso : string)
    (fs : disk) : CorrectionResult * t * disk :=
  let correction :=
    mkCorrection deal_id now store original_deal corrected_deal original_match
      (corrected_match_of corrected_deal corrected_product)
      (phase_value (current_phase self)) raw in
  let self1 :=
    set_pending_corrections_for_retrain
      (pending_corrections_for_retrain self + 1)
      (set_total_corrections (total_corrections self + 1)
         (set_corrections (corrections self ++ [correction]) self)) in
  let '(tp, fs1) :=
    TemplateDealParser.learn_from_correction (template_parser self1) store
      original_deal corrected_deal raw now_iso fs in
  let self2 := set_template_parser tp self1 in
  let actions := ["template_updated"] in
  let '(self3, actions) :=
    match original_match with
    | Some om =>
        if product_truthy corrected_product
        then
          (set_training_data
             (training_data self2 ++
              [ mkExample original_deal
                  (mkProduct (Some (pm_product_id om))
                     (Some (pm_product_name om)) (Some (pm_category om))
                     None None None None) false;
                mkExample corrected_deal
                  (default empty_product corrected_product) true ])
             self2,
           actions ++ ["training_data_added"])
        else (self2, actions)
    | None => (self2, actions)
    end in
  let '(tracker, fs2) :=
    AccuracyTracker.record_correction (accuracy_tracker self3) store
      (phase_value (current_phase self3))
      (DealType_value (deal_type original_deal)) fs1 in
  let self4 := set_accuracy_tracker tracker self3 in
  let '(retrain, self5, actions) :=
    if bool_decide (current_phase self4 = PHASE_3_ML) &&
       (ml_retrain_threshold (config self4)
          <=? pending_corrections_for_retrain self4)%Z
    then
      let '(status, s) := _retrain_ml_model self4 in
      (Some status, s, actions ++ ["ml_model_retrained"])
    else (None, self4, actions) in
  let '(advanced, self6) := _check_phase_advancement self5 in
  let res :=
    mkCorrectionResult deal_id (total_corrections self1)
      (phase_value (current_phase self1)) actions retrain advanced
      (if advanced then Some (phase_value (current_phase self6)) else None) in
  (res, self6, _save_state self6 fs2).

(** A call a client makes under normal operation, with its arguments. *)
Inductive call : Type :=
| ProcessAd (ad_text : string) (store : option string)
    (coordinates : list Coordinate)
| LearnFromCorrection (deal_id : string)
    (original_deal corrected_deal : ExtractedDeal) (raw : string)
    (store : string) (original_match : option ProductMatch)
    (corrected_product : option Product) (now : Z) (now_iso : string).

(** The learner and the file system after one call. *)
Definition step (st : t * disk) (c : call) : t * disk :=
  match c with
  | ProcessAd ad_text store coordinates =>
      ((process_ad st.1 ad_text store coordinates).2, st.2)
  | LearnFromCorrection deal_id original_deal corrected_deal raw store
      original_match corrected_product now now_iso =>
      let '(_, self', fs') :=
        learn_from_correction st.1 deal_id original_deal corrected_deal raw
          store original_match corrected_product now now_iso st.2 in
      (self', fs')
  end.

Definition run (st : t * disk) (calls : list call) : t * disk :=
  fold_left step calls st.

(** The call returns to its caller instead of raising. *)
Definition completes (self : t) (c : call) : Prop :=
  match c with
  | ProcessAd ad_text store coordinates =>
      exists res, (process_ad self ad_text store coordinates).1 = Ok res
  | LearnFromCorrection _ _ _ _ _ _ _ _ _ => True
  end.

End Learner.

Arguments data_dir {Model} _.
Arguments config {Model} _.
Arguments catalog {Model} _.
Arguments regex_parser {Model} _.
Arguments template_parser {Model} _.
Arguments ml_matcher {Model} _.
Arguments accuracy_tracker {Model} _.
Arguments current_phase {Model} _.
Arguments corrections {Model} _.
Arguments ads_processed {Model} _.
Arguments total_corrections {Model} _.
Arguments training_data {Model} _.
Arguments pending_corrections_for_retrain {Model} _.
Arguments set_template_parser {Model} _ _.
Arguments set_ml_matcher {Model} _ _.
Arguments set_accuracy_tracker {Model} _ _.
Arguments set_current_phase {Model} _ _.
Arguments set_corrections {Model} _ _.
Arguments set_ads_processed {Model} _ _.
Arguments set_total_corrections {Model} _ _.
Arguments set_training_data {Model} _ _.
Arguments set_pending_corrections_for_retrain {Model} _ _.
Arguments set_catalog {Model} _ _.
Arguments total_ads {Model} _.
Arguments _save_state {Model} _ _.
Arguments _load_state {Model} _ _.
Arguments state_json {Model} _.
Arguments force_phase {Model} _ _ _.

End ProgressiveLearner.

(** ** Auxiliary notions used in the proofs *)

Definition unit_interval (q : Q) : Prop := 0 <= q <= 1.

Module SimilarityAux.
Import Similarity.

(** Every entry of row [i] is at most [max i j] in column [off + j]. *)
Definition row_bounded (i off : nat) (row : list nat) : Prop :=
  forall j x, row !! j = Some x -> (x <= Nat.max i (off + j))%nat.

(** The number of positions marked as matched. *)
Fixpoint trues (l : list bool) : nat :=
  match l with
  | [] => 0
  | b :: l' => (if b then 1 else 0) + trues l'
  end.

(** The number of indices of [idx] marked in [flags]. *)
Fixpoint marked (flags : list bool) (idx : list nat) : nat :=
  match idx with
  | [] => 0
  | i :: idx' =>
      (match flags !! i with Some true => 1 | _ => 0 end) + marked flags idx'
  end.

(** The invariant of the first loop after the iterations below [i]. *)
Definition matched_upto (len1 len2 i : nat) (st : jaro_state) : Prop :=
  length (s1_matches st) = len1 /\
  length (s2_matches st) = len2 /\
  trues (s2_matches st) = matches st /\
  (trues (s1_matches st) <= matches st)%nat /\
  (matches st <= i)%nat.

End SimilarityAux.

(** Sample objects for the worked examples. *)
Definition demo_regex_parser : RegexDealParser.t := RegexDealParser.new None.

Definition demo_template_parser : TemplateDealParser.t :=
  TemplateDealParser.new TemplateDealParser.DEFAULT_TEMPLATES None ∅.


Module LearnerAux.
Import ProgressiveLearner.

(** The sum of the per-store counters. *)
Definition sum_counts (m : gmap string Z) : Z :=
  map_fold (fun (_ : string) n acc => (n + acc)%Z) 0%Z m.

(** The learner [process_ad] hands to the guard check: one more ad counted
    for the store, everything else as before. *)
Definition counted {Model : Type} (self : ProgressiveLearner.t Model)
    (store : option string) : ProgressiveLearner.t Model :=
  let store_lower :=
    lower_str (if str_truthy store then default "" store else "unknown") in
  set_ads_processed
    (<[ store_lower :=
          (default 0%Z (ads_processed self !! store_lower) + 1)%Z ]>
       (ads_processed self)) self.

End LearnerAux.

Module PersistenceAux.
Import ProgressiveLearner.

(** The deal [_load_state] rebuilds from what [_save_state] wrote of it. *)
Definition reloaded_deal (d : ExtractedDeal) : ExtractedDeal :=
  set_confidence (confidence d)
    (set_price (price d)
       (set_product_name (product_name d)
          (new_deal (raw_text d) (deal_type d)))).

Definition reloaded (ex : TrainingExample) : TrainingExample :=
  mkExample (reloaded_deal (ex_deal ex)) (ex_product ex) (ex_is_match ex).

(** The state file holds the state of the learner in memory. *)
Definition state_on_disk {Model : Type} (self : t Model) (fs : disk) : Prop :=
  fs !! state_path (data_dir self) = Some (state_json self).

End PersistenceAux.

Module TemplateAux.

(** The cursor after [n] more characters. *)
Fixpoint advance (n : nat) (c : Re.cursor) : Re.cursor :=
  match n with
  | O => c
  | S n' =>
      match Re.step1 c with
      | Some (_, c') => advance n' c'
      | None => c
      end
  end.

End TemplateAux.

Module MergeAux.

(** The duplicate test in the words of the specification: the same price
    within one cent, or one raw text inside the other, or a word overlap of
    the product names of at least half the smaller name's word count. *)
Definition claimed_duplicate (a b : ExtractedDeal) : bool :=
  match price a, price b with
  | Some p, Some q => Qle_bool (Qabs (p - q)) (1 # 100)
  | _, _ => false
  end
  || TemplateDealParser.substr (raw_text a) (raw_text b)
  || TemplateDealParser.substr (raw_text b) (raw_text a)
  || match product_name a, product_name b with
     | Some m, Some n =>
         let w1 := TemplateDealParser.word_set (Str.lower (chars m)) in
         let w2 := TemplateDealParser.word_set (Str.lower (chars n)) in
         (Nat.min (size w1) (size w2) <=? 2 * size (w1 ∩ w2))%nat
     | _, _ => false
     end.

Definition template_milk : ExtractedDeal :=
  set_metadata {[ "source" := MStr "template" ]}
    (set_price (Some (599 # 100))
       (set_product_name (Some "Organic Milk")
          (new_deal "ORGANIC MILK 5.99 per carton" PRICE))).

(** A regex deal with the same price and no product name. *)
Definition regex_same_price : ExtractedDeal :=
  set_position (0%nat, 5%nat)
    (set_price (Some (599 # 100)) (new_deal "$5.99" PRICE)).

(** A regex deal with the same product name and another price. *)
Definition regex_same_name : ExtractedDeal :=
  set_position (0%nat, 5%nat)
    (set_price (Some (499 # 100))
       (set_product_name (Some "Organic Milk") (new_deal "$4.99" PRICE))).

End MergeAux.

(** A learner on an empty data directory with a classifier library that is
    not installed. *)
Module Demo.

Definition Model : Type := Datatypes.unit.
Definition new_forest : Model := tt.
Definition SKLEARN_AVAILABLE : bool := false.

Definition predict_top (m : Model) (X : list (list Q)) (k : nat)
  : result (list (nat * Q)) := Ok [].

Definition fit_and_score (X : list (list Q)) (y : list bool) (n_val : nat)
  : result (Model * (Q * Q * list Q)) := Raise ValueError.

Definition fresh_learner : ProgressiveLearner.t Model :=
  ProgressiveLearner.init Model "data" default_config empty_catalog
    TemplateDealParser.DEFAULT_TEMPLATES
    (AccuracyTracker.new_empty
       (Some (ProgressiveLearner.tracker_file "data")))
    None ∅.

(** Four ads and nineteen corrections so far, still in Phase 1. *)
Definition learner_4_19 : ProgressiveLearner.t Model :=
  ProgressiveLearner.set_total_corrections 19
    (ProgressiveLearner.set_ads_processed
       (<[ "kroger" := 3%Z ]> {[ "costco" := 1%Z ]}) fresh_learner).

Definition one_more_ad : ProgressiveLearner.call :=
  ProgressiveLearner.ProcessAd "Milk $2.50" (Some "kroger") [].

(** A correction of the price of one deal, with the product it belongs
    to. *)
Definition original_deal : ExtractedDeal :=
  set_price (Some (999 # 100)) (new_deal "Chicken $9.99" PRICE).

Definition corrected_deal : ExtractedDeal :=
  set_price (Some (599 # 100)) (new_deal "Chicken $5.99" PRICE).

Definition original_match : ProductMatch :=
  mkMatch original_deal "p1" "Chicken Thighs" "meat" (1 # 2) [] false.

Definition corrected_product : Product :=
  mkProduct (Some "p2") (Some "Chicken Breast") (Some "meat") None None None
    None.

(** A template parser on an empty data directory. *)
Definition template_parser : TemplateDealParser.t :=
  TemplateDealParser.new TemplateDealParser.DEFAULT_TEMPLATES
    (Some "data/templates.json") ∅.

Definition one_correction : ProgressiveLearner.call :=
  ProgressiveLearner.LearnFromCorrection "deal_1" original_deal corrected_deal
    "Chicken Breast $5.99/lb" "Costco" (Some original_match)
    (Some corrected_product) 0 "2024-01-01T00:00:00".

End Demo.

Module TrainingAux.

(** The status reports that no classifier was trained: the retraining was
    skipped, or it carries the error object of [DealMatcher.train]. *)
Definition reports_failure (status : ProgressiveLearner.RetrainStatus) : Prop :=
  match status with
  | ProgressiveLearner.Skipped _ => True
  | ProgressiveLearner.Success (DealMatcher.TrainError _) => True
  | _ => False
  end.

(** A library that is installed, and a matcher that holds a classifier
    trained earlier. *)
Definition installed : bool := true.

Definition trained_matcher : DealMatcher.t Demo.Model :=
  DealMatcher.mkMatcher Demo.Model (Some Demo.new_forest) empty_catalog None.

End TrainingAux.

Module TrackerAux.
Import AccuracyTracker.

(** A tracker that saw the given results of one store, oldest first. *)
Definition after_results (events : list (bool * Z)) : AccuracyTracker.t :=
  fold_left (fun tracker (ev : bool * Z) =>
    (record_result tracker "Costco" ev.1 1 "price" ev.2 ∅).1)
    events (new_empty None).

Definition day (n : Z) : Z := (n * seconds_per_day)%Z.

(** Three days with accuracies 1, 1/2 and 0. *)
Definition declining : AccuracyTracker.t :=
  after_results
    [ (true, day 0); (true, day 1); (false, day 1); (false, day 2) ].

(** Three days with accuracies 1/2, 1/2 and 501/1000. *)
Definition creeping : AccuracyTracker.t :=
  after_results
    ([ (true, day 0); (false, day 0); (true, day 1); (false, day 1) ]
     ++ replicate 501 (true, day 2) ++ replicate 499 (false, day 2)).

End TrackerAux.

(** ** Auxiliary notions for further properties *)

Module RegexAux.
Import RegexDealParser.

(** Ordered by start position. *)
Definition by_start (a b : ExtractedDeal) : Prop :=
  ((position a).1 <= (position b).1)%nat.

(** The spans of two deals do not overlap. *)
Definition disjoint (a b : ExtractedDeal) : Prop :=
  _positions_overlap (position a) (position b) = false.

End RegexAux.

Module MatcherAux.

(** Scores from best to worst. *)
Definition by_score_desc {A} (a b : A * Q) : Prop := b.2 <= a.2.

(** A product whose purchase frequency, if recorded, is a fraction. *)
Definition frequency_is_fraction (p : Product) : Prop :=
  match p_purchase_frequency p with
  | Some f => 0 <= f <= 1
  | None => True
  end.

(** A small catalog, a matcher without a classifier, and a deal. *)
Definition demo_catalog : ProductCatalog :=
  {| products :=
       [ mkProduct (Some "p1") (Some "Chicken Thighs") (Some "meat")
           (Some (499 # 100)) (Some "lb") (Some "Kirkland") (Some (1 # 2));
         mkProduct (Some "p2") (Some "Chicken Breast") (Some "meat")
           (Some (599 # 100)) (Some "lb") None None;
         mkProduct (Some "p3") (Some "Whole Milk") (Some "dairy")
           (Some (349 # 100)) (Some "ea") None (Some 1) ];
     categories := ["meat"; "dairy"] |}.

Definition demo_matcher : DealMatcher.t Demo.Model :=
  DealMatcher.mkMatcher Demo.Model None demo_catalog None.

Definition demo_deal : ExtractedDeal :=
  set_product_name (Some "Chicken Breast")
    (set_unit (Some "lb")
       (set_price (Some (599 # 100)) (new_deal "Chicken Breast $5.99/lb"
                                         UNIT_PRICE))).

End MatcherAux.

(** ** The reports of the accuracy tracker *)

Module AccuracyReports.
Import AccuracyTracker.

(** The dictionary [get_global_accuracy] returns. *)
Record GlobalReport : Type := mkGlobalReport
  { gr_total_deals : Z;
    gr_accuracy : Q;
    gr_correction_rate : Q;
    gr_correct_matches : Z;
    gr_incorrect_matches : Z;
    gr_corrections_received : Z }.

(** [AccuracyTracker.get_global_accuracy] *)
Definition get_global_accuracy (self : t) : GlobalReport :=
  let g := global_metrics self in
  mkGlobalReport (total_deals g) (metrics_accuracy g)
    (metrics_correction_rate g) (correct_matches g) (incorrect_matches g)
    (corrections_received g).

(** The dictionary [get_store_accuracy] returns; the keys a store without
    data lacks are [None], and so is the message of a store with data. *)
Record StoreReport : Type := mkStoreReport
  { sr_store : string;
    sr_total_deals : Z;
    sr_accuracy : Q;
    sr_correction_rate : option Q;
    sr_by_phase : option (gmap Z (Q * Z));
    sr_by_deal_type : option (gmap string (Q * Z));
    sr_message : option string }.

(** One entry of the two break-downs: accuracy and number of deals. *)
Definition breakdown (m : AccuracyMetrics) : Q * Z :=
  (metrics_accuracy m, total_deals m).

(** [AccuracyTracker.get_store_accuracy] *)
Definition get_store_accuracy (self : t) (store : string) : StoreReport :=
  match stores self !! lower_str store with
  | None =>
      mkStoreReport store 0 0 None None None (Some "No data for this store")
  | Some store_data =>
      mkStoreReport store (total_deals (overall store_data))
        (metrics_accuracy (overall store_data))
        (Some (metrics_correction_rate (overall store_data)))
        (Some (breakdown <$> by_phase store_data))
        (Some (breakdown <$> by_deal_type store_data))
        None
  end.

(** A call a client makes on the tracker, with its arguments. *)
Inductive event : Type :=
| RecordResult (store : string) (is_correct : bool) (phase : Z)
    (deal_type : string) (timestamp : Z)
| RecordCorrection (store : string) (phase : Z) (deal_type : string).

(** The tracker and the file system after one call. *)
Definition step (st : t * disk) (e : event) : t * disk :=
  match e with
  | RecordResult store is_correct phase deal_type timestamp =>
      record_result st.1 store is_correct phase deal_type timestamp st.2
  | RecordCorrection store phase deal_type =>
      record_correction st.1 store phase deal_type st.2
  end.

Definition run (st : t * disk) (events : list event) : t * disk :=
  fold_left step events st.

End AccuracyReports.

Module TrackerCounts.
Import AccuracyTracker AccuracyReports.

(** The number of events that satisfy a test. *)
Definition count (p : event -> bool) (events : list event) : Z :=
  Z.of_nat (length (List.filter p events)).

Definition is_result (e : event) : bool :=
  match e with RecordResult _ _ _ _ _ => true | _ => false end.

Definition is_correct (e : event) : bool :=
  match e with RecordResult _ c _ _ _ => c | _ => false end.

Definition is_incorrect (e : event) : bool :=
  match e with RecordResult _ c _ _ _ => negb c | _ => false end.

Definition is_correction (e : event) : bool :=
  match e with RecordCorrection _ _ _ => true | _ => false end.

(** The event names the store, up to case. *)
Definition names (store_lower : string) (e : event) : bool :=
  match e with
  | RecordResult s _ _ _ _ | RecordCorrection s _ _ =>
      bool_decide (lower_str s = store_lower)
  end.

Definition in_phase (phase : Z) (e : event) : bool :=
  match e with
  | RecordResult _ _ p _ _ => bool_decide (p = phase)
  | _ => false
  end.

(** The counters of a set of events. *)
Definition tally (p : event -> bool) (events : list event) : AccuracyMetrics :=
  mkMetrics (count (fun e => p e && is_result e) events)
    (count (fun e => p e && is_correct e) events)
    (count (fun e => p e && is_incorrect e) events)
    (count (fun e => p e && is_correction e) events).

(** The contribution of one store to [get_phase_accuracy]. *)
Definition phase_share (phase : Z) (sa : StoreAccuracy) : Z * Z :=
  match by_phase sa !! phase with
  | Some m => (total_deals m, correct_matches m)
  | None => (0%Z, 0%Z)
  end.

(** The two sums of [get_phase_accuracy]. *)
Definition phase_sums (phase : Z) (stores : gmap string StoreAccuracy)
  : Z * Z :=
  map_fold (fun (_ : string) sa (acc : Z * Z) =>
    match by_phase sa !! phase with
    | Some m => (acc.1 + total_deals m, acc.2 + correct_matches m)%Z
    | None => acc
    end) (0%Z, 0%Z) stores.

(** The counters of the tracker are the tallies of the events. *)
Definition tallied (self : t) (events : list event) : Prop :=
  global_metrics self = tally (fun _ => true) events /\
  forall name,
    match stores self !! name with
    | Some sa => overall sa = tally (names name) events
    | None => count (names name) events = 0%Z
    end.

End TrackerCounts.

Module TrendAux.
Import AccuracyTracker TrackerAux.

(** A tracker with three results of one store, all on day 5. *)
Definition one_day_tracker : AccuracyTracker.t :=
  mkTracker None
    {[ "costco" :=
         mkStoreAccuracy "costco" (mkMetrics 3 2 1 0) ∅ ∅
           [ mkEntry (Some (day 5)) true 1 "price";
             mkEntry (Some (day 5 + 60)%Z) false 1 "price";
             mkEntry (Some (day 5 + 3600)%Z) true 1 "price" ] ]}
    (mkMetrics 3 2 1 0).

End TrendAux.

(** ** Reading the tracker file back *)

Module TrackerCodec.
Import AccuracyTracker TemplateCodec.

(** A document of another shape than the one [_save] writes is outside the
    model; reading it is reported as a [TypeError]. *)
Definition need {A} (o : option A) : result A :=
  match o with
  | Some a => Ok a
  | None => Raise TypeError
  end.

(** [d.get(key, 0)] on a dictionary of counters. *)
Definition get_count (k : string) (f : list (string * json)) : option Z :=
  match Dict.get k f with
  | Some j => as_int j
  | None => Some 0%Z
  end.

(** [d.get(key, {})] where a dictionary is expected. *)
Definition get_obj (k : string) (f : list (string * json))
  : option (list (string * json)) :=
  match Dict.get k f with
  | Some (JObj g) => Some g
  | Some _ => None
  | None => Some []
  end.

(** The three constructor calls of [_load] on a dictionary of counters:
    for the global and overall metrics, for a phase and for a deal type. *)
Definition metrics_of_json (f : list (string * json))
  : option AccuracyMetrics :=
  t ← get_count "total_deals" f;
  c ← get_count "correct_matches" f;
  i ← get_count "incorrect_matches" f;
  r ← get_count "corrections_received" f;
  Some (mkMetrics t c i r).

Definition phase_metrics_of_json (j : json) : option AccuracyMetrics :=
  match j with
  | JObj f =>
      t ← get_count "total_deals" f;
      c ← get_count "correct_matches" f;
      r ← get_count "corrections_received" f;
      Some (mkMetrics t c 0 r)
  | _ => None
  end.

Definition type_metrics_of_json (j : json) : option AccuracyMetrics :=
  match j with
  | JObj f =>
      t ← get_count "total_deals" f;
      c ← get_count "correct_matches" f;
      Some (mkMetrics t c 0 0)
  | _ => None
  end.

(** One entry of a history, as [add_result] wrote it. *)
Definition entry_of_json (j : json) : option HistoryEntry :=
  match j with
  | JObj f =>
      ts ← (match Dict.get "timestamp" f with
            | Some JNull => Some None
            | Some j => Some <$> as_int j
            | None => None
            end);
      c ← Dict.get "is_correct" f ≫= as_bool;
      p ← Dict.get "phase" f ≫= as_int;
      ty ← Dict.get "deal_type" f ≫= as_str;
      Some (mkEntry ts c p ty)
  | _ => None
  end.

Definition digits_of (s : string) : option Z :=
  match chars s with
  | [] => None
  | ds => Num.digits_val 0 ds
  end.

(** [int(s)] on an optional minus sign and decimal digits; anything else is
    a [ValueError]. *)
Definition int_of_text (s : string) : option Z :=
  match s with
  | String "-" rest => Z.opp <$> digits_of rest
  | _ => digits_of s
  end.

(** The loop over [by_phase]. *)
Fixpoint load_phases (acc : gmap Z AccuracyMetrics)
    (items : list (string * json)) : result (gmap Z AccuracyMetrics) :=
  match items with
  | [] => Ok acc
  | (phase_str, metrics) :: items' =>
      match int_of_text phase_str with
      | Some phase =>
          m ← need (phase_metrics_of_json metrics);
          load_phases (<[ phase := m ]> acc) items'
      | None => Raise ValueError
      end
  end.

(** The loop over [by_deal_type]. *)
Fixpoint load_types (acc : gmap string AccuracyMetrics)
    (items : list (string * json)) : result (gmap string AccuracyMetrics) :=
  match items with
  | [] => Ok acc
  | (dtype, metrics) :: items' =>
      m ← need (type_metrics_of_json metrics);
      load_types (<[ dtype := m ]> acc) items'
  end.

(** The [StoreAccuracy] built for one entry of ["stores"]. *)
Definition store_of_json (store_name : string) (j : json)
  : result StoreAccuracy :=
  match j with
  | JObj store_data =>
      ov ← need (get_obj "overall" store_data ≫= metrics_of_json);
      hist ← need (match Dict.get "history" store_data with
                   | Some (JArr l) => all_some (map entry_of_json l)
                   | Some _ => None
                   | None => Some []
                   end);
      phases ← need (get_obj "by_phase" store_data);
      by_phase ← load_phases ∅ phases;
      types ← need (get_obj "by_deal_type" store_data);
      by_deal_type ← load_types ∅ types;
      Ok (mkStoreAccuracy store_name ov by_phase by_deal_type hist)
  | _ => Raise TypeError
  end.

(** The loop over ["stores"]. *)
Fixpoint load_stores (acc : gmap string StoreAccuracy)
    (items : list (string * json)) : result (gmap string StoreAccuracy) :=
  match items with
  | [] => Ok acc
  | (store_name, store_data) :: items' =>
      sa ← store_of_json store_name store_data;
      load_stores (<[ store_name := sa ]> acc) items'
  end.

(** [AccuracyTracker._load].  A file that cannot be opened leaves the
    tracker as it is (the [IOError] is caught and a warning printed). *)
Definition _load (self : t) (fs : disk) : result t :=
  match storage_path self ≫= (fun path => fs !! path) with
  | Some (JObj data) =>
      gm ← need (get_obj "global_metrics" data ≫= metrics_of_json);
      items ← need (get_obj "stores" data);
      stores' ← load_stores (stores self) items;
      Ok (mkTracker (storage_path self) stores' gm)
  | Some _ => Raise TypeError
  | None => Ok self
  end.

(** [AccuracyTracker(storage_path)] *)
Definition new (path : option string) (fs : disk) : result t :=
  match path with
  | Some p =>
      if bool_decide (is_Some (fs !! p)) then _load (new_empty path) fs
      else Ok (new_empty path)
  | None => Ok (new_empty None)
  end.

(** What [_save] keeps of the counters of a phase and of a deal type. *)
Definition kept_of_phase (m : AccuracyMetrics) : AccuracyMetrics :=
  mkMetrics (total_deals m) (correct_matches m) 0 (corrections_received m).

Definition kept_of_type (m : AccuracyMetrics) : AccuracyMetrics :=
  mkMetrics (total_deals m) (correct_matches m) 0 0.

(** The store a new tracker holds under [name] after reading what [_save]
    wrote of [sa]. *)
Definition reloaded_store (name : string) (sa : StoreAccuracy)
  : StoreAccuracy :=
  mkStoreAccuracy name (overall sa) (kept_of_phase <$> by_phase sa)
    (kept_of_type <$> by_deal_type sa) (last_n 1000 (history sa)).

End TrackerCodec.

(** ** Reports and bookkeeping of the learner *)

Module LearnerReports.
Import ProgressiveLearner.

(** The dictionary [should_advance_phase] returns.  ['next_phase'] is always
    present (its value is [None] in Phase 3); the other optional fields are
    keys the dictionary has in some phases only. *)
Record AdvanceReport : Type := mkAdvanceReport
  { ar_current_phase : Z;
    ar_next_phase : option Z;
    ar_ads_needed : option Z;
    ar_corrections_needed : option Z;
    ar_current_accuracy : option Q;
    ar_accuracy_needed : option Q;
    ar_ready : option bool;
    ar_message : option string }.

(** [ProgressiveLearner.should_advance_phase] *)
Definition should_advance_phase {Model : Type} (self : t Model)
  : AdvanceReport :=
  let total_ads := total_ads self in
  match current_phase self with
  | PHASE_1_REGEX =>
      mkAdvanceReport 1 (Some 2%Z)
        (Some (Z.max 0 (min_ads_for_phase_2 (config self) - total_ads)))
        (Some (Z.max 0 (min_corrections_for_phase_2 (config self)
                        - total_corrections self)))
        None None
        (Some ((min_ads_for_phase_2 (config self) <=? total_ads)%Z ||
               (min_corrections_for_phase_2 (config self)
                  <=? total_corrections self)%Z))
        None
  | PHASE_2_TEMPLATE =>
      let current_accuracy :=
        AccuracyTracker.pa_accuracy
          (AccuracyTracker.get_phase_accuracy (accuracy_tracker self) 2) in
      mkAdvanceReport 2 (Some 3%Z)
        (Some (Z.max 0 (min_ads_for_phase_3 (config self) - total_ads)))
        (Some (Z.max 0 (min_corrections_for_phase_3 (config self)
                        - total_corrections self)))
        (Some current_accuracy)
        (Some (min_accuracy_for_phase_3 (config self)))
        (Some (((min_ads_for_phase_3 (config self) <=? total_ads)%Z ||
                (min_corrections_for_phase_3 (config self)
                   <=? total_corrections self)%Z) &&
               Qle_bool (min_accuracy_for_phase_3 (config self))
                 current_accuracy))
        None
  | PHASE_3_ML =>
      mkAdvanceReport 3 None None None None None None
        (Some "Already at maximum phase")
  end.

(** [ProgressiveLearner.record_result]; [now] is the reading of the clock
    the tracker stamps the result with. *)
Definition record_result {Model : Type} (self : t Model) (store : string)
    (deal : ExtractedDeal) (is_correct : bool) (match_ : option ProductMatch)
    (now : Z) (fs : disk) : t Model * disk :=
  let '(tracker, fs') :=
    AccuracyTracker.record_result (accuracy_tracker self) store is_correct
      (phase_value (current_phase self)) (DealType_value (deal_type deal))
      now fs in
  (set_accuracy_tracker tracker self, fs').

(** The key of [ads_processed] a [process_ad] call counts under. *)
Definition ad_key (store : option string) : string :=
  lower_str (if str_truthy store then default "" store else "unknown").

Definition is_ad (c : call) : bool :=
  match c with ProcessAd _ _ _ => true | _ => false end.

Definition is_ad_of (key : string) (c : call) : bool :=
  match c with
  | ProcessAd _ store _ => bool_decide (ad_key store = key)
  | _ => false
  end.

Definition is_learn (c : call) : bool :=
  match c with LearnFromCorrection _ _ _ _ _ _ _ _ _ => true | _ => false end.

(** The number of calls of a kind. *)
Definition calls_of (p : call -> bool) (calls : list call) : Z :=
  Z.of_nat (length (List.filter p calls)).

(** What two learners share when they differ by the phase, the matcher, the
    template parser, the training data and the pending counter at most. *)
Definition same_books {Model : Type} (a b : t Model) : Prop :=
  ads_processed a = ads_processed b /\
  total_corrections a = total_corrections b /\
  corrections a = corrections b /\
  accuracy_tracker a = accuracy_tracker b /\
  config a = config b /\
  data_dir a = data_dir b.

(** The accuracy the tracker reports for Phase 2, which guards Phase 3. *)
Definition phase_2_accuracy {Model : Type} (self : t Model) : Q :=
  AccuracyTracker.pa_accuracy
    (AccuracyTracker.get_phase_accuracy (accuracy_tracker self) 2).

End LearnerReports.

Module LearnerDemo.
Import ProgressiveLearner.

(** A Phase-2 learner with fourteen ads, three of four Phase-2 results
    correct. *)
Definition graded_tracker : AccuracyTracker.t :=
  fold_left (fun tracker (ok : bool) =>
    (AccuracyTracker.record_result tracker "Kroger" ok 2 "price" 0 ∅).1)
    [true; true; false; true] (AccuracyTracker.new_empty None).

Definition learner_phase_2 : ProgressiveLearner.t Demo.Model :=
  set_current_phase PHASE_2_TEMPLATE
    (set_accuracy_tracker graded_tracker
       (set_ads_processed {[ "kroger" := 14%Z ]} Demo.fresh_learner)).

End LearnerDemo.
(** * Properties *)

(** ** Confidence scores *)

Lemma Qmin_unit (c : Q) : 0 <= c -> unit_interval (Qmin c 1).
Proof.
  intros Hc. split.
  - apply Q.min_glb; [exact Hc | discriminate].
  - apply Q.le_min_r.
Qed.

Lemma regex_deal_confidence_unit (d : ExtractedDeal) :
  unit_interval (RegexDealParser.deal_confidence d).
Proof.
  unfold RegexDealParser.deal_confidence.
  apply Qmin_unit.
  repeat match goal with
         | |- context [if ?b then _ else _] => destruct b
         end; lra.
Qed.

Lemma template_deal_confidence_unit (d : ExtractedDeal)
    (tpl : option StoreTemplate) :
  unit_interval (TemplateDealParser.deal_confidence d tpl).
Proof.
  unfold TemplateDealParser.deal_confidence.
  apply Qmin_unit.
  destruct tpl as [t|].
  - destruct (Num.Qltb 0 (accuracy t)) eqn:Hacc.
    + assert (0 < accuracy t) as Hpos.
      { unfold Num.Qltb in Hacc. apply negb_true_iff in Hacc.
        apply Qnot_le_lt. intros Hle.
        apply Qle_bool_iff in Hle. congruence. }
      repeat match goal with
             | |- context [if ?b then _ else _] => destruct b
             end; lra.
    + repeat match goal with
             | |- context [if ?b then _ else _] => destruct b
             end; lra.
  - repeat match goal with
           | |- context [if ?b then _ else _] => destruct b
           end; lra.
Qed.

Lemma regex_calculate_confidence_unit (deals : list ExtractedDeal) :
  Forall (fun d => unit_interval (confidence d))
    (RegexDealParser._calculate_confidence deals).
Proof.
  unfold RegexDealParser._calculate_confidence.
  apply Forall_map, Forall_forall. intros d _. simpl.
  apply regex_deal_confidence_unit.
Qed.

Lemma template_calculate_confidence_unit (deals : list ExtractedDeal)
    (tpl : option StoreTemplate) :
  Forall (fun d => unit_interval (confidence d))
    (TemplateDealParser._calculate_confidence deals tpl).
Proof.
  unfold TemplateDealParser._calculate_confidence.
  apply Forall_map, Forall_forall. intros d _. simpl.
  apply template_deal_confidence_unit.
Qed.

(** Inversion of a monadic step. *)
Lemma bind_ok {A B} (m : result A) (f : A -> result B) (b : B) :
  m ≫= f = Ok b -> exists a, m = Ok a /\ f a = Ok b.
Proof. destruct m as [a|e]; simpl; [eauto | discriminate]. Qed.

Lemma regex_parse_shape (self : RegexDealParser.t) (txt : string)
    (deals : list ExtractedDeal) :
  RegexDealParser.parse self txt = Ok deals ->
  exists ds, deals = RegexDealParser._calculate_confidence ds.
Proof.
  unfold RegexDealParser.parse, RegexDealParser.parse_chars. intros H.
  repeat (apply bind_ok in H; destruct H as (? & _ & H)).
  injection H as <-. eauto.
Qed.

Lemma template_parse_shape (re_compile : string -> option Re.regex)
    (self : TemplateDealParser.t) (txt : string) (store : option string)
    (coordinates : list Coordinate) (deals : list ExtractedDeal) :
  TemplateDealParser.parse re_compile self txt store coordinates = Ok deals ->
  exists ds tpl, deals = TemplateDealParser._calculate_confidence ds tpl.
Proof.
  unfold TemplateDealParser.parse. intros H.
  repeat (apply bind_ok in H; destruct H as (? & _ & H)).
  injection H as <-. eauto.
Qed.

(** C2: every deal returned by [RegexDealParser.parse] and by
    [TemplateDealParser.parse] carries a confidence in the closed interval
    from 0 to 1, whatever the input text, the store hint, the templates and
    the OCR coordinates. *)
Theorem parse_confidence_in_unit_interval
    (re_compile : string -> option Re.regex)
    (rp : RegexDealParser.t) (tp : TemplateDealParser.t) (txt : string)
    (store : option string) (coordinates : list Coordinate) :
  (forall deals,
     RegexDealParser.parse rp txt = Ok deals ->
     Forall (fun d => 0 <= confidence d <= 1) deals) /\
  (forall deals,
     TemplateDealParser.parse re_compile tp txt store coordinates = Ok deals ->
     Forall (fun d => 0 <= confidence d <= 1) deals).
Proof.
  split; intros deals H.
  - apply regex_parse_shape in H as [ds ->].
    apply regex_calculate_confidence_unit.
  - apply template_parse_shape in H as (ds & tpl & ->).
    apply template_calculate_confidence_unit.
Qed.

Lemma parse_confidence_in_unit_interval_witness :
  exists ds1 ds2,
    RegexDealParser.parse demo_regex_parser "Chicken Breast $5.99/lb" = Ok ds1
    /\ TemplateDealParser.parse TemplateDealParser.compile_default
         demo_template_parser "KIRKLAND CHICKEN $12.99 after savings"
         (Some "costco") [] = Ok ds2
    /\ length ds1 = 1%nat /\ length ds2 = 2%nat
    /\ Forall (fun d => 0 <= confidence d <= 1) ds1
    /\ Forall (fun d => 0 <= confidence d <= 1) ds2.
Proof.
  let v := eval vm_compute in
    (RegexDealParser.parse demo_regex_parser "Chicken Breast $5.99/lb") in
  match v with Ok ?l => exists l end.
  let v := eval vm_compute in
    (TemplateDealParser.parse TemplateDealParser.compile_default
       demo_template_parser "KIRKLAND CHICKEN $12.99 after savings"
       (Some "costco") []) in
  match v with Ok ?l => exists l end.
  pose proof (parse_confidence_in_unit_interval
                TemplateDealParser.compile_default demo_regex_parser
                demo_template_parser "Chicken Breast $5.99/lb"
                (Some "costco") []) as [Hr _].
  pose proof (parse_confidence_in_unit_interval
                TemplateDealParser.compile_default demo_regex_parser
                demo_template_parser "KIRKLAND CHICKEN $12.99 after savings"
                (Some "costco") []) as [_ Ht].
  split; [vm_compute; reflexivity |].
  split; [vm_compute; reflexivity |].
  split; [reflexivity |].
  split; [reflexivity |].
  split.
  - apply Hr. vm_compute. reflexivity.
  - apply Ht. vm_compute. reflexivity.
Defined.

(** ** The regex parser on two concrete texts *)

(** C1: the text "0 for $5.00" matches the multi-buy pattern with quantity
    zero, and the division of the total by the quantity raises
    [ZeroDivisionError] out of [parse]. *)
Theorem parse_zero_quantity_raises :
  RegexDealParser.parse (RegexDealParser.new None) "0 for $5.00"
  = Raise ZeroDivisionError.
Proof. vm_compute. reflexivity. Qed.

(** C6: on the text "3 for $6.00" [parse] returns a single deal, and it is
    the plain price "$6.00" with the word "for" as product name, not the
    multi-buy deal: the price candidate out-scores the multi-buy candidate
    in the overlap deduplication. *)
Theorem three_for_six_parses_as_plain_price :
  exists d,
    RegexDealParser.parse (RegexDealParser.new None) "3 for $6.00" = Ok [d]
    /\ raw_text d = "$6.00"
    /\ deal_type d = PRICE
    /\ price d = Some 6
    /\ quantity d = None
    /\ product_name d = Some "For".
Proof.
  let v := eval vm_compute in
    (RegexDealParser.parse (RegexDealParser.new None) "3 for $6.00") in
  match v with Ok [?d] => exists d end.
  repeat split; vm_compute; reflexivity.
Qed.

(** ** String similarity *)

Module SimilarityFacts.
Import Similarity SimilarityAux.

Lemma fill_row_length (c1 : ascii) (s2 : list ascii) :
  forall above left,
    length above = S (length s2) ->
    length (fill_row c1 s2 above left) = length s2.
Proof.
  induction s2 as [|c2 s2 IH]; intros above left Hlen; simpl.
  - destruct above; reflexivity.
  - destruct above as [|diag [|up above']]; simpl in Hlen; try lia.
    simpl. f_equal. apply IH. simpl. lia.
Qed.

Lemma fill_row_bounded (c1 : ascii) (s2 : list ascii) (i : nat) :
  forall above left off,
    length above = S (length s2) ->
    row_bounded i off above ->
    (left <= Nat.max (S i) off)%nat ->
    row_bounded (S i) (S off) (fill_row c1 s2 above left).
Proof.
  induction s2 as [|c2 s2 IH]; intros above left off Hlen Hab Hleft; simpl.
  - destruct above; intros j x Hj; discriminate.
  - destruct above as [|diag [|up above']]; simpl in Hlen; try lia.
    assert (diag <= Nat.max i off)%nat as Hdiag.
    { specialize (Hab 0%nat diag eq_refl). rewrite Nat.add_0_r in Hab. exact Hab. }
    set (v := Nat.min (up + 1)
                (Nat.min (left + 1)
                   (diag + (if Chars.eqb c1 c2 then 0 else 1)))%nat).
    assert (v <= Nat.max (S i) (S off))%nat as Hv.
    { subst v. destruct (Chars.eqb c1 c2); lia. }
    intros [|j] x Hj; simpl in Hj.
    + injection Hj as <-. fold v. rewrite Nat.add_0_r. exact Hv.
    + fold v in Hj.
      assert (row_bounded (S i) (S (S off)) (fill_row c1 s2 (up :: above') v))
        as Hrec.
      { apply IH.
        - simpl. lia.
        - intros k y Hk. specialize (Hab (S k) y Hk).
          replace (S off + k)%nat with (off + S k)%nat by lia. exact Hab.
        - exact Hv. }
      specialize (Hrec j x Hj). lia.
Qed.

Lemma next_row_bounded (c1 : ascii) (s2 : list ascii) (i : nat)
    (above : list nat) :
  length above = S (length s2) ->
  row_bounded i 0 above ->
  length (next_row (S i) c1 s2 above) = S (length s2) /\
  row_bounded (S i) 0 (next_row (S i) c1 s2 above).
Proof.
  intros Hlen Hab. unfold next_row. split.
  - simpl. f_equal. apply fill_row_length. exact Hlen.
  - intros [|j] x Hj; simpl in Hj.
    + injection Hj as <-. lia.
    + pose proof (fill_row_bounded c1 s2 i above (S i) 0%nat Hlen Hab) as H.
      specialize (H ltac:(lia) j x Hj). simpl in *. lia.
Qed.

Lemma rows_from_bounded (s1 s2 : list ascii) :
  forall i above,
    length above = S (length s2) ->
    row_bounded i 0 above ->
    length (rows_from i s1 s2 above) = S (length s2) /\
    row_bounded (i + length s1) 0 (rows_from i s1 s2 above).
Proof.
  induction s1 as [|c1 s1 IH]; intros i above Hlen Hab; simpl.
  - rewrite Nat.add_0_r. auto.
  - destruct (next_row_bounded c1 s2 i above Hlen Hab) as [Hl Hb].
    destruct (IH (S i) _ Hl Hb) as [Hl' Hb'].
    split; [exact Hl' |].
    replace (i + S (length s1))%nat with (S i + length s1)%nat by lia.
    exact Hb'.
Qed.

Lemma first_row_bounded (n : nat) : row_bounded 0 0 (seq 0 n).
Proof.
  intros j x Hj. apply lookup_seq in Hj as [-> _]. lia.
Qed.

(** The edit distance never exceeds the longer length. *)
Lemma levenshtein_le_max (s1 s2 : list ascii) :
  (levenshtein s1 s2 <= Nat.max (length s1) (length s2))%nat.
Proof.
  unfold levenshtein.
  destruct (rows_from_bounded s1 s2 0 (seq 0 (S (length s2))))
    as [Hlen Hb].
  - apply length_seq.
  - apply first_row_bounded.
  - destruct (rows_from 0 s1 s2 (seq 0 (S (length s2))) !! length s2)
      as [x|] eqn:Hx; simpl; [| lia].
    specialize (Hb _ _ Hx). simpl in Hb. exact Hb.
Qed.

Lemma qnat_nonneg (n : nat) : 0 <= qnat n.
Proof.
  unfold qnat. change 0 with (inject_Z 0). rewrite <- Zle_Qle. lia.
Qed.

Lemma qnat_pos (n : nat) : (0 < n)%nat -> 0 < qnat n.
Proof.
  intros H. unfold qnat. change 0 with (inject_Z 0). rewrite <- Zlt_Qlt. lia.
Qed.

Lemma qnat_le (a b : nat) : (a <= b)%nat -> qnat a <= qnat b.
Proof. intros H. unfold qnat. rewrite <- Zle_Qle. lia. Qed.

(** A quotient of a part by the whole lies between 0 and 1. *)
Lemma part_of_whole (a b : Q) : 0 <= a -> a <= b -> 0 < b -> 0 <= a / b <= 1.
Proof.
  intros Ha Hab Hb. split.
  - apply Qle_shift_div_l; [exact Hb | lra].
  - apply Qle_shift_div_r; [exact Hb | lra].
Qed.

Lemma levenshtein_similarity_unit (s1 s2 : list ascii) :
  0 <= _levenshtein_similarity s1 s2 <= 1.
Proof.
  unfold _levenshtein_similarity.
  destruct s1 as [|a s1]; [lra |].
  destruct s2 as [|b s2]; [lra |].
  pose proof (levenshtein_le_max (a :: s1) (b :: s2)) as Hle.
  set (dist := levenshtein (a :: s1) (b :: s2)) in *.
  set (mx := Nat.max (length (a :: s1)) (length (b :: s2))) in *.
  assert (0 < mx)%nat as Hmx by (subst mx; simpl; lia).
  pose proof (part_of_whole (qnat dist) (qnat mx) (qnat_nonneg _)
                (qnat_le _ _ Hle) (qnat_pos _ Hmx)) as Hr.
  unfold ratio. fold (qnat dist) (qnat mx). lra.
Qed.


Lemma trues_le_length (l : list bool) : (trues l <= length l)%nat.
Proof. induction l as [|[] l IH]; simpl; lia. Qed.

Lemma trues_replicate_false (n : nat) : trues (replicate n false) = 0%nat.
Proof. induction n; simpl; auto. Qed.

Lemma trues_insert_false (l : list bool) :
  forall j, l !! j = Some false -> trues (<[ j := true ]> l) = S (trues l).
Proof.
  induction l as [|b l IH]; intros [|j] Hj; simpl in *; try discriminate.
  - injection Hj as ->. reflexivity.
  - rewrite (IH j Hj). lia.
Qed.

Lemma trues_insert_le (l : list bool) :
  forall i, (trues (<[ i := true ]> l) <= S (trues l))%nat.
Proof.
  induction l as [|b l IH]; intros [|i]; simpl; try lia.
  specialize (IH i). destruct b; lia.
Qed.

Lemma find_partner_free (c : ascii) (s2 : list ascii) (flags : list bool)
    (n : nat) :
  forall j k, find_partner c s2 flags j n = Some k -> flags !! k = Some false.
Proof.
  induction n as [|n IH]; intros j k H; simpl in H; [discriminate |].
  destruct (flags !! j) as [[]|] eqn:Hf; try (eapply IH; eassumption).
  destruct (s2 !! j) as [c2|]; [| eapply IH; eassumption].
  destruct (Chars.eqb c c2); [| eapply IH; eassumption].
  injection H as <-. exact Hf.
Qed.

Lemma match_step_invariant (s1 s2 : list ascii) (md : Z) (len1 len2 i : nat)
    (st : jaro_state) :
  matched_upto len1 len2 i st ->
  matched_upto len1 len2 (S i) (match_step s1 s2 md st i).
Proof.
  intros (H1 & H2 & H3 & H4 & H5). unfold match_step.
  destruct (s1 !! i) as [c|]; [| repeat split; auto; lia].
  destruct (find_partner _ _ _ _ _) as [j|] eqn:Hf;
    [| repeat split; auto; lia].
  apply find_partner_free in Hf.
  repeat split; simpl.
  - rewrite length_insert. exact H1.
  - rewrite length_insert. exact H2.
  - rewrite (trues_insert_false _ _ Hf). lia.
  - pose proof (trues_insert_le (s1_matches st) i). lia.
  - lia.
Qed.

Lemma match_loop_invariant (s1 s2 : list ascii) (md : Z) (len1 len2 : nat) :
  forall n a st,
    matched_upto len1 len2 a st ->
    matched_upto len1 len2 (a + n)
      (fold_left (match_step s1 s2 md) (seq a n) st).
Proof.
  induction n as [|n IH]; intros a st Hst; simpl.
  - rewrite Nat.add_0_r. exact Hst.
  - replace (a + S n)%nat with (S a + n)%nat by lia.
    apply IH. apply match_step_invariant. exact Hst.
Qed.

Lemma marked_seq_le (flags : list bool) :
  forall n a, (marked flags (seq a n) <= trues (drop a flags))%nat.
Proof.
  induction n as [|n IH]; intros a; simpl; [lia |].
  specialize (IH (S a)).
  destruct (flags !! a) as [b|] eqn:Ha.
  - rewrite (drop_S _ _ _ Ha). simpl. destruct b; lia.
  - rewrite (drop_ge flags a) by (apply lookup_ge_None; exact Ha).
    rewrite (drop_ge flags (S a)) in IH
      by (apply lookup_ge_None in Ha; lia).
    simpl in *. lia.
Qed.

Lemma next_matched_found (tail : list bool) :
  forall k,
    (0 < trues tail)%nat ->
    exists dist,
      next_matched tail k = Ok (k + dist)%nat /\
      (dist < length tail)%nat /\
      trues (drop (S dist) tail) = (trues tail - 1)%nat.
Proof.
  induction tail as [|b tail IH]; intros k Hpos; simpl in *; [lia |].
  destruct b.
  - exists 0%nat. rewrite Nat.add_0_r. simpl. rewrite drop_0.
    repeat split; lia.
  - destruct (IH (S k) ltac:(lia)) as (dist & Hn & Hlt & Htr).
    exists (S dist). replace (k + S dist)%nat with (S k + dist)%nat by lia.
    repeat split; [exact Hn | lia | exact Htr].
Qed.

Lemma count_transpositions_total (s1 s2 : list ascii) (s1m s2m : list bool) :
  length s2m = length s2 ->
  forall idx k t,
    (forall i, i ∈ idx -> (i < length s1)%nat) ->
    (marked s1m idx <= trues (drop k s2m))%nat ->
    exists t',
      count_transpositions s1 s2 s1m s2m idx k t = Ok t' /\
      (t' <= t + marked s1m idx)%nat.
Proof.
  intros Hlen. induction idx as [|i idx IH]; intros k t Hin Hm; simpl.
  - exists t. split; [reflexivity | lia].
  - assert (forall j, j ∈ idx -> (j < length s1)%nat) as Hin'
      by (intros j Hj; apply Hin; right; exact Hj).
    simpl in Hm.
    destruct (s1m !! i) as [[]|] eqn:Hi;
      try (destruct (IH k t Hin' ltac:(lia)) as (t' & -> & Ht');
           exists t'; split; [reflexivity | lia]).
    destruct (next_matched_found (drop k s2m) k ltac:(lia))
      as (dist & Hn & Hlt & Htr).
    rewrite Hn. simpl.
    rewrite drop_drop in Htr. rewrite length_drop in Hlt.
    assert (i < length s1)%nat as Hi1 by (apply Hin; left).
    destruct (lookup_lt_is_Some_2 s1 i Hi1) as [a ->].
    destruct (lookup_lt_is_Some_2 s2 (k + dist) ltac:(lia)) as [b ->].
    replace (k + S dist)%nat with (S (k + dist)) in Htr by lia.
    destruct (IH (S (k + dist))
                (if Chars.eqb a b then t else S t) Hin' ltac:(lia))
      as (t' & -> & Ht').
    exists t'. split; [reflexivity |]. destruct (Chars.eqb a b); lia.
Qed.

Lemma common_prefix_le (n : nat) :
  forall s1 s2, (common_prefix n s1 s2 <= n)%nat.
Proof.
  induction n as [|n IH]; intros [|a s1] [|b s2]; simpl; try lia.
  destruct (Chars.eqb a b); [specialize (IH s1 s2) |]; lia.
Qed.

Lemma jaro_unit (m t len1 len2 : nat) :
  (0 < m)%nat -> (m <= len1)%nat -> (m <= len2)%nat -> (t <= m)%nat ->
  0 <= jaro_of m t len1 len2 <= 1.
Proof.
  intros Hm H1 H2 Ht. unfold jaro_of.
  pose proof (qnat_pos m Hm) as Hqm.
  pose proof (qnat_nonneg t) as Hqt.
  pose proof (qnat_le _ _ Ht) as Hqtm.
  pose proof (part_of_whole (qnat m) (qnat len1) ltac:(lra)
                (qnat_le _ _ H1) (qnat_pos len1 ltac:(lia))) as Hx.
  pose proof (part_of_whole (qnat m) (qnat len2) ltac:(lra)
                (qnat_le _ _ H2) (qnat_pos len2 ltac:(lia))) as Hy.
  assert (qnat t / 2 == qnat t * (1 # 2)) as Hhalf by reflexivity.
  set (h := qnat t / 2) in *.
  pose proof (part_of_whole (qnat m - h) (qnat m)
                ltac:(lra) ltac:(lra) Hqm) as Hz.
  set (x := qnat m / qnat len1) in *.
  set (y := qnat m / qnat len2) in *.
  set (z := (qnat m - h) / qnat m) in *.
  assert ((x + y + z) / 3 == (x + y + z) * (1 # 3)) as Hthird by reflexivity.
  lra.
Qed.

Lemma winkler_unit (jaro p : Q) :
  0 <= jaro <= 1 -> 0 <= p <= 4 -> 0 <= jaro + p * (1 # 10) * (1 - jaro) <= 1.
Proof.
  intros Hj Hp.
  assert (0 <= p * (1 # 10) <= 1) as Hw by lra.
  pose proof (Qmult_le_0_compat (p * (1 # 10)) (1 - jaro)
                ltac:(lra) ltac:(lra)) as Hlo.
  pose proof (Qmult_le_compat_r (p * (1 # 10)) 1 (1 - jaro)
                ltac:(lra) ltac:(lra)) as Hhi.
  lra.
Qed.

(** C10: for every pair of strings the Levenshtein similarity lies between 0
    and 1, and the Jaro-Winkler similarity is computed without an error and
    lies between 0 and 1; the prefix boost of at most four characters never
    lifts it above 1. *)
Theorem similarity_scores_in_unit_interval (s1 s2 : list ascii) :
  (0 <= _levenshtein_similarity s1 s2 <= 1) /\
  (exists q, _jaro_winkler_similarity s1 s2 = Ok q /\ 0 <= q <= 1).
Proof.
  split; [apply levenshtein_similarity_unit |].
  unfold _jaro_winkler_similarity.
  destruct s1 as [|a s1]; [exists 0; split; [reflexivity | lra] |].
  destruct s2 as [|b s2]; [exists 0; split; [reflexivity | lra] |].
  destruct (Str.eqb (a :: s1) (b :: s2));
    [exists 1; split; [reflexivity | lra] |].
  set (len1 := length (a :: s1)). set (len2 := length (b :: s2)).
  set (md := (Z.of_nat (Nat.max len1 len2) / 2 - 1)%Z).
  set (st := fold_left (match_step (a :: s1) (b :: s2) md) (seq 0 len1) _).
  assert (matched_upto len1 len2 len1 st) as (H1 & H2 & H3 & H4 & H5).
  { subst st.
    apply (match_loop_invariant (a :: s1) (b :: s2) md len1 len2 len1 0%nat).
    unfold matched_upto. simpl.
    rewrite !length_replicate, !trues_replicate_false.
    repeat split; lia. }
  destruct (matches st =? 0)%nat eqn:Hz;
    [exists 0; split; [reflexivity | lra] |].
  apply Nat.eqb_neq in Hz.
  destruct (count_transpositions_total (a :: s1) (b :: s2)
              (s1_matches st) (s2_matches st) H2 (seq 0 len1) 0%nat 0%nat)
    as (t & Ht & Htle).
  { intros i Hi. apply elem_of_seq in Hi. subst len1. lia. }
  { rewrite drop_0. pose proof (marked_seq_le (s1_matches st) len1 0%nat) as Hm.
    rewrite drop_0 in Hm. lia. }
  rewrite Ht. simpl.
  eexists. split; [reflexivity |].
  pose proof (marked_seq_le (s1_matches st) len1 0%nat) as Hm.
  rewrite drop_0 in Hm.
  pose proof (trues_le_length (s2_matches st)) as Hl2.
  apply winkler_unit.
  - apply jaro_unit; lia.
  - split; [apply qnat_nonneg |].
    change 4 with (qnat 4). apply qnat_le.
    destruct (Chars.eqb a b); [| lia].
    pose proof (common_prefix_le
                  (Nat.min (length s1) (Nat.min (length s2) 3)) s1 s2).
    lia.
Qed.

End SimilarityFacts.

(** ** The phase state machine *)

Module LearnerFacts.
Import ProgressiveLearner LearnerAux.

Lemma sum_counts_insert_fresh (m : gmap string Z) (k : string) (v : Z) :
  m !! k = None -> sum_counts (<[ k := v ]> m) = (v + sum_counts m)%Z.
Proof.
  intros Hk. unfold sum_counts.
  apply (map_fold_insert_L (fun (_ : string) n acc => (n + acc)%Z)); [| exact Hk].
  intros; lia.
Qed.

(** Counting one more ad for a store adds one to the total. *)
Lemma sum_counts_bump (m : gmap string Z) (k : string) :
  sum_counts (<[ k := (default 0%Z (m !! k) + 1)%Z ]> m)
  = (sum_counts m + 1)%Z.
Proof.
  destruct (m !! k) as [v|] eqn:Hk; simpl.
  - rewrite <- (insert_delete_eq m k (v + 1)%Z).
    rewrite sum_counts_insert_fresh by apply lookup_delete_eq.
    rewrite <- (insert_delete_id m k v Hk) at 2.
    rewrite sum_counts_insert_fresh by apply lookup_delete_eq.
    lia.
  - rewrite sum_counts_insert_fresh by exact Hk. lia.
Qed.

Section Facts.

Variable Model : Type.
Variable new_forest : Model.
Variable SKLEARN_AVAILABLE : bool.
Variable predict_top : Model -> list (list Q) -> nat -> result (list (nat * Q)).
Variable fit_and_score :
  list (list Q) -> list bool -> nat -> result (Model * (Q * Q * list Q)).
Variable re_compile : string -> option Re.regex.

Local Abbreviation learner := (t Model).
Local Abbreviation check :=
  (_check_phase_advancement Model new_forest SKLEARN_AVAILABLE fit_and_score).
Local Abbreviation retrain :=
  (_retrain_ml_model Model new_forest SKLEARN_AVAILABLE fit_and_score).
Local Abbreviation process :=
  (process_ad Model new_forest SKLEARN_AVAILABLE predict_top fit_and_score
     re_compile).
Local Abbreviation learn :=
  (learn_from_correction Model new_forest SKLEARN_AVAILABLE fit_and_score).
Local Abbreviation step_ :=
  (step Model new_forest SKLEARN_AVAILABLE predict_top fit_and_score
     re_compile).
Local Abbreviation run_ :=
  (run Model new_forest SKLEARN_AVAILABLE predict_top fit_and_score re_compile).

(** Retraining touches the matcher and the pending counter only. *)
Lemma retrain_keeps (self : learner) :
  current_phase (retrain self).2 = current_phase self /\
  ads_processed (retrain self).2 = ads_processed self /\
  total_corrections (retrain self).2 = total_corrections self /\
  training_data (retrain self).2 = training_data self /\
  data_dir (retrain self).2 = data_dir self /\
  config (retrain self).2 = config self.
Proof.
  unfold _retrain_ml_model.
  destruct (length (training_data self) <? 10)%nat; [auto 10 |].
  destruct (DealMatcher.train _ _ _ _ _ _) as [[report|e] matcher'];
    simpl; auto 10.
Qed.

(** What the guard check does to the phase, by cases on the phase. *)
Lemma check_phase_cases (self : learner) :
  match current_phase self with
  | PHASE_1_REGEX =>
      check self =
        if (min_ads_for_phase_2 (config self) <=? total_ads self)%Z ||
           (min_corrections_for_phase_2 (config self)
              <=? total_corrections self)%Z
        then (true, set_current_phase PHASE_2_TEMPLATE self)
        else (false, self)
  | PHASE_2_TEMPLATE =>
      current_phase (check self).2 = PHASE_2_TEMPLATE \/
      current_phase (check self).2 = PHASE_3_ML
  | PHASE_3_ML => check self = (false, self)
  end.
Proof.
  unfold _check_phase_advancement.
  destruct (current_phase self) eqn:Hp; try reflexivity.
  destruct (_ && _); simpl; [right; reflexivity | left; exact Hp].
Qed.

Lemma check_phase_forward (self : learner) :
  (phase_value (current_phase self)
   <= phase_value (current_phase (check self).2))%Z.
Proof.
  pose proof (check_phase_cases self) as H.
  destruct (current_phase self) eqn:Hp.
  - rewrite H. destruct (_ || _); simpl; rewrite ?Hp; simpl; lia.
  - destruct H as [-> | ->]; simpl; lia.
  - rewrite H. simpl. rewrite Hp. simpl. lia.
Qed.

Lemma check_keeps_counters (self : learner) :
  ads_processed (check self).2 = ads_processed self /\
  total_corrections (check self).2 = total_corrections self /\
  config (check self).2 = config self.
Proof.
  unfold _check_phase_advancement.
  destruct (current_phase self).
  - destruct (_ || _); simpl; auto.
  - destruct (_ && _); simpl; auto.
    destruct (training_data self); simpl; auto.
    pose proof (retrain_keeps self) as (_ & H2 & H3 & _ & _ & H6).
    auto.
  - simpl; auto.
Qed.

Lemma counted_total (self : learner) (store : option string) :
  total_ads (counted self store) = (total_ads self + 1)%Z.
Proof. unfold counted, total_ads. simpl. apply sum_counts_bump. Qed.

(** [process_ad] either completes, and then ends with the guard check on
    the learner with the ad counted, or raises and leaves that learner. *)
Lemma process_ad_cases (self : learner) (ad_text : string)
    (store : option string) (coordinates : list Coordinate) :
  (exists res,
     process self ad_text store coordinates
     = (Ok res, (check (counted self store)).2)) \/
  (exists e,
     process self ad_text store coordinates = (Raise e, counted self store)).
Proof.
  unfold process_ad. fold (counted self store).
  match goal with
  | |- context [match ?o with Ok _ => _ | Raise _ => _ end] => destruct o
  end; eauto.
Qed.

Lemma process_ad_phase_forward (self : learner) (ad_text : string)
    (store : option string) (coordinates : list Coordinate) :
  (phase_value (current_phase self)
   <= phase_value
        (current_phase (process self ad_text store coordinates).2))%Z.
Proof.
  destruct (process_ad_cases self ad_text store coordinates)
    as [[res ->] | [e ->]]; simpl.
  - apply (check_phase_forward (counted self store)).
  - lia.
Qed.


(** [learn_from_correction] ends with the guard check on a learner that
    differs from the initial one by one more correction (and by the
    components it updated), and then saves the state. *)
Lemma learn_cases (self : learner) (deal_id : string)
    (original_deal corrected_deal : ExtractedDeal) (raw store : string)
    (original_match : option ProductMatch) (corrected_product : option Product)
    (now : Z) (now_iso : string) (fs : disk) :
  exists res self5 fs2,
    learn self deal_id original_deal corrected_deal raw store original_match
      corrected_product now now_iso fs
    = (res, (check self5).2, _save_state (check self5).2 fs2) /\
    current_phase self5 = current_phase self /\
    ads_processed self5 = ads_processed self /\
    total_corrections self5 = (total_corrections self + 1)%Z /\
    config self5 = config self /\
    data_dir self5 = data_dir self.
Proof.
  unfold learn_from_correction.
  destruct (TemplateDealParser.learn_from_correction _ _ _ _ _ _ _)
    as [tp fs1].
  match goal with
  | |- context [let '(_, _) := ?x in _] =>
      assert (exists s3 acts, x = (s3, acts) /\
                current_phase s3 = current_phase self /\
                ads_processed s3 = ads_processed self /\
                total_corrections s3 = (total_corrections self + 1)%Z /\
                config s3 = config self /\
                data_dir s3 = data_dir self)
        as (s3 & acts & -> & Hp3 & Ha3 & Ht3 & Hc3 & Hd3)
  end.
  { destruct original_match as [om|];
      [destruct (product_truthy corrected_product) |];
      eexists _, _; (split; [reflexivity |]); simpl; auto 10. }
  unfold AccuracyTracker.record_correction.
  match goal with
  | |- context [bool_decide (current_phase ?s4 = PHASE_3_ML) && _] =>
      set (self4 := s4)
  end.
  match goal with
  | |- context [AccuracyTracker._save ?tr fs1] =>
      set (fs2 := AccuracyTracker._save tr fs1)
  end.
  assert (current_phase self4 = current_phase self /\
          ads_processed self4 = ads_processed self /\
          total_corrections self4 = (total_corrections self + 1)%Z /\
          config self4 = config self /\
          data_dir self4 = data_dir self) as (Hp4 & Ha4 & Ht4 & Hc4 & Hd4).
  { subst self4. simpl. auto. }
  clearbody self4 fs2.
  destruct (bool_decide (current_phase self4 = PHASE_3_ML) && _).
  - pose proof (retrain_keeps self4) as (Hp5 & Ha5 & Ht5 & _ & Hd5 & Hc5).
    destruct (retrain self4) as [status self5]. simpl in *.
    destruct (check self5) as [advanced self6] eqn:Hck.
    eexists _, self5, fs2. rewrite Hck. simpl.
    split; [reflexivity |].
    repeat split; congruence.
  - destruct (check self4) as [advanced self6] eqn:Hck.
    eexists _, self4, fs2. rewrite Hck. simpl.
    split; [reflexivity |].
    repeat split; congruence.
Qed.

Lemma learn_phase_forward (self : learner) (deal_id : string)
    (original_deal corrected_deal : ExtractedDeal) (raw store : string)
    (original_match : option ProductMatch) (corrected_product : option Product)
    (now : Z) (now_iso : string) (fs : disk) :
  (phase_value (current_phase self)
   <= phase_value
        (current_phase
           (learn self deal_id original_deal corrected_deal raw store
              original_match corrected_product now now_iso fs).1.2))%Z.
Proof.
  destruct (learn_cases self deal_id original_deal corrected_deal raw store
              original_match corrected_product now now_iso fs)
    as (res & self5 & fs2 & -> & Hp & _).
  simpl. rewrite <- Hp. apply check_phase_forward.
Qed.

Lemma step_phase_forward (st : learner * disk) (c : call) :
  (phase_value (current_phase st.1)
   <= phase_value (current_phase (step_ st c).1))%Z.
Proof.
  destruct c; simpl.
  - apply process_ad_phase_forward.
  - pose proof (learn_phase_forward st.1 deal_id original_deal corrected_deal
                  raw store original_match corrected_product now now_iso st.2)
      as H.
    destruct (learn _ _ _ _ _ _ _ _ _ _ _) as [[res self'] fs'].
    exact H.
Qed.

Lemma run_phase_forward (calls : list call) :
  forall st : learner * disk,
    (phase_value (current_phase st.1)
     <= phase_value (current_phase (run_ st calls).1))%Z.
Proof.
  induction calls as [|c calls IH]; intros st; simpl; [lia |].
  etransitivity; [apply (step_phase_forward st c) | apply IH].
Qed.



(** After a completed call from Phase 1 the phase is decided by the guard
    on the counters the call leaves behind. *)
Lemma completed_call_from_phase_1 (self : learner) (fs : disk) (c : call) :
  current_phase self = PHASE_1_REGEX ->
  completes Model new_forest SKLEARN_AVAILABLE predict_top fit_and_score
    re_compile self c ->
  exists s,
    current_phase s = PHASE_1_REGEX /\ config s = config self /\
    (step_ (self, fs) c).1 = (check s).2 /\
    total_ads (check s).2 = total_ads s /\
    total_corrections (check s).2 = total_corrections s.
Proof.
  intros Hp Hc. destruct c; simpl in *.
  - destruct Hc as [res Hres].
    destruct (process_ad_cases self ad_text store coordinates)
      as [[res' Heq] | [e Heq]]; rewrite Heq in *; simpl in *;
      [| discriminate].
    exists (counted self store).
    pose proof (check_keeps_counters (counted self store)) as (Ha & Ht & _).
    repeat split; auto.
    unfold total_ads. rewrite Ha. reflexivity.
  - destruct (learn_cases self deal_id original_deal corrected_deal raw store
                original_match corrected_product now now_iso fs)
      as (res & self5 & fs2 & -> & Hp5 & _ & _ & Hc5 & _).
    simpl. exists self5.
    pose proof (check_keeps_counters self5) as (Ha & Ht & _).
    repeat split; try congruence.
    unfold total_ads. rewrite Ha. reflexivity.
Qed.

(** C3: under normal operation the phase never decreases along any
    sequence of [process_ad] and [learn_from_correction] calls; with the
    default thresholds a Phase-1 learner at 4 ads and 19 corrections is left
    in Phase 1 by the guard check, one at 5 ads or at 20 corrections is
    moved to Phase 2, and after any completed call from Phase 1 the learner
    is in Phase 2 exactly when its counters have reached 5 ads or 20
    corrections. *)
Theorem phase_moves_forward_with_default_thresholds (self : learner)
    (fs : disk) :
  (forall calls,
     (phase_value (current_phase self)
      <= phase_value (current_phase (run_ (self, fs) calls).1))%Z) /\
  (current_phase self = PHASE_1_REGEX ->
   config self = default_config ->
   (total_ads self = 4%Z -> total_corrections self = 19%Z ->
    check self = (false, self)) /\
   ((5 <= total_ads self)%Z \/ (20 <= total_corrections self)%Z ->
    check self = (true, set_current_phase PHASE_2_TEMPLATE self)) /\
   (forall c,
      completes Model new_forest SKLEARN_AVAILABLE predict_top fit_and_score
        re_compile self c ->
      let self' := (step_ (self, fs) c).1 in
      (current_phase self' = PHASE_1_REGEX <->
       (total_ads self' < 5)%Z /\ (total_corrections self' < 20)%Z) /\
      (current_phase self' = PHASE_2_TEMPLATE <->
       (5 <= total_ads self')%Z \/ (20 <= total_corrections self')%Z))).
Proof.
  split.
  - intros calls. apply (run_phase_forward calls (self, fs)).
  - intros Hp Hcfg.
    pose proof (check_phase_cases self) as Hck. rewrite Hp, Hcfg in Hck.
    simpl in Hck.
    split; [| split].
    + intros Ha Ht. rewrite Hck, Ha, Ht. reflexivity.
    + intros Hor. rewrite Hck.
      destruct (5 <=? total_ads self)%Z eqn:E1;
        destruct (20 <=? total_corrections self)%Z eqn:E2;
        try reflexivity.
      apply Z.leb_gt in E1, E2. lia.
    + intros c Hc self'.
      destruct (completed_call_from_phase_1 self fs c Hp Hc)
        as (s & Hps & Hcs & Hstep & Hads & Hcorr).
      subst self'. rewrite Hstep, Hads, Hcorr.
      pose proof (check_phase_cases s) as Hs. rewrite Hps, Hcs, Hcfg in Hs.
      simpl in Hs. rewrite Hs.
      destruct (5 <=? total_ads s)%Z eqn:E1;
        destruct (20 <=? total_corrections s)%Z eqn:E2;
        simpl; rewrite ?Hps;
        try apply Z.leb_le in E1; try apply Z.leb_le in E2;
        try apply Z.leb_gt in E1; try apply Z.leb_gt in E2;
        (split; split; intros H; try discriminate; try lia; try reflexivity).
Qed.

End Facts.

Lemma phase_moves_forward_with_default_thresholds_witness :
  _check_phase_advancement Demo.Model Demo.new_forest Demo.SKLEARN_AVAILABLE
    Demo.fit_and_score Demo.learner_4_19 = (false, Demo.learner_4_19) /\
  current_phase
    (step Demo.Model Demo.new_forest Demo.SKLEARN_AVAILABLE Demo.predict_top
       Demo.fit_and_score TemplateDealParser.compile_default
       (Demo.learner_4_19, ∅) Demo.one_more_ad).1 = PHASE_2_TEMPLATE.
Proof.
  destruct (phase_moves_forward_with_default_thresholds Demo.Model
              Demo.new_forest Demo.SKLEARN_AVAILABLE Demo.predict_top
              Demo.fit_and_score TemplateDealParser.compile_default
              Demo.learner_4_19 ∅) as [_ Hb].
  destruct (Hb eq_refl eq_refl) as (H419 & _ & Hcall).
  split.
  - apply H419; vm_compute; reflexivity.
  - apply (Hcall Demo.one_more_ad).
    + let v := eval vm_compute in
        (process_ad Demo.Model Demo.new_forest Demo.SKLEARN_AVAILABLE
           Demo.predict_top Demo.fit_and_score
           TemplateDealParser.compile_default Demo.learner_4_19
           "Milk $2.50" (Some "kroger") []).1 in
      match v with Ok ?r => exists r end.
      vm_compute. reflexivity.
    + left. vm_compute. discriminate.
Defined.

End LearnerFacts.

(** ** Persistence of the learner state *)

Module PersistenceFacts.
Import ProgressiveLearner PersistenceAux.

Lemma as_int_inject (z : Z) :
  TemplateCodec.as_int (JNum (inject_Z z)) = Some z.
Proof. reflexivity. Qed.

Lemma phase_of_value_value (p : LearningPhase) :
  phase_of_value (phase_value p) = Some p.
Proof. destruct p; reflexivity. Qed.

Lemma DealType_of_value_value (ty : DealType) :
  DealType_of_value (DealType_value ty) = Some ty.
Proof. destruct ty; reflexivity. Qed.

Lemma all_some_map {A B} (f : A -> option B) (g : A -> B) (l : list A) :
  (forall a, f a = Some (g a)) ->
  TemplateCodec.all_some (map f l) = Some (map g l).
Proof.
  intros H. induction l as [|a l IH]; simpl; [reflexivity |].
  rewrite H, IH. reflexivity.
Qed.

Lemma ads_roundtrip (ads : gmap string Z) :
  Codec.ads_of_json (Codec.ads_to_json ads) = Some ads.
Proof.
  unfold Codec.ads_of_json, Codec.ads_to_json.
  rewrite map_map.
  rewrite (all_some_map _ (fun kv : string * Z => kv)).
  - simpl. rewrite map_id. rewrite list_to_map_to_list. reflexivity.
  - intros [k z]. reflexivity.
Qed.

Lemma product_roundtrip (p : Product) :
  Codec.product_of_json (Codec.product_to_json p) = Some p.
Proof.
  destruct p as [[i|] [n|] [c|] [tp|] [u|] [b|] [pf|]]; reflexivity.
Qed.

Lemma deal_roundtrip (d : ExtractedDeal) :
  Codec.deal_of_json (Codec.deal_to_json d) = Some (reloaded_deal d).
Proof.
  unfold Codec.deal_of_json, Codec.deal_to_json, reloaded_deal.
  simpl. rewrite DealType_of_value_value. simpl.
  destruct (product_name d), (price d); reflexivity.
Qed.

Lemma example_of_json_fields (dj pj : json) (b : bool) :
  Codec.example_of_json
    (JObj [("deal", dj); ("product", pj); ("is_match", JBool b)])
  = (d ← Codec.deal_of_json dj;
     p ← Codec.product_of_json pj;
     Some (mkExample d p b)).
Proof. reflexivity. Qed.

Lemma example_roundtrip (ex : TrainingExample) :
  Codec.example_of_json (Codec.example_to_json ex) = Some (reloaded ex).
Proof.
  unfold Codec.example_to_json. rewrite example_of_json_fields.
  rewrite deal_roundtrip, product_roundtrip. reflexivity.
Qed.

Lemma append_inj_l (s a b : string) : s +:+ a = s +:+ b -> a = b.
Proof.
  induction s as [|c s IH]; simpl; intros H; [exact H |].
  injection H as H. auto.
Qed.

Lemma state_path_ne_training_path (dir : string) :
  state_path dir <> training_path dir.
Proof.
  unfold state_path, training_path. intros H.
  apply append_inj_l in H. discriminate.
Qed.

Section Facts.

Variable Model : Type.

Local Abbreviation learner := (t Model).

Lemma save_state_state_file (self : learner) (fs : disk) :
  _save_state self fs !! state_path (data_dir self) = Some (state_json self).
Proof.
  unfold _save_state. destruct (training_data self).
  - apply lookup_insert_eq.
  - rewrite lookup_insert_ne
      by (intros H; symmetry in H; revert H; apply state_path_ne_training_path).
    apply lookup_insert_eq.
Qed.

Lemma save_state_training_file (self : learner) (fs : disk) :
  _save_state self fs !! training_path (data_dir self)
  = match training_data self with
    | [] => fs !! training_path (data_dir self)
    | exs => Some (JArr (map Codec.example_to_json exs))
    end.
Proof.
  unfold _save_state. destruct (training_data self).
  - apply lookup_insert_ne, state_path_ne_training_path.
  - apply lookup_insert_eq.
Qed.

(** Reading back what [_save_state] wrote. *)
Lemma load_saved_state (self other : learner) (fs : disk) :
  data_dir other = data_dir self ->
  fs !! state_path (data_dir self) = Some (state_json self) ->
  fs !! training_path (data_dir self)
  = match training_data self with
    | [] => None
    | exs => Some (JArr (map Codec.example_to_json exs))
    end ->
  exists loaded,
    _load_state other fs = Ok loaded /\
    current_phase loaded = current_phase self /\
    ads_processed loaded = ads_processed self /\
    total_corrections loaded = total_corrections self /\
    pending_corrections_for_retrain loaded
    = pending_corrections_for_retrain self /\
    training_data loaded
    = match training_data self with
      | [] => training_data other
      | exs => map reloaded exs
      end.
Proof.
  intros Hdir Hstate Htrain. unfold _load_state.
  rewrite Hdir, Hstate. unfold state_json.
  change (Dict.get "current_phase" _)
    with (Some (JNum (inject_Z (phase_value (current_phase self))))).
  change (Dict.get "ads_processed" _)
    with (Some (Codec.ads_to_json (ads_processed self))).
  change (Dict.get "total_corrections" _)
    with (Some (JNum (inject_Z (total_corrections self)))).
  change (Dict.get "pending_corrections_for_retrain" _)
    with (Some (JNum (inject_Z (pending_corrections_for_retrain self)))).
  cbv beta iota.
  rewrite !as_int_inject, ads_roundtrip. simpl.
  rewrite phase_of_value_value. simpl.
  rewrite Htrain.
  destruct (training_data self) as [|ex exs] eqn:Hexs.
  - eexists. split; [reflexivity |]. simpl. auto 10.
  - rewrite map_map.
    rewrite (all_some_map _ reloaded) by apply example_roundtrip.
    eexists. split; [reflexivity |]. simpl. auto 10.
Qed.

End Facts.
End PersistenceFacts.

Module PersistenceTheorems.
Import ProgressiveLearner PersistenceAux PersistenceFacts.

Section Facts.

Variable Model : Type.
Variable new_forest : Model.
Variable SKLEARN_AVAILABLE : bool.
Variable predict_top : Model -> list (list Q) -> nat -> result (list (nat * Q)).
Variable fit_and_score :
  list (list Q) -> list bool -> nat -> result (Model * (Q * Q * list Q)).
Variable re_compile : string -> option Re.regex.

Local Abbreviation learner := (t Model).
Local Abbreviation learn :=
  (learn_from_correction Model new_forest SKLEARN_AVAILABLE fit_and_score).


End Facts.



End PersistenceTheorems.

(** ** Learned templates and their files *)

Module TemplateFacts.
Import TemplateDealParser TemplateAux.

Lemma region_roundtrip (r : LayoutRegion) :
  TemplateCodec.region_of_json (TemplateCodec.region_to_json r) = Some r.
Proof. destruct r. reflexivity. Qed.

Lemma pattern_roundtrip (p : Dict.t string) :
  TemplateCodec.pattern_of_json (TemplateCodec.pattern_to_json p) = Some p.
Proof.
  unfold TemplateCodec.pattern_of_json, TemplateCodec.pattern_to_json.
  rewrite map_map.
  rewrite (PersistenceFacts.all_some_map _ (fun kv : string * string => kv)).
  - rewrite map_id. reflexivity.
  - intros [k v]. reflexivity.
Qed.

Lemma template_roundtrip (tpl : StoreTemplate) :
  TemplateCodec.template_of_json (TemplateCodec.template_to_json tpl)
  = Some tpl.
Proof.
  destruct tpl as [sn lt rgs pp prp ds cols hh hm sc acc lu cps].
  unfold TemplateCodec.template_to_json, TemplateCodec.template_of_json.
  cbn [store_name layout_type regions price_pattern product_pattern
       deal_separator columns has_header has_member_prices sample_count
       accuracy last_updated custom_patterns].
  change (Dict.get "regions" _)
    with (Some (JArr (map TemplateCodec.region_to_json rgs))).
  cbv beta iota.
  rewrite map_map.
  rewrite (PersistenceFacts.all_some_map _ (fun r => r))
    by apply region_roundtrip.
  rewrite map_id.
  destruct pp, prp, lu;
    cbv -[TemplateCodec.all_some map TemplateCodec.pattern_of_json
          TemplateCodec.pattern_to_json];
    rewrite map_map;
    rewrite (PersistenceFacts.all_some_map _ (fun p => p))
      by apply pattern_roundtrip;
    rewrite map_id; reflexivity.
Qed.


Lemma get_set_eq {V} (k : string) (v : V) (m : Dict.t V) :
  Dict.get k (Dict.set k v m) = Some v.
Proof.
  induction m as [|[k' v'] m IH]; simpl;
    repeat (case_bool_decide; simpl); congruence.
Qed.

Lemma get_set_ne {V} (k k0 : string) (v : V) (m : Dict.t V) :
  k0 <> k -> Dict.get k (Dict.set k0 v m) = Dict.get k m.
Proof.
  intros Hne. induction m as [|[k' v'] m IH]; simpl;
    repeat (case_bool_decide; simpl); congruence.
Qed.

Lemma get_absent {V} (k : string) (m : Dict.t V) :
  k ∉ Dict.keys m -> Dict.get k m = None.
Proof.
  induction m as [|[k' v'] m IH]; simpl; intros Hk; [reflexivity |].
  apply not_elem_of_cons in Hk as [Hne Hk].
  rewrite bool_decide_eq_false_2 by congruence. auto.
Qed.

Lemma keys_set {V} (k : string) (v : V) (m : Dict.t V) :
  Dict.keys (Dict.set k v m)
  = if bool_decide (k ∈ Dict.keys m) then Dict.keys m else Dict.keys m ++ [k].
Proof.
  unfold Dict.keys. induction m as [|[k' v'] m IH]; simpl.
  - reflexivity.
  - destruct (decide (k' = k)) as [-> | Hne].
    + rewrite bool_decide_eq_true_2 by reflexivity. simpl.
      rewrite bool_decide_eq_true_2 by left. reflexivity.
    + rewrite (bool_decide_eq_false_2 (k' = k)) by exact Hne. simpl.
      rewrite IH.
      destruct (decide (k ∈ map fst m)) as [Hin | Hout].
      * rewrite !bool_decide_eq_true_2; [reflexivity | right; exact Hin | exact Hin].
      * rewrite !bool_decide_eq_false_2; [reflexivity | | exact Hout].
        intros H. apply elem_of_cons in H as [H | H]; congruence.
Qed.

Lemma keys_set_NoDup {V} (k : string) (v : V) (m : Dict.t V) :
  NoDup (Dict.keys m) -> NoDup (Dict.keys (Dict.set k v m)).
Proof.
  intros Hnd. rewrite keys_set.
  destruct (bool_decide (k ∈ Dict.keys m)) eqn:E; [exact Hnd |].
  apply bool_decide_eq_false_1 in E.
  apply NoDup_app. split; [exact Hnd |]. split.
  - intros x Hx Hx'. apply list_elem_of_singleton in Hx'. congruence.
  - apply NoDup_singleton.
Qed.

(** Loading what [save_templates] wrote: the saved entry wins over the
    table in force before the load. *)
Lemma get_loaded (saved : Dict.t StoreTemplate) :
  forall (before : Dict.t StoreTemplate) (k : string),
    NoDup (Dict.keys saved) ->
    Dict.get k
      (load_loop before
         (map (fun kv : string * StoreTemplate =>
                 (kv.1, TemplateCodec.template_to_json kv.2)) saved))
    = match Dict.get k saved with
      | Some tpl => Some tpl
      | None => Dict.get k before
      end.
Proof.
  induction saved as [|[k0 t0] saved IH]; intros before k Hnd.
  - reflexivity.
  - rewrite List.map_cons. cbn [fst snd load_loop].
    rewrite template_roundtrip.
    apply NoDup_cons in Hnd as [Hk0 Hnd].
    rewrite (IH _ k Hnd). cbn [Dict.get].
    destruct (bool_decide (k0 = k)) eqn:E.
    + apply bool_decide_eq_true_1 in E. subst k0.
      rewrite (get_absent k saved Hk0). apply get_set_eq.
    + apply bool_decide_eq_false_1 in E.
      rewrite (get_set_ne k k0 t0 before E). reflexivity.
Qed.

(** A fresh parser on the file a parser saved finds every saved template. *)
Lemma reload_finds_saved (self : t) (path : string) (fs : disk)
    (defaults : Dict.t StoreTemplate) (k : string) (tpl : StoreTemplate) :
  templates_path self = Some path ->
  NoDup (Dict.keys (templates self)) ->
  Dict.get k (templates self) = Some tpl ->
  Dict.get k (templates (new defaults (Some path) (save_templates self fs)))
  = Some tpl.
Proof.
  intros Hpath Hnd Hget.
  unfold save_templates, new, _load_templates. rewrite Hpath. simpl.
  rewrite lookup_insert_eq.
  rewrite bool_decide_eq_true_2 by (eexists; reflexivity).
  simpl. rewrite (get_loaded _ _ _ Hnd), Hget. reflexivity.
Qed.

(** A literal matches wherever the text continues with it. *)
Lemma lits_match (fl : Re.flags) (l : list ascii) :
  forall (c : Re.cursor) (cs : Re.caps) (k : Re.kont),
    Str.prefixb l (Re.rest c) = true ->
    Re.rmatch fl (Re.lits l) c cs k = k (advance (length l) c) cs.
Proof.
  induction l as [|a l IH]; intros c cs k Hpre; [reflexivity |].
  destruct c as [pv rst p]. simpl in Hpre.
  destruct rst as [|x rst]; [discriminate |].
  apply andb_true_iff in Hpre as [Hax Hpre].
  assert (Re.lit_matches fl a x = true) as Hlit
    by (unfold Re.lit_matches; rewrite Hax; reflexivity).
  destruct l as [|b l].
  - simpl. unfold Re.step1. simpl. rewrite Hlit. reflexivity.
  - change (Re.lits (a :: b :: l)) with (Re.Seq (Re.Lit a) (Re.lits (b :: l))).
    cbn [Re.rmatch]. unfold Re.step1 at 1. cbn [Re.rest Re.pos Re.prev].
    rewrite Hlit. rewrite IH by exact Hpre. reflexivity.
Qed.

(** Searching for a dollar sign followed by a literal finds it wherever the
    text contains the two in a row. *)
Lemma search_dollar_literal (fl : Re.flags) (lit : list ascii) :
  forall (txt : list ascii) (pv : option ascii) (p : nat),
    Str.contains ("$"%char :: lit) txt = true ->
    is_Some (Re.search_from fl (Re.Seq (Re.str "$") (Re.Grp 1 (Re.lits lit)))
               pv txt p).
Proof.
  induction txt as [|x txt IH]; intros pv p Hc.
  - simpl in Hc. discriminate.
  - cbn [Re.search_from].
    destruct (Re.match_at _ _ _) as [[c' cs]|] eqn:Hm; [eexists; reflexivity |].
    cbn [Str.contains] in Hc. apply orb_true_iff in Hc as [Hpre | Hc].
    + exfalso. revert Hm. unfold Re.match_at.
      change (Re.str "$") with (Re.Lit "$"%char).
      cbn [Re.rmatch]. unfold Re.step1 at 1. cbn [Re.rest Re.pos Re.prev].
      cbn [Str.prefixb] in Hpre. apply andb_true_iff in Hpre as [Hd Hpre].
      assert (Re.lit_matches fl "$"%char x = true) as ->
        by (unfold Re.lit_matches; rewrite Hd; reflexivity).
      rewrite lits_match by exact Hpre. discriminate.
    + apply IH. exact Hc.
Qed.

(** A corrected price that stands in the raw text right after a dollar
    sign is found by the first probed shape. *)
Lemma dollar_price_is_probed (price_str raw : string) :
  Str.contains (chars ("$" +:+ price_str)) (chars raw) = true ->
  exists pr,
    pr ∈ patterns_to_try price_str /\
    is_Some (Re.search Re.IGNORECASE pr.2 (chars raw)).
Proof.
  intros Hc. eexists. split; [left |]. cbn [snd].
  unfold Re.search.
  destruct (search_dollar_literal Re.IGNORECASE (chars price_str) (chars raw)
              None 0%nat Hc) as [[[st c'] cs] ->].
  eexists. reflexivity.
Qed.

Lemma learn_pattern_found (original_deal corrected_deal : ExtractedDeal)
    (raw : string) :
  Num.truthy (price corrected_deal) = true ->
  Num.opt_eqb (price original_deal) (price corrected_deal) = false ->
  (exists pr,
     pr ∈ patterns_to_try (Fmt.format_2f (default 0 (price corrected_deal)))
     /\ is_Some (Re.search Re.IGNORECASE pr.2 (chars raw))) ->
  exists pr,
    pr ∈ patterns_to_try (Fmt.format_2f (default 0 (price corrected_deal)))
    /\ learn_pattern original_deal corrected_deal raw = Some pr.1.
Proof.
  intros Htruthy Hneq (pr & Hin & Hm).
  unfold learn_pattern. rewrite Htruthy, Hneq. cbn [andb negb].
  match goal with |- context [find ?f ?l] => destruct (find f l) as [x|] eqn:Hf end.
  - exists x. split; [| reflexivity].
    apply find_some in Hf as [Hx _]. apply list_elem_of_In. exact Hx.
  - exfalso. apply list_elem_of_In in Hin.
    pose proof (find_none _ _ Hf pr Hin) as Hnone. simpl in Hnone.
    destruct Hm as [m Hm]. rewrite Hm in Hnone. discriminate.
Qed.

(** C5, as amended: a correction whose corrected price is non-zero,
    differs from the extracted price and occurs in the raw text in one of
    the three probed shapes adds exactly one custom pattern to the store's
    template, and a parser created afterwards on the same file holds the
    same template, the new pattern included. *)
Theorem learned_pattern_survives_reload (self : t) (store : string)
    (original_deal corrected_deal : ExtractedDeal) (raw now path : string)
    (fs : disk) :
  templates_path self = Some path ->
  NoDup (Dict.keys (templates self)) ->
  Num.truthy (price corrected_deal) = true ->
  Num.opt_eqb (price original_deal) (price corrected_deal) = false ->
  (exists pr,
     pr ∈ patterns_to_try (Fmt.format_2f (default 0 (price corrected_deal)))
     /\ is_Some (Re.search Re.IGNORECASE pr.2 (chars raw))) ->
  let out :=
    learn_from_correction self store original_deal corrected_deal raw now fs in
  let before :=
    custom_patterns
      (default (new_template (lower_str store))
         (Dict.get (lower_str store) (templates self))) in
  exists tpl' learned,
    Dict.get (lower_str store) (templates out.1) = Some tpl' /\
    custom_patterns tpl' = before ++ [learned] /\
    Dict.get "deal_type" learned = Some "price" /\
    (exists pr,
       pr ∈ patterns_to_try (Fmt.format_2f (default 0 (price corrected_deal)))
       /\ Dict.get "pattern" learned = Some pr.1) /\
    forall defaults,
      Dict.get (lower_str store)
        (templates (new defaults (Some path) out.2)) = Some tpl'.
Proof.
  intros Hpath Hnd Htruthy Hneq Hshape out before.
  destruct (learn_pattern_found original_deal corrected_deal raw Htruthy Hneq
              Hshape) as (pr & Hin & Hlearn).
  subst out before. unfold learn_from_correction. rewrite Hlearn.
  cbv zeta. simpl fst. simpl snd.
  eexists _, _. split; [apply get_set_eq |].
  split; [reflexivity |]. split; [reflexivity |].
  split; [exists pr; split; [exact Hin | reflexivity] |].
  intros defaults.
  apply reload_finds_saved.
  - exact Hpath.
  - simpl. apply keys_set_NoDup. exact Hnd.
  - apply get_set_eq.
Qed.

Lemma learned_pattern_survives_reload_witness :
  let out :=
    learn_from_correction Demo.template_parser "Costco" Demo.original_deal
      Demo.corrected_deal "Chicken Breast $5.99/lb" "2024-01-01T00:00:00" ∅ in
  exists tpl',
    Dict.get "costco" (templates out.1) = Some tpl' /\
    length (custom_patterns tpl') = 1%nat /\
    Dict.get "costco"
      (templates (new DEFAULT_TEMPLATES (Some "data/templates.json") out.2))
    = Some tpl'.
Proof.
  intros out.
  assert (NoDup (Dict.keys (templates Demo.template_parser))) as Hnd
    by (apply (bool_decide_unpack _); vm_compute; reflexivity).
  pose proof (learned_pattern_survives_reload Demo.template_parser "Costco"
                Demo.original_deal Demo.corrected_deal
                "Chicken Breast $5.99/lb" "2024-01-01T00:00:00"
                "data/templates.json" ∅
                ltac:(vm_compute; reflexivity) Hnd
                ltac:(vm_compute; reflexivity)
                ltac:(vm_compute; reflexivity)
                (dollar_price_is_probed
                   (Fmt.format_2f (default 0 (price Demo.corrected_deal)))
                   "Chicken Breast $5.99/lb"
                   ltac:(vm_compute; reflexivity))) as H.
  cbv zeta in H. fold out in H.
  assert (lower_str "Costco" = "costco") as E by (vm_compute; reflexivity).
  rewrite E in H.
  destruct H as (tpl' & learned & Hget & Hcp & _ & _ & Hre).
  exists tpl'. split; [exact Hget |]. split.
  - rewrite Hcp. vm_compute. reflexivity.
  - apply Hre.
Defined.

(** C5, as stated, fails: the corrected price 5.99 stands in the raw text,
    but without a dollar sign, a currency word or a "price" label, and the
    store's template ends up with no custom pattern. *)
Lemma bare_price_in_text_is_not_learned :
  let out :=
    learn_from_correction Demo.template_parser "newstore" Demo.original_deal
      Demo.corrected_deal "Milk 5.99 today" "2024-01-01T00:00:00" ∅ in
  Fmt.format_2f (default 0 (price Demo.corrected_deal)) = "5.99" /\
  Str.contains (chars "5.99") (chars "Milk 5.99 today") = true /\
  Dict.get "newstore" (templates Demo.template_parser) = None /\
  custom_patterns <$> Dict.get "newstore" (templates out.1) = Some [].
Proof. vm_compute. repeat split; reflexivity. Qed.

End TemplateFacts.

(** ** Merging the template pass with the regex pass *)

Module MergeFacts.
Import MergeAux.

Lemma template_merge_loop (template_deals : list ExtractedDeal) :
  forall regex_deals merged,
    TemplateDealParser.merge_loop template_deals merged regex_deals
    = merged ++
      List.filter (fun r =>
        negb (existsb (TemplateDealParser.is_duplicate_of r) template_deals))
        regex_deals.
Proof.
  induction regex_deals as [|r rs IH]; intros merged; simpl.
  - rewrite app_nil_r. reflexivity.
  - destruct (existsb _ template_deals); simpl; rewrite IH.
    + reflexivity.
    + rewrite <- app_assoc. reflexivity.
Qed.

Lemma learner_merge_loop (template_deals : list ExtractedDeal) :
  forall regex_deals merged,
    ProgressiveLearner.merge_loop template_deals merged regex_deals
    = merged ++
      List.filter (fun r =>
        negb (existsb (ProgressiveLearner._deals_similar r) template_deals))
        regex_deals.
Proof.
  induction regex_deals as [|r rs IH]; intros merged; simpl.
  - rewrite app_nil_r. reflexivity.
  - destruct (existsb _ template_deals); simpl; rewrite IH.
    + reflexivity.
    + rewrite <- app_assoc. reflexivity.
Qed.

Lemma Qltb_lt (a b : Q) : Num.Qltb a b = true <-> a < b.
Proof.
  unfold Num.Qltb. rewrite negb_true_iff. split.
  - intros H. apply Qnot_le_lt. intros Hle.
    apply Qle_bool_iff in Hle. congruence.
  - intros H. destruct (Qle_bool b a) eqn:E; [| reflexivity].
    apply Qle_bool_iff in E. apply Qlt_not_le in H. contradiction.
Qed.

Lemma truthy_nonzero (p : Q) : Num.truthy (Some p) = true <-> ~ p == 0.
Proof.
  simpl. rewrite negb_true_iff. split.
  - intros H Hz. apply Qeq_bool_iff in Hz. congruence.
  - intros H. destruct (Qeq_bool p 0) eqn:E; [| reflexivity].
    apply Qeq_bool_iff in E. contradiction.
Qed.

(** Half the smaller word count, compared over the naturals. *)
Lemma half_overlap (small overlap : nat) :
  Qle_bool (inject_Z (Z.of_nat small) * (1 # 2)) (inject_Z (Z.of_nat overlap))
  = (small <=? 2 * overlap)%nat.
Proof.
  assert (inject_Z (Z.of_nat (2 * overlap)) == 2 * inject_Z (Z.of_nat overlap))
    as Hdouble.
  { rewrite Nat2Z.inj_mul, inject_Z_mult. reflexivity. }
  destruct (small <=? 2 * overlap)%nat eqn:E.
  - apply Nat.leb_le in E. apply Qle_bool_iff.
    assert (inject_Z (Z.of_nat small) <= inject_Z (Z.of_nat (2 * overlap)))
      as H by (rewrite <- Zle_Qle; lia).
    lra.
  - apply Nat.leb_gt in E.
    destruct (Qle_bool _ _) eqn:E2; [| reflexivity].
    apply Qle_bool_iff in E2.
    assert (inject_Z (Z.of_nat (2 * overlap)) < inject_Z (Z.of_nat small))
      as H by (rewrite <- Zlt_Qlt; lia).
    lra.
Qed.

(** What the template parser takes for a duplicate. *)
Lemma template_duplicate_iff (regex_deal template_deal : ExtractedDeal) :
  TemplateDealParser.is_duplicate_of regex_deal template_deal = true <->
  Num.opt_eqb (price template_deal) (price regex_deal) = true /\
  exists a b,
    product_name template_deal = Some a /\ product_name regex_deal = Some b /\
    a <> "" /\ b <> "" /\
    let n1 := Str.strip (Str.lower (chars a)) in
    let n2 := Str.strip (Str.lower (chars b)) in
    Str.eqb n1 n2 = true \/
    Str.contains n1 n2 = true \/ Str.contains n2 n1 = true \/
    (Nat.min (size (TemplateDealParser.word_set n1))
             (size (TemplateDealParser.word_set n2))
     <= 2 * size (TemplateDealParser.word_set n1
                  ∩ TemplateDealParser.word_set n2))%nat.
Proof.
  unfold TemplateDealParser.is_duplicate_of,
    TemplateDealParser._similar_products.
  rewrite andb_true_iff.
  apply and_iff_compat_l.
  destruct (product_name template_deal) as [a|],
           (product_name regex_deal) as [b|];
    try (split; [discriminate | intros (? & ? & ? & ? & _); discriminate]).
  rewrite half_overlap.
  destruct (decide (a = "")) as [-> | Ha].
  { simpl. split; [discriminate |].
    intros (? & ? & [= <-] & _ & Hne & _). contradiction. }
  destruct (decide (b = "")) as [-> | Hb].
  { rewrite (bool_decide_eq_false_2 (a = "")) by exact Ha. simpl.
    split; [discriminate |].
    intros (? & ? & _ & [= <-] & _ & Hne & _). contradiction. }
  rewrite (bool_decide_eq_false_2 (a = "")) by exact Ha.
  rewrite (bool_decide_eq_false_2 (b = "")) by exact Hb.
  cbn [orb].
  split.
  - intros H. exists a, b. repeat (split; [assumption || reflexivity |]).
    cbv zeta.
    destruct (Str.eqb _ _); [left; reflexivity |].
    destruct (Str.contains (Str.strip (Str.lower (chars a))) _);
      [right; left; reflexivity |].
    destruct (Str.contains (Str.strip (Str.lower (chars b))) _);
      [right; right; left; reflexivity |].
    simpl in H. right; right; right. apply Nat.leb_le. exact H.
  - intros (a' & b' & [= <-] & [= <-] & _ & _ & H). cbv zeta in H.
    destruct (Str.eqb _ _); [reflexivity |].
    destruct (Str.contains (Str.strip (Str.lower (chars a))) _);
      [reflexivity |].
    destruct (Str.contains (Str.strip (Str.lower (chars b))) _);
      [reflexivity |].
    simpl. apply Nat.leb_le.
    destruct H as [H | [H | [H | H]]]; try discriminate. exact H.
Qed.

(** What the learner takes for a duplicate. *)
Lemma learner_duplicate_iff (deal1 deal2 : ExtractedDeal) :
  ProgressiveLearner._deals_similar deal1 deal2 = true <->
  (exists p1 p2,
     price deal1 = Some p1 /\ price deal2 = Some p2 /\
     ~ p1 == 0 /\ ~ p2 == 0 /\ Qabs (p1 - p2) < 1 # 100) \/
  (raw_text deal1 <> "" /\ raw_text deal2 <> "" /\
   (TemplateDealParser.substr (raw_text deal1) (raw_text deal2) = true \/
    TemplateDealParser.substr (raw_text deal2) (raw_text deal1) = true)).
Proof.
  unfold ProgressiveLearner._deals_similar.
  rewrite orb_true_iff.
  assert (Num.truthy (price deal1) && Num.truthy (price deal2) &&
          match price deal1, price deal2 with
          | Some p1, Some p2 => Num.Qltb (Qabs (p1 - p2)) (1 # 100)
          | _, _ => false
          end = true <->
          exists p1 p2,
            price deal1 = Some p1 /\ price deal2 = Some p2 /\
            ~ p1 == 0 /\ ~ p2 == 0 /\ Qabs (p1 - p2) < 1 # 100) as Hprice.
  { destruct (price deal1) as [p1|], (price deal2) as [p2|];
      try (split; [rewrite !andb_true_iff; intros [[? ?] ?]; discriminate
                  | intros (? & ? & ? & ? & _); discriminate]).
    rewrite !andb_true_iff, !truthy_nonzero, Qltb_lt. split.
    - intros [[H1 H2] H3]. exists p1, p2. auto.
    - intros (q1 & q2 & [= <-] & [= <-] & H1 & H2 & H3). auto. }
  rewrite Hprice.
  rewrite !andb_true_iff, !negb_true_iff, !bool_decide_eq_false,
    orb_true_iff.
  tauto.
Qed.



End MergeFacts.

(** ** Training failures *)

Module TrainingFacts.
Import TrainingAux.

Section Facts.

Variable Model : Type.
Variable new_forest : Model.
Variable SKLEARN_AVAILABLE : bool.
Variable fit_and_score :
  list (list Q) -> list bool -> nat -> result (Model * (Q * Q * list Q)).

Local Abbreviation train :=
  (DealMatcher.train Model new_forest SKLEARN_AVAILABLE fit_and_score).
Local Abbreviation retrain :=
  (ProgressiveLearner._retrain_ml_model Model new_forest SKLEARN_AVAILABLE
     fit_and_score).
Local Abbreviation strategy_of :=
  (DealMatcher.active_strategy Model SKLEARN_AVAILABLE).

Lemma train_failure (self : DealMatcher.t Model)
    (data : list TrainingExample) :
  SKLEARN_AVAILABLE = false \/ (length data < 10)%nat ->
  exists reason, train self data = (Ok (DealMatcher.TrainError reason), self).
Proof.
  intros H. unfold DealMatcher.train.
  destruct SKLEARN_AVAILABLE; simpl.
  - destruct H as [H | H]; [discriminate |].
    apply Nat.ltb_lt in H. rewrite H. eauto.
  - eauto.
Qed.

Lemma heuristic_without_classifier (self : DealMatcher.t Model) :
  DealMatcher.model Model self = None \/ SKLEARN_AVAILABLE = false ->
  strategy_of self = DealMatcher.Heuristic.
Proof.
  unfold DealMatcher.active_strategy. intros [-> | ->]; [reflexivity |].
  destruct (DealMatcher.model Model self); reflexivity.
Qed.


End Facts.



End TrainingFacts.

(** ** Target-date prediction *)

Module TrackerFacts.
Import AccuracyTracker TrackerAux.

Lemma Qle_bool_false (a b : Q) : b < a -> Qle_bool a b = false.
Proof.
  intros H. destruct (Qle_bool a b) eqn:E; [| reflexivity].
  apply Qle_bool_iff in E. apply Qlt_not_le in H. contradiction.
Qed.

(** Three daily buckets are enough for a trend. *)
Lemma enough_days_give_a_trend (self : t) (now : Z) (store : option string)
    (days : Z) :
  (3 <= length (td_daily_accuracy (get_trend self now store days)))%nat ->
  td_trend (get_trend self now store days) <> InsufficientData.
Proof.
  unfold get_trend.
  destruct (collect_history self store _) as [|e hist]; simpl; [lia |].
  intros Hlen. unfold classify.
  destruct (length _ <? 2)%nat eqn:E.
  - apply Nat.ltb_lt in E. lia.
  - repeat match goal with
           | |- context [if ?b then _ else _] => destruct b
           end; discriminate.
Qed.



End TrackerFacts.
(** ** The regex parser: further properties *)

Module RegexFacts.
Import RegexDealParser RegexAux.

(** *** Loops over matches *)

Lemma for_each_ok_elem {A B} (f : A -> result (list B)) (l : list A) :
  forall r x,
    for_each f l = Ok r -> x ∈ r ->
    exists a bs, a ∈ l /\ f a = Ok bs /\ x ∈ bs.
Proof.
  induction l as [|a l IH]; intros r x Hr Hx; simpl in Hr.
  - injection Hr as <-. inversion Hx.
  - destruct (f a) as [bs|e] eqn:Hfa; simpl in Hr; [|discriminate].
    destruct (for_each f l) as [rest|e] eqn:Hrest; simpl in Hr; [|discriminate].
    injection Hr as <-. apply elem_of_app in Hx as [Hx | Hx].
    + exists a, bs. split; [left | auto].
    + destruct (IH rest x eq_refl Hx) as (a' & bs' & Ha' & Hf & Hx').
      exists a', bs'. split; [right; exact Ha' | auto].
Qed.

Lemma over_matches_elem (pats : list (Re.regex * string)) (txt : list ascii)
    (body : string -> Re.Match -> result (list ExtractedDeal))
    (r : list ExtractedDeal) (d : ExtractedDeal) :
  over_matches pats txt body = Ok r -> d ∈ r ->
  exists label m bs, body label m = Ok bs /\ d ∈ bs.
Proof.
  unfold over_matches. intros Hr Hd.
  destruct (for_each_ok_elem _ _ _ _ Hr Hd) as (pl & bs & _ & Hin & Hd').
  destruct (for_each_ok_elem _ _ _ _ Hin Hd') as (m & bs' & _ & Hb & Hd'').
  eauto.
Qed.


(** *** Overlap and de-duplication *)

Lemma positions_overlap_sym (p1 p2 : nat * nat) :
  _positions_overlap p1 p2 = _positions_overlap p2 p1.
Proof. unfold _positions_overlap. rewrite orb_comm. reflexivity. Qed.

Lemma insert_by_start_perm (x : ExtractedDeal) (l : list ExtractedDeal) :
  insert_by_start x l ≡ₚ x :: l.
Proof.
  induction l as [|y l IH]; simpl; [reflexivity |].
  destruct (_ <? _)%nat; [reflexivity |].
  rewrite IH. apply Permutation_swap.
Qed.

Lemma sorted_by_start_perm (l : list ExtractedDeal) : sorted_by_start l ≡ₚ l.
Proof.
  unfold sorted_by_start.
  assert (forall acc, fold_left (fun acc x => insert_by_start x acc) l acc
                      ≡ₚ acc ++ l) as H.
  { induction l as [|x l IH]; intros acc; simpl.
    - rewrite app_nil_r. reflexivity.
    - rewrite IH, insert_by_start_perm.
      rewrite (Permutation_middle acc l x). reflexivity. }
  apply (H []).
Qed.

Lemma insert_by_start_sorted (x : ExtractedDeal) (l : list ExtractedDeal) :
  StronglySorted by_start l -> StronglySorted by_start (insert_by_start x l).
Proof.
  induction 1 as [|y l Hl IH Hy]; simpl.
  - repeat constructor.
  - destruct (_ <? _)%nat eqn:Hlt.
    + apply Nat.ltb_lt in Hlt.
      constructor; [constructor; assumption |].
      constructor; [unfold by_start; lia |].
      eapply Forall_impl; [exact Hy |]. unfold by_start. intros; simpl in *; lia.
    + apply Nat.ltb_ge in Hlt.
      constructor; [exact IH |].
      rewrite insert_by_start_perm. constructor; [exact Hlt | exact Hy].
Qed.

Lemma sorted_by_start_sorted (l : list ExtractedDeal) :
  StronglySorted by_start (sorted_by_start l).
Proof.
  unfold sorted_by_start.
  assert (forall acc, StronglySorted by_start acc ->
            StronglySorted by_start
              (fold_left (fun acc x => insert_by_start x acc) l acc)) as H.
  { induction l as [|x l IH]; intros acc Hacc; simpl; [exact Hacc |].
    apply IH, insert_by_start_sorted, Hacc. }
  apply H. constructor.
Qed.

Lemma list_remove_submseteq (x : ExtractedDeal) (l : list ExtractedDeal) :
  list_remove x l ⊆+ l.
Proof.
  induction l as [|y l IH]; simpl; [reflexivity |].
  destruct (deal_eqb y x).
  - apply submseteq_cons. reflexivity.
  - apply submseteq_skip, IH.
Qed.

Lemma list_remove_sublist (x : ExtractedDeal) (l : list ExtractedDeal) :
  list_remove x l `sublist_of` l.
Proof.
  induction l as [|y l IH]; simpl; [reflexivity |].
  destruct (deal_eqb y x).
  - apply sublist_cons. reflexivity.
  - apply sublist_skip, IH.
Qed.

Lemma dedup_step_submseteq (u : list ExtractedDeal) (d : ExtractedDeal) :
  dedup_step u d ⊆+ u ++ [d].
Proof.
  unfold dedup_step.
  destruct (find _ u) as [existing|].
  - destruct (_ <? _)%nat.
    + apply submseteq_app; [apply list_remove_submseteq | reflexivity].
    + apply submseteq_inserts_r. reflexivity.
  - reflexivity.
Qed.

Lemma dedup_loop_submseteq (l : list ExtractedDeal) :
  forall u, fold_left dedup_step l u ⊆+ u ++ l.
Proof.
  induction l as [|d l IH]; intros u; simpl.
  - rewrite app_nil_r. reflexivity.
  - etransitivity; [apply IH |].
    rewrite (cons_middle d u l), app_assoc.
    apply submseteq_app; [apply dedup_step_submseteq | reflexivity].
Qed.

Lemma dedup_submseteq (deals : list ExtractedDeal) :
  _deduplicate_deals deals ⊆+ deals.
Proof.
  unfold _deduplicate_deals. destruct deals as [|d ds]; [reflexivity |].
  etransitivity; [apply dedup_loop_submseteq |].
  simpl. rewrite sorted_by_start_perm. reflexivity.
Qed.

Lemma dedup_step_nonempty (u : list ExtractedDeal) (d : ExtractedDeal) :
  dedup_step u d <> [].
Proof.
  unfold dedup_step.
  destruct (find _ u) as [existing|] eqn:Hf.
  - destruct (_ <? _)%nat.
    + intros H. apply app_eq_nil in H as [_ H]. discriminate.
    + apply find_some in Hf as [Hin _]. intros ->. inversion Hin.
  - intros H. apply app_eq_nil in H as [_ H]. discriminate.
Qed.

Lemma dedup_loop_nonempty (l : list ExtractedDeal) :
  forall u, u <> [] -> fold_left dedup_step l u <> [].
Proof.
  induction l as [|d l IH]; intros u Hu; simpl; [exact Hu |].
  apply IH, dedup_step_nonempty.
Qed.

(** The accumulated list stays ordered by start, below every deal still to
    come. *)
Lemma dedup_step_sorted (u : list ExtractedDeal) (d : ExtractedDeal) :
  StronglySorted by_start u -> Forall (fun e => by_start e d) u ->
  StronglySorted by_start (dedup_step u d).
Proof.
  intros Hs Hb.
  assert (forall v, v `sublist_of` u -> StronglySorted by_start (v ++ [d]))
    as Happ.
  { intros v Hv.
    assert (StronglySorted by_start v) as Hsv.
    { clear Hb. revert Hs. induction Hv as [|x v u Hv IH|x v u Hv IH];
        intros Hs; [constructor | |].
      - inversion Hs as [|? ? Hs' Hx]; subst.
        constructor; [apply IH, Hs' |].
        apply Forall_forall. intros y Hy.
        eapply Forall_forall in Hx; [exact Hx |].
        eapply sublist_submseteq, elem_of_submseteq in Hv; eauto.
      - inversion Hs; subst. auto. }
    assert (Forall (fun e => by_start e d) v) as Hbv.
    { apply Forall_forall. intros y Hy.
      eapply Forall_forall in Hb; [exact Hb |].
      eapply sublist_submseteq, elem_of_submseteq in Hv; eauto. }
    clear Hv. induction Hsv as [|x v Hsv IH Hx]; simpl.
    - repeat constructor.
    - inversion Hbv; subst. constructor; [apply IH; assumption |].
      apply Forall_app. split; [exact Hx | repeat constructor; assumption]. }
  unfold dedup_step.
  destruct (find _ u) as [existing|].
  - destruct (_ <? _)%nat; [|exact Hs].
    apply Happ, list_remove_sublist.
  - apply Happ. reflexivity.
Qed.

Lemma dedup_loop_sorted (l : list ExtractedDeal) :
  forall u,
    StronglySorted by_start (u ++ l) ->
    StronglySorted by_start (fold_left dedup_step l u).
Proof.
  induction l as [|d l IH]; intros u Hs; simpl.
  - rewrite app_nil_r in Hs. exact Hs.
  - apply IH.
    assert (StronglySorted by_start u /\ Forall (fun e => by_start e d) u /\
            StronglySorted by_start (d :: l) /\
            Forall (fun e => Forall (by_start e) (d :: l)) u) as (Hu & Hud & Hdl & Hul).
    { clear IH. induction u as [|x u IHu]; simpl in Hs.
      - repeat split; [constructor | constructor | exact Hs | constructor].
      - inversion Hs as [|? ? Hs' Hx]; subst.
        destruct (IHu Hs') as (Hu & Hud & Hdl & Hul).
        apply Forall_app in Hx as [Hxu Hxl].
        repeat split.
        + constructor; assumption.
        + constructor; [inversion Hxl; assumption | exact Hud].
        + exact Hdl.
        + constructor; assumption. }
    pose proof (dedup_step_sorted u d Hu Hud) as Hstep.
    pose proof (dedup_step_submseteq u d) as Hsub.
    inversion Hdl as [|? ? Hl Hd]; subst.
    clear Hs.
    assert (Forall (fun e => Forall (by_start e) l) (dedup_step u d)) as Hall.
    { apply Forall_forall. intros e He.
      eapply elem_of_submseteq in Hsub; [|exact He].
      apply elem_of_app in Hsub as [Hin | Hin].
      - eapply Forall_forall in Hul; [|exact Hin]. inversion Hul; assumption.
      - apply list_elem_of_singleton in Hin as ->. exact Hd. }
    revert Hstep Hall. generalize (dedup_step u d). intros v Hv Hall.
    induction Hv as [|x v Hv IHv Hx]; simpl; [exact Hl |].
    inversion Hall; subst.
    constructor; [apply IHv; assumption |].
    apply Forall_app. split; assumption.
Qed.


Lemma disjoint_sym (a b : ExtractedDeal) : disjoint a b -> disjoint b a.
Proof. unfold disjoint. rewrite positions_overlap_sym. auto. Qed.

Lemma insert_by_start_disjoint (x : ExtractedDeal) (l : list ExtractedDeal) :
  ForallOrdPairs disjoint l -> Forall (disjoint x) l ->
  ForallOrdPairs disjoint (insert_by_start x l).
Proof.
  induction 1 as [|y l Hy Hl IH]; intros Hx; simpl.
  - repeat constructor.
  - inversion Hx as [|? ? Hxy Hxl]; subst.
    destruct (_ <? _)%nat.
    + constructor; [exact Hx | constructor; assumption].
    + constructor; [|apply IH, Hxl].
      rewrite insert_by_start_perm.
      constructor; [apply disjoint_sym, Hxy | exact Hy].
Qed.

Lemma sorted_by_start_disjoint (l : list ExtractedDeal) :
  ForallOrdPairs disjoint l -> ForallOrdPairs disjoint (sorted_by_start l).
Proof.
  unfold sorted_by_start.
  assert (forall acc,
            ForallOrdPairs disjoint acc -> ForallOrdPairs disjoint l ->
            Forall (fun a => Forall (disjoint a) l) acc ->
            ForallOrdPairs disjoint
              (fold_left (fun acc x => insert_by_start x acc) l acc)) as H.
  { induction l as [|x l IH]; intros acc Hacc Hl Hal; simpl; [exact Hacc |].
    inversion Hl as [|? ? Hx Hl']; subst.
    apply IH; [| exact Hl' |].
    - apply insert_by_start_disjoint; [exact Hacc |].
      eapply Forall_impl; [exact Hal |].
      intros a Ha. inversion Ha; subst. apply disjoint_sym. assumption.
    - rewrite insert_by_start_perm. constructor; [exact Hx |].
      eapply Forall_impl; [exact Hal |].
      intros a Ha. inversion Ha; subst. assumption. }
  intros Hl. apply H; [constructor | exact Hl | constructor].
Qed.

Lemma dedup_loop_disjoint (l : list ExtractedDeal) :
  forall u,
    ForallOrdPairs disjoint l ->
    Forall (fun e => Forall (disjoint e) l) u ->
    fold_left dedup_step l u = u ++ l.
Proof.
  induction l as [|d l IH]; intros u Hl Hu; simpl.
  - rewrite app_nil_r. reflexivity.
  - inversion Hl as [|? ? Hd Hl']; subst.
    assert (dedup_step u d = u ++ [d]) as ->.
    { unfold dedup_step.
      destruct (find _ u) as [existing|] eqn:Hf; [|reflexivity].
      apply find_some in Hf as [Hin Hov].
      apply list_elem_of_In in Hin.
      eapply Forall_forall in Hu; [|exact Hin].
      inversion Hu as [|? ? Hed _]; subst.
      apply disjoint_sym in Hed. unfold disjoint in Hed. congruence. }
    rewrite IH, <- app_assoc; [reflexivity | exact Hl' |].
    apply Forall_app. split.
    + eapply Forall_impl; [exact Hu |].
      intros a Ha. inversion Ha; assumption.
    + repeat constructor. exact Hd.
Qed.

(** *** Confidence of regex deals *)

Lemma known_type_confidence (d : ExtractedDeal) :
  deal_type d <> UNKNOWN -> 4 # 10 <= deal_confidence d <= 1.
Proof.
  intros Hty. unfold deal_confidence.
  rewrite (bool_decide_eq_true_2 _ Hty).
  split.
  - apply Q.min_glb; [|discriminate].
    repeat match goal with
           | |- context [if ?b then _ else _] => destruct b
           end; lra.
  - apply Q.le_min_r.
Qed.

Ltac invert_body H :=
  repeat match type of H with
         | context [float_group ?n ?m] =>
             destruct (float_group n m); simpl in H; [|discriminate H]
         | context [int_group ?n ?m] =>
             destruct (int_group n m); simpl in H; [|discriminate H]
         | context [Num.fdiv ?a ?b] =>
             let E := fresh "Hdiv" in
             destruct (Num.fdiv a b) eqn:E; simpl in H; [|discriminate H]
         | context [if ?b then _ else _] => destruct b; simpl in H
         end.

Ltac single_deal H Hd :=
  try discriminate H;
  injection H as <-;
  try (inversion Hd; fail);
  apply list_elem_of_singleton in Hd as ->.

Lemma extracted_types_known (self : t) (txt : list ascii)
    (r : list ExtractedDeal) (d : ExtractedDeal) :
  _extract_prices txt = Ok r \/ _extract_multi_buy txt = Ok r \/
  _extract_bogo txt = Ok r \/ _extract_discounts txt = Ok r \/
  _extract_store_specific self txt = Ok r ->
  d ∈ r -> deal_type d <> UNKNOWN.
Proof.
  intros [H | [H | [H | [H | H]]]] Hd.
  - destruct (over_matches_elem _ _ _ _ _ H Hd) as (label & m & bs & Hb & Hin).
    simpl in Hb. invert_body Hb; single_deal Hb Hin; simpl; discriminate.
  - destruct (over_matches_elem _ _ _ _ _ H Hd) as (label & m & bs & Hb & Hin).
    simpl in Hb. invert_body Hb; single_deal Hb Hin; simpl; discriminate.
  - destruct (over_matches_elem _ _ _ _ _ H Hd) as (label & m & bs & Hb & Hin).
    simpl in Hb. invert_body Hb; single_deal Hb Hin; simpl; discriminate.
  - destruct (over_matches_elem _ _ _ _ _ H Hd) as (label & m & bs & Hb & Hin).
    simpl in Hb. invert_body Hb; single_deal Hb Hin; simpl; discriminate.
  - unfold _extract_store_specific in H.
    destruct (store_hint self) as [hint|];
      [|injection H as <-; inversion Hd].
    destruct (store_patterns hint) as [pats|];
      [|injection H as <-; inversion Hd].
    destruct (over_matches_elem _ _ _ _ _ H Hd) as (label & m & bs & Hb & Hin).
    simpl in Hb. invert_body Hb; single_deal Hb Hin; simpl; discriminate.
Qed.


Lemma parse_origin (self : t) (txt : string) (deals : list ExtractedDeal) :
  parse self txt = Ok deals ->
  exists ds,
    deals = _calculate_confidence ds /\
    Forall (fun d => deal_type d <> UNKNOWN) ds.
Proof.
  unfold parse, parse_chars. intros H.
  set (cleaned := _clean_text (chars txt)) in *.
  destruct (_extract_prices cleaned) as [d1|] eqn:H1; simpl in H; [|discriminate].
  destruct (_extract_multi_buy cleaned) as [d2|] eqn:H2; simpl in H;
    [|discriminate].
  destruct (_extract_bogo cleaned) as [d3|] eqn:H3; simpl in H; [|discriminate].
  destruct (_extract_discounts cleaned) as [d4|] eqn:H4; simpl in H;
    [|discriminate].
  assert (exists d5,
            (_extract_store_specific self cleaned = Ok d5 \/ d5 = []) /\
            deals = _calculate_confidence
                      (_deduplicate_deals
                         (_associate_products cleaned
                            (d1 ++ d2 ++ d3 ++ d4 ++ d5)))) as (d5 & H5 & ->).
  { destruct (store_hint self) as [hint|].
    - destruct (bool_decide _).
      + destruct (_extract_store_specific self cleaned) as [d5|] eqn:H5;
          simpl in H; [|discriminate].
        injection H as <-. exists d5. auto.
      + simpl in H. injection H as <-. exists []. auto.
    - simpl in H. injection H as <-. exists []. auto. }
  eexists. split; [reflexivity |].
  apply Forall_forall. intros d Hd.
  eapply elem_of_submseteq in Hd; [|apply dedup_submseteq].
  unfold _associate_products in Hd.
  apply list_elem_of_fmap in Hd as (d0 & -> & Hd0).
  assert (deal_type d0 <> UNKNOWN) as Hty.
  { rewrite !elem_of_app in Hd0.
    destruct Hd0 as [Hd0 | [Hd0 | [Hd0 | [Hd0 | Hd0]]]];
      try (eapply (extracted_types_known self); [|exact Hd0]; eauto 6; fail).
    destruct H5 as [H5 | ->]; [|inversion Hd0].
    eapply (extracted_types_known self); [|exact Hd0]; eauto 6. }
  destruct (closest_before _ _ _ _); exact Hty.
Qed.

(** X1: [_deduplicate_deals] returns only deals it was given, each at most
    as often as given, ordered by start position, and at least one deal
    whenever it is given any. *)
Theorem dedup_returns_given_deals (deals : list ExtractedDeal) :
  _deduplicate_deals deals ⊆+ deals /\
  (forall d, d ∈ _deduplicate_deals deals -> d ∈ deals) /\
  (length (_deduplicate_deals deals) <= length deals)%nat /\
  StronglySorted (fun a b => ((position a).1 <= (position b).1)%nat)
    (_deduplicate_deals deals) /\
  (_deduplicate_deals deals = [] <-> deals = []).
Proof.
  pose proof (dedup_submseteq deals) as Hsub.
  split; [exact Hsub |].
  split; [intros d Hd; eapply elem_of_submseteq; eauto |].
  split; [apply submseteq_length, Hsub |].
  split.
  - unfold _deduplicate_deals. destruct deals as [|d ds]; [constructor |].
    apply dedup_loop_sorted. simpl. apply sorted_by_start_sorted.
  - unfold _deduplicate_deals. destruct deals as [|d ds]; [tauto |].
    split; [|discriminate]. intros Hnil. exfalso. revert Hnil.
    pose proof (sorted_by_start_perm (d :: ds)) as Hp.
    destruct (sorted_by_start (d :: ds)) as [|x l] eqn:Hs.
    + apply Permutation_nil_l in Hp. discriminate.
    + simpl. apply dedup_loop_nonempty.
      change (dedup_step [] x <> []). apply dedup_step_nonempty.
Qed.

(** X2: when no two of the given deals overlap, [_deduplicate_deals] drops
    none of them: it returns the deals sorted by start position. *)
Theorem dedup_keeps_disjoint_deals (deals : list ExtractedDeal) :
  ForallOrdPairs
    (fun a b => _positions_overlap (position a) (position b) = false) deals ->
  _deduplicate_deals deals = sorted_by_start deals /\
  _deduplicate_deals deals ≡ₚ deals.
Proof.
  intros H.
  assert (_deduplicate_deals deals = sorted_by_start deals) as Heq.
  { unfold _deduplicate_deals. destruct deals as [|d ds]; [reflexivity |].
    rewrite dedup_loop_disjoint; [reflexivity | | constructor].
    apply sorted_by_start_disjoint, H. }
  split; [exact Heq |].
  rewrite Heq. apply sorted_by_start_perm.
Qed.

Lemma dedup_keeps_disjoint_deals_witness :
  let a := set_position (7, 12)%nat (new_deal "$4.99" PRICE) in
  let b := set_position (0, 5)%nat (new_deal "$2.50" PRICE) in
  _deduplicate_deals [a; b] = [b; a].
Proof.
  intros a b.
  assert (ForallOrdPairs
            (fun a b => _positions_overlap (position a) (position b) = false)
            [a; b]) as H.
  { repeat constructor. }
  apply dedup_keeps_disjoint_deals in H as [H _].
  rewrite H. reflexivity.
Defined.



(** X4: every deal [RegexDealParser.parse] returns has a deal type other
    than [UNKNOWN], and therefore a confidence of at least 0.4. *)
Theorem parsed_deals_have_known_type (self : t) (txt : string)
    (deals : list ExtractedDeal) :
  parse self txt = Ok deals ->
  Forall (fun d => deal_type d <> UNKNOWN /\ 4 # 10 <= confidence d <= 1)
    deals.
Proof.
  intros H. apply parse_origin in H as (ds & -> & Hty).
  unfold _calculate_confidence. apply Forall_map.
  eapply Forall_impl; [exact Hty |].
  intros d Hd. simpl. split; [exact Hd | apply known_type_confidence, Hd].
Qed.

Lemma parsed_deals_have_known_type_witness :
  exists d,
    parse (new None) "Save $2.00 on bread" = Ok [d] /\
    deal_type d <> UNKNOWN /\ 4 # 10 <= confidence d <= 1.
Proof.
  let v := eval vm_compute in (parse (new None) "Save $2.00 on bread") in
  match v with Ok [?d] => exists d end.
  assert (parse (new None) "Save $2.00 on bread" = Ok [_]) as H
    by (vm_compute; reflexivity).
  split; [exact H |].
  apply parsed_deals_have_known_type in H.
  inversion H; subst. assumption.
Defined.

(** X5: a store hint that names no store of [STORE_PATTERNS] has no effect:
    [parse] returns what a parser without a hint returns. *)
Theorem unknown_store_hint_is_ignored (hint txt : string) :
  store_patterns (text (Str.lower (chars hint))) = None ->
  parse (new (Some hint)) txt = parse (new None) txt.
Proof.
  intros Hnone. unfold parse, parse_chars, new. simpl.
  destruct (bool_decide (hint = "")); simpl; [reflexivity |].
  rewrite Hnone. simpl. reflexivity.
Qed.

Lemma unknown_store_hint_is_ignored_witness :
  parse (new (Some "Corner Shop")) "Milk $3.49" = parse (new None) "Milk $3.49".
Proof.
  apply unknown_store_hint_is_ignored. vm_compute. reflexivity.
Defined.


(** *** Product association *)

Lemma closest_before_spec (start : nat) (cands : list candidate) :
  forall closest min_distance,
    match closest with
    | Some p0 => ((c_position p0).2 <= start /\
                  start - (c_position p0).2 = min_distance)%nat
    | None => True
    end ->
    match closest_before start cands closest min_distance with
    | Some p =>
        (closest = Some p \/
         (p ∈ cands /\ (start - (c_position p).2 < min_distance)%nat)) /\
        ((c_position p).2 <= start)%nat /\
        (forall q, q ∈ cands -> ((c_position q).2 <= start)%nat ->
                   (start - (c_position p).2 <= start - (c_position q).2)%nat)
    | None =>
        closest = None /\
        (forall q, q ∈ cands -> ((c_position q).2 <= start)%nat ->
                   (min_distance <= start - (c_position q).2)%nat)
    end.
Proof.
  induction cands as [|c cands IH]; intros closest md Hinv; simpl.
  - destruct closest as [p0|].
    + destruct Hinv as [Hle Hd].
      split; [left; reflexivity |]. split; [exact Hle |].
      intros q Hq. inversion Hq.
    + split; [reflexivity |]. intros q Hq. inversion Hq.
  - destruct (_ <=? _)%nat eqn:Hend.
    + apply Nat.leb_le in Hend.
      destruct (_ <? _)%nat eqn:Hlt.
      * apply Nat.ltb_lt in Hlt.
        specialize (IH (Some c) (start - (c_position c).2)%nat
                      (conj Hend eq_refl)).
        destruct (closest_before _ _ _ _) as [p|].
        -- destruct IH as (Hsrc & Hle & Hmin).
           assert ((start - (c_position p).2 <= start - (c_position c).2)%nat)
             as Hpc.
           { destruct Hsrc as [Heq | [_ Hlt']]; [|lia].
             injection Heq as ->. lia. }
           split; [|split; [exact Hle |]].
           ++ right. destruct Hsrc as [Heq | [Hin Hlt']].
              ** injection Heq as ->. split; [left | exact Hlt].
              ** split; [right; exact Hin | lia].
           ++ intros q Hq Hqe. apply elem_of_cons in Hq as [-> | Hq];
                [exact Hpc | apply Hmin; assumption].
        -- destruct IH as [Habs _]. discriminate.
      * apply Nat.ltb_ge in Hlt.
        specialize (IH closest md Hinv).
        destruct (closest_before _ _ _ _) as [p|].
        -- destruct IH as (Hsrc & Hle & Hmin).
           split; [|split; [exact Hle |]].
           ++ destruct Hsrc as [Heq | [Hin Hlt']]; [left; exact Heq |].
              right. split; [right; exact Hin | exact Hlt'].
           ++ intros q Hq Hqe. apply elem_of_cons in Hq as [-> | Hq];
                [|apply Hmin; assumption].
              destruct Hsrc as [Heq | [_ Hlt']]; [|lia].
              subst closest. destruct Hinv as [_ Hd]. lia.
        -- destruct IH as [Hnone Hmin]. split; [exact Hnone |].
           intros q Hq Hqe. apply elem_of_cons in Hq as [-> | Hq];
             [exact Hlt | apply Hmin; assumption].
    + apply Nat.leb_gt in Hend.
      specialize (IH closest md Hinv).
      destruct (closest_before _ _ _ _) as [p|].
      * destruct IH as (Hsrc & Hle & Hmin).
        split; [|split; [exact Hle |]].
        -- destruct Hsrc as [Heq | [Hin Hlt']]; [left; exact Heq |].
           right. split; [right; exact Hin | exact Hlt'].
        -- intros q Hq Hqe. apply elem_of_cons in Hq as [-> | Hq];
             [lia | apply Hmin; assumption].
      * destruct IH as [Hnone Hmin]. split; [exact Hnone |].
        intros q Hq Hqe. apply elem_of_cons in Hq as [-> | Hq];
          [lia | apply Hmin; assumption].
Qed.

(** X6: [_associate_products] changes nothing of a deal but its product
    name.  A deal with no product candidate ending within the 100
    characters before its start is left as it is; any other deal gets the
    cleaned name of a candidate that ends closest before the deal. *)
Theorem products_come_from_closest_candidate (txt : list ascii)
    (deals : list ExtractedDeal) :
  Forall2 (fun d d' =>
    let start := (position d).1 in
    let near p := ((c_position p).2 <= start /\
                   start - (c_position p).2 < 100)%nat in
    (d' = d /\ forall p, p ∈ product_candidates txt -> ~ near p) \/
    (exists p,
       p ∈ product_candidates txt /\ near p /\
       (forall q, q ∈ product_candidates txt -> near q ->
                  ((c_position q).2 <= (c_position p).2)%nat) /\
       d' = set_product_name
              (Some (text (_clean_product_name (c_name p)))) d))
    deals (_associate_products txt deals).
Proof.
  unfold _associate_products. apply Forall2_fmap_r, Forall_Forall2_diag.
  apply Forall_forall. intros d _. cbv beta zeta.
  pose proof (closest_before_spec (position d).1 (product_candidates txt)
                None 100 I) as H.
  destruct (closest_before (position d).1 (product_candidates txt) None 100)
    as [p|] eqn:E.
  - destruct H as ([Habs | [Hin Hlt]] & Hle & Hmin); [discriminate |].
    right. exists p. split; [exact Hin |]. split; [split; assumption |].
    split; [|rewrite E; reflexivity].
    intros q Hq [Hqe _]. specialize (Hmin q Hq Hqe). lia.
  - destruct H as [_ Hmin]. left. split; [rewrite E; reflexivity |].
    intros q Hq [Hqe Hqd]. specialize (Hmin q Hq Hqe). lia.
Qed.

(** *** Cleaning *)

Lemma lstrip_head (l : list ascii) (c : ascii) :
  head (Str.lstrip l) = Some c -> is_space c = false.
Proof.
  induction l as [|x l IH]; simpl; [discriminate |].
  destruct (is_space x) eqn:Hx; [exact IH |].
  simpl. intros [= <-]. exact Hx.
Qed.

Lemma lstrip_suffix (l : list ascii) : Str.lstrip l `suffix_of` l.
Proof.
  induction l as [|x l IH]; simpl; [reflexivity |].
  destruct (is_space x); [|reflexivity].
  apply suffix_cons_r, IH.
Qed.

Lemma strip_outer (l : list ascii) (c : ascii) :
  head (Str.strip l) = Some c \/ last (Str.strip l) = Some c ->
  is_space c = false.
Proof.
  unfold Str.strip.
  set (a := Str.lstrip l). set (b := Str.lstrip (rev a)).
  intros [H | H].
  - destruct (lstrip_suffix (rev a)) as [k Hk]. fold b in Hk.
    assert (a = rev b ++ rev k) as Ha.
    { rewrite <- rev_app_distr, <- Hk, rev_involutive. reflexivity. }
    destruct (rev b) as [|x r] eqn:Hr; [discriminate |].
    simpl in H. injection H as ->.
    apply (lstrip_head l). fold a. rewrite Ha. reflexivity.
  - apply (lstrip_head (rev a)). fold b.
    destruct b as [|x r]; [discriminate H |].
    simpl in H. rewrite last_snoc in H. exact H.
Qed.



End RegexFacts.

(** ** The matcher: further properties *)

Module MatcherFacts.
Import Similarity SimilarityAux SimilarityFacts MatcherAux.

(** *** Overlap scores *)

Lemma ratio_unit (a b : nat) : (a <= b)%nat -> (0 < b)%nat -> 0 <= ratio a b <= 1.
Proof.
  intros Hab Hb. unfold ratio. fold (qnat a) (qnat b).
  apply part_of_whole;
    [apply qnat_nonneg | apply qnat_le, Hab | apply qnat_pos, Hb].
Qed.

Lemma ratio_same (a : nat) : (0 < a)%nat -> ratio a a == 1.
Proof.
  intros Ha. unfold ratio. fold (qnat a).
  pose proof (qnat_pos a Ha). field. lra.
Qed.

Lemma ngram_overlap_unit (s1 s2 : list ascii) (n : nat) :
  0 <= _ngram_overlap s1 s2 n <= 1.
Proof.
  unfold _ngram_overlap.
  destruct s1 as [|a s1]; [lra |]. destruct s2 as [|b s2]; [lra |].
  destruct (_ || _); [lra |].
  destruct (0 <? _)%nat eqn:Hpos; [|lra].
  apply Nat.ltb_lt in Hpos.
  apply ratio_unit; [|exact Hpos].
  apply Nat.min_glb; apply subseteq_size;
    [apply intersection_subseteq_l | apply intersection_subseteq_r].
Qed.

Lemma word_overlap_unit (s1 s2 : list ascii) : 0 <= _word_overlap s1 s2 <= 1.
Proof.
  unfold _word_overlap.
  destruct (_ || _); [lra |].
  destruct (0 <? _)%nat eqn:Hpos; [|lra].
  apply Nat.ltb_lt in Hpos.
  apply ratio_unit; [|exact Hpos].
  apply subseteq_size.
  etransitivity; [apply intersection_subseteq_l | apply union_subseteq_l].
Qed.

(** X8: the n-gram overlap coefficient and the word overlap of two strings
    lie between 0 and 1, for every pair of strings and every n. *)
Theorem overlap_scores_in_unit_interval (s1 s2 : list ascii) (n : nat) :
  0 <= _ngram_overlap s1 s2 n <= 1 /\ 0 <= _word_overlap s1 s2 <= 1.
Proof. split; [apply ngram_overlap_unit | apply word_overlap_unit]. Qed.

(** *** Identical names *)

Lemma chars_eqb_refl (c : ascii) : Chars.eqb c c = true.
Proof. unfold Chars.eqb. apply Nat.eqb_refl. Qed.

Lemma str_eqb_refl (s : list ascii) : Str.eqb s s = true.
Proof.
  induction s as [|c s IH]; simpl; [reflexivity |].
  rewrite chars_eqb_refl, IH. reflexivity.
Qed.

Lemma fill_row_diagonal (c1 : ascii) (s2 : list ascii) :
  forall above left k,
    length above = S (length s2) ->
    above !! k = Some 0%nat -> s2 !! k = Some c1 ->
    fill_row c1 s2 above left !! k = Some 0%nat.
Proof.
  induction s2 as [|c2 s2 IH]; intros above left k Hlen Ha Hc;
    [rewrite lookup_nil in Hc; discriminate |].
  destruct above as [|diag [|up above]]; simpl in Hlen; try lia.
  cbn [fill_row].
  destruct k as [|k].
  - simpl in Ha, Hc. injection Ha as ->. injection Hc as ->.
    rewrite chars_eqb_refl. simpl. f_equal. lia.
  - simpl in Ha, Hc. simpl.
    apply IH; [simpl; lia | exact Ha | exact Hc].
Qed.

Lemma rows_from_diagonal (s1 : list ascii) :
  forall i pre above,
    length pre = i ->
    length above = S (length (pre ++ s1)) ->
    above !! i = Some 0%nat ->
    rows_from i s1 (pre ++ s1) above !! length (pre ++ s1) = Some 0%nat.
Proof.
  induction s1 as [|c s1 IH]; intros i pre above Hi Hlen Ha; simpl.
  - rewrite app_nil_r, Hi. exact Ha.
  - rewrite (cons_middle c pre s1), app_assoc.
    apply IH.
    + rewrite length_app. simpl. lia.
    + unfold next_row. simpl.
      rewrite fill_row_length; rewrite <- app_assoc; simpl; [reflexivity |].
      exact Hlen.
    + unfold next_row. replace (length pre + 1)%nat with (S i) by lia.
      rewrite <- app_assoc. simpl.
      apply fill_row_diagonal; [exact Hlen | exact Ha |].
      rewrite lookup_app_r by lia. rewrite Hi, Nat.sub_diag. reflexivity.
Qed.

Lemma levenshtein_same (s : list ascii) : levenshtein s s = 0%nat.
Proof.
  unfold levenshtein.
  pose proof (rows_from_diagonal s 0 [] (seq 0 (S (length s))) eq_refl) as H.
  cbn [app] in H. rewrite H; [reflexivity | | reflexivity].
  rewrite length_seq. reflexivity.
Qed.

Lemma ngrams_nonempty (n : nat) (s : list ascii) :
  (n <= length s)%nat -> ngrams n s <> ∅.
Proof.
  intros Hn. unfold ngrams.
  destruct (Z.to_nat (Z.of_nat (length s) - Z.of_nat n + 1)) as [|k] eqn:Hk;
    [lia |].
  simpl. intros Habs.
  apply (not_elem_of_empty (C := gset string)
           (text (Str.slice 0 (0 + n) s))).
  rewrite <- Habs. apply elem_of_union_l, elem_of_singleton. reflexivity.
Qed.

(** X9: a non-empty string compared with itself has Levenshtein similarity
    1 and Jaro-Winkler similarity 1, and n-gram overlap 1 for every n up to
    its length. *)
Theorem identical_names_score_one (s : list ascii) (n : nat) :
  s <> [] ->
  _levenshtein_similarity s s == 1 /\
  _jaro_winkler_similarity s s = Ok 1 /\
  ((n <= length s)%nat -> _ngram_overlap s s n == 1).
Proof.
  intros Hs. destruct s as [|c s]; [congruence |].
  split; [|split].
  - unfold _levenshtein_similarity. rewrite levenshtein_same.
    unfold ratio. simpl. unfold Qdiv. rewrite Qmult_0_l. reflexivity.
  - unfold _jaro_winkler_similarity. rewrite str_eqb_refl. reflexivity.
  - intros Hn. unfold _ngram_overlap.
    pose proof (ngrams_nonempty n (c :: s) Hn) as Hne.
    rewrite (bool_decide_eq_false_2 _ Hne). simpl orb. cbv iota.
    assert (ngrams n (c :: s) ∩ ngrams n (c :: s) = ngrams n (c :: s)) as ->
      by apply (idemp_L (∩)).
    rewrite Nat.min_id.
    assert (0 < size (ngrams n (c :: s)))%nat as Hpos.
    { destruct (size (ngrams n (c :: s))) eqn:Hsz; [|lia].
      apply size_empty_inv in Hsz. apply leibniz_equiv in Hsz. congruence. }
    apply Nat.ltb_lt in Hpos as Hb. rewrite Hb.
    apply ratio_same, Hpos.
Qed.

Lemma identical_names_score_one_witness :
  _levenshtein_similarity (chars "milk") (chars "milk") == 1 /\
  _jaro_winkler_similarity (chars "milk") (chars "milk") = Ok 1 /\
  _ngram_overlap (chars "milk") (chars "milk") 2 == 1.
Proof.
  destruct (identical_names_score_one (chars "milk") 2) as (H1 & H2 & H3);
    [discriminate |].
  split; [exact H1 |]. split; [exact H2 |].
  apply H3. simpl. lia.
Defined.


(** *** Features and heuristic scores *)

Lemma jaro_winkler_unit (s1 s2 : list ascii) :
  exists q, _jaro_winkler_similarity s1 s2 = Ok q /\ 0 <= q <= 1.
Proof.
  unfold _jaro_winkler_similarity.
  destruct s1 as [|a s1]; [exists 0; split; [reflexivity | lra] |].
  destruct s2 as [|b s2]; [exists 0; split; [reflexivity | lra] |].
  destruct (Str.eqb (a :: s1) (b :: s2));
    [exists 1; split; [reflexivity | lra] |].
  set (len1 := length (a :: s1)). set (len2 := length (b :: s2)).
  set (md := (Z.of_nat (Nat.max len1 len2) / 2 - 1)%Z).
  set (st := fold_left (match_step (a :: s1) (b :: s2) md) (seq 0 len1) _).
  assert (matched_upto len1 len2 len1 st) as (H1 & H2 & H3 & H4 & H5).
  { subst st.
    apply (match_loop_invariant (a :: s1) (b :: s2) md len1 len2 len1 0%nat).
    unfold matched_upto. simpl.
    rewrite !length_replicate, !trues_replicate_false.
    repeat split; lia. }
  destruct (matches st =? 0)%nat eqn:Hz;
    [exists 0; split; [reflexivity | lra] |].
  apply Nat.eqb_neq in Hz.
  destruct (count_transpositions_total (a :: s1) (b :: s2)
              (s1_matches st) (s2_matches st) H2 (seq 0 len1) 0%nat 0%nat)
    as (t & Ht & Htle).
  { intros i Hi. apply elem_of_seq in Hi. subst len1. lia. }
  { rewrite drop_0. pose proof (marked_seq_le (s1_matches st) len1 0%nat) as Hm.
    rewrite drop_0 in Hm. lia. }
  rewrite Ht. simpl.
  eexists. split; [reflexivity |].
  pose proof (marked_seq_le (s1_matches st) len1 0%nat) as Hm.
  rewrite drop_0 in Hm.
  pose proof (trues_le_length (s2_matches st)) as Hl2.
  apply winkler_unit.
  - apply jaro_unit; lia.
  - split; [apply qnat_nonneg |].
    change 4 with (qnat 4). apply qnat_le.
    destruct (Chars.eqb a b); [| lia].
    pose proof (common_prefix_le
                  (Nat.min (length s1) (Nat.min (length s2) 3)) s1 s2).
    lia.
Qed.

Lemma indicator_unit (b : bool) : 0 <= DealMatcher.indicator b <= 1.
Proof. destruct b; simpl; lra. Qed.

Lemma features_score_unit (deal : ExtractedDeal) (p : Product) :
  frequency_is_fraction p ->
  exists f,
    DealMatcher._calculate_features deal p = Ok f /\
    0 <= DealMatcher.dot f DealMatcher.weights <= 1.
Proof.
  intros Hfreq. unfold DealMatcher._calculate_features.
  set (dn := Str.lower _). set (pn := ProductCatalogOps.name_lower p).
  destruct (jaro_winkler_unit dn pn) as (jw & -> & Hjw).
  cbn [mbind result_bind].
  eexists. split; [reflexivity |].
  pose proof (levenshtein_similarity_unit dn pn) as Hlev.
  pose proof (ngram_overlap_unit dn pn 2) as Hn2.
  pose proof (ngram_overlap_unit dn pn 3) as Hn3.
  pose proof (word_overlap_unit dn pn) as Hw.
  set (lev := _levenshtein_similarity dn pn) in *.
  set (n2 := _ngram_overlap dn pn 2) in *.
  set (n3 := _ngram_overlap dn pn 3) in *.
  set (w := _word_overlap dn pn) in *.
  match goal with
  | |- context [[lev; jw; n2; n3; w; ?c; ?pr; ?fr; ?br; ?un]] =>
      assert (0 <= c <= 1) as Hc by apply indicator_unit;
      assert (0 <= pr <= 1) as Hpr;
      [| assert (0 <= fr <= 1) as Hfr;
         [| assert (0 <= br <= 1) as Hbr by apply indicator_unit;
            assert (0 <= un <= 1) as Hun;
            [| set (c' := c) in *; set (pr' := pr) in *;
               set (fr' := fr) in *; set (br' := br) in *;
               set (un' := un) in * ]]]
  end.
  - destruct (price deal) as [pd|]; [|lra].
    destruct (p_typical_price p) as [typical|]; [|lra].
    destruct (Num.truthy (Some pd) && Num.Qltb 0 typical); [|lra].
    split; [apply Q.le_max_l |].
    apply Q.max_lub; [lra |].
    pose proof (Qabs_nonneg (pd / typical - 1)). lra.
  - unfold frequency_is_fraction in Hfreq.
    destruct (p_purchase_frequency p); simpl; [exact Hfreq | lra].
  - destruct (unit deal) as [u|]; [|lra].
    destruct (p_unit p) as [pu|]; [|lra].
    destruct (bool_decide (u = "")); [lra | apply indicator_unit].
  - unfold DealMatcher.dot, DealMatcher.weights.
    cbn [zip_with fold_left]. lra.
Qed.

Lemma features_of_unit (deal : ExtractedDeal) (ps : list Product) :
  Forall frequency_is_fraction ps ->
  exists cf,
    DealMatcher.features_of deal ps = Ok cf /\
    Forall (fun pf : Product * list Q =>
              0 <= DealMatcher.dot pf.2 DealMatcher.weights <= 1) cf.
Proof.
  unfold DealMatcher.features_of.
  induction 1 as [|p ps Hp Hps (cf & Hcf & Hall)]; simpl.
  - exists []. split; [reflexivity | constructor].
  - destruct (features_score_unit deal p Hp) as (f & -> & Hf).
    cbn [mbind result_bind]. rewrite Hcf. cbn [mbind result_bind].
    eexists. split; [reflexivity |].
    constructor; [exact Hf | exact Hall].
Qed.

(** *** Ranking *)

Lemma Qltb_true (a b : Q) : Num.Qltb a b = true -> a < b.
Proof.
  unfold Num.Qltb. intros H. apply negb_true_iff in H.
  apply Qnot_le_lt. intros Hle. apply Qle_bool_iff in Hle. congruence.
Qed.

Lemma Qltb_false (a b : Q) : Num.Qltb a b = false -> b <= a.
Proof.
  unfold Num.Qltb. intros H. apply negb_false_iff in H.
  apply Qle_bool_iff. exact H.
Qed.

Lemma insert_desc_perm {A} (x : A * Q) (l : list (A * Q)) :
  DealMatcher.insert_desc x l ≡ₚ x :: l.
Proof.
  induction l as [|y l IH]; simpl; [reflexivity |].
  destruct (Num.Qltb _ _); [reflexivity |].
  rewrite IH. apply Permutation_swap.
Qed.

Lemma insert_desc_sorted {A} (x : A * Q) (l : list (A * Q)) :
  StronglySorted by_score_desc l ->
  StronglySorted by_score_desc (DealMatcher.insert_desc x l).
Proof.
  induction 1 as [|y l Hl IH Hy]; simpl.
  - repeat constructor.
  - destruct (Num.Qltb _ _) eqn:Hlt.
    + apply Qltb_true in Hlt.
      constructor; [constructor; assumption |].
      constructor; [unfold by_score_desc; lra |].
      eapply Forall_impl; [exact Hy |].
      unfold by_score_desc. intros z Hz. lra.
    + apply Qltb_false in Hlt.
      constructor; [exact IH |].
      rewrite insert_desc_perm. constructor; [exact Hlt | exact Hy].
Qed.

Lemma sort_desc_spec {A} (l : list (A * Q)) :
  DealMatcher.sort_desc l ≡ₚ l /\
  StronglySorted by_score_desc (DealMatcher.sort_desc l).
Proof.
  unfold DealMatcher.sort_desc.
  assert (forall acc,
            StronglySorted by_score_desc acc ->
            fold_left (fun acc x => DealMatcher.insert_desc x acc) l acc
            ≡ₚ acc ++ l /\
            StronglySorted by_score_desc
              (fold_left (fun acc x => DealMatcher.insert_desc x acc) l acc))
    as H.
  { induction l as [|x l IH]; intros acc Hacc; simpl.
    - rewrite app_nil_r. split; [reflexivity | exact Hacc].
    - destruct (IH _ (insert_desc_sorted x acc Hacc)) as [Hp Hs].
      split; [|exact Hs].
      rewrite Hp, insert_desc_perm, (Permutation_middle acc l x).
      reflexivity. }
  apply (H []). constructor.
Qed.

(** X10: [_heuristic_match] scores every candidate by the weighted sum of
    its features, ranks the candidates by descending score, and returns the
    first [top_k] of them: [min(top_k, number of candidates)] matches. *)
Theorem heuristic_matches_are_ranked (deal : ExtractedDeal)
    (candidate_features : list (Product * list Q)) (top_k : nat) :
  exists ranked : list ((Product * list Q) * Q),
    ranked ≡ₚ map (fun pf : Product * list Q =>
                     (pf, DealMatcher.dot pf.2 DealMatcher.weights))
                candidate_features /\
    StronglySorted (fun a b => b.2 <= a.2) ranked /\
    DealMatcher._heuristic_match deal candidate_features top_k
    = map (fun s : (Product * list Q) * Q =>
             DealMatcher.make_match deal s.1.1 s.1.2 s.2)
        (take top_k ranked) /\
    length (DealMatcher._heuristic_match deal candidate_features top_k)
    = Nat.min top_k (length candidate_features).
Proof.
  unfold DealMatcher._heuristic_match.
  set (scored := map _ candidate_features).
  destruct (sort_desc_spec scored) as [Hp Hs].
  exists (DealMatcher.sort_desc scored).
  split; [exact Hp |]. split; [exact Hs |]. split; [reflexivity |].
  rewrite length_map, length_take, Hp. subst scored.
  rewrite length_map. reflexivity.
Qed.


(** *** Catalog queries *)

Lemma contains_empty (l : list ascii) : Str.contains [] l = true.
Proof. destruct l; reflexivity. Qed.

(** X11: [get_by_category] returns exactly the catalog products of that
    category, in catalog order; [search] returns at most [limit] catalog
    products in catalog order, each with the lower-cased query or one of
    its words in its lower-cased name; the empty query selects the first
    [limit] products. *)
Theorem catalog_queries_select_from_catalog (cat : ProductCatalog)
    (query category : string) (limit : nat) :
  (forall p, p ∈ ProductCatalogOps.get_by_category cat category <->
             p ∈ products cat /\ p_category p = Some category) /\
  ProductCatalogOps.get_by_category cat category `sublist_of` products cat /\
  ProductCatalogOps.search cat query limit `sublist_of` products cat /\
  (length (ProductCatalogOps.search cat query limit) <= limit)%nat /\
  (forall p,
     p ∈ ProductCatalogOps.search cat query limit ->
     let name := ProductCatalogOps.name_lower p in
     let query_lower := Str.lower (chars query) in
     Str.contains query_lower name = true \/
     exists word, word ∈ Str.split_ws query_lower /\
                  Str.contains word name = true) /\
  ProductCatalogOps.search cat "" limit = take limit (products cat).
Proof.
  unfold ProductCatalogOps.get_by_category, ProductCatalogOps.search.
  split; [intros p; rewrite list_elem_of_filter; tauto |].
  split; [apply sublist_filter |].
  split; [etransitivity; [apply sublist_take | apply sublist_filter] |].
  split; [rewrite length_take; lia |].
  split.
  - intros p Hp. cbv zeta.
    eapply elem_of_submseteq in Hp as Hp';
      [|apply sublist_submseteq, sublist_take].
    apply list_elem_of_filter in Hp' as [Hp' _].
    apply Is_true_true, orb_true_iff in Hp' as [Hp' | Hp']; [left; exact Hp' |].
    right. apply existsb_exists in Hp' as (word & Hin & Hw).
    exists word. split; [apply list_elem_of_In, Hin | exact Hw].
  - f_equal. induction (products cat) as [|p l IH]; [reflexivity |].
    rewrite filter_cons_True; [rewrite IH; reflexivity |].
    simpl. rewrite contains_empty. exact I.
Qed.

Section Matching.

Variable Model : Type.
Variable SKLEARN_AVAILABLE : bool.
Variable predict_top : Model -> list (list Q) -> nat -> result (list (nat * Q)).

Local Abbreviation get_candidates := (DealMatcher._get_candidates Model).
Local Abbreviation match_single :=
  (DealMatcher._match_single_deal Model SKLEARN_AVAILABLE predict_top).
Local Abbreviation match_all :=
  (DealMatcher.match_ Model SKLEARN_AVAILABLE predict_top).

Lemma search_from_catalog (cat : ProductCatalog) (query : string)
    (limit : nat) (p : Product) :
  p ∈ ProductCatalogOps.search cat query limit -> p ∈ products cat.
Proof.
  unfold ProductCatalogOps.search. intros Hp.
  eapply elem_of_submseteq; [exact Hp |].
  apply sublist_submseteq.
  etransitivity; [apply sublist_take | apply sublist_filter].
Qed.

Lemma category_from_catalog (cat : ProductCatalog) (category : string)
    (p : Product) :
  p ∈ ProductCatalogOps.get_by_category cat category -> p ∈ products cat.
Proof.
  unfold ProductCatalogOps.get_by_category. intros Hp.
  apply list_elem_of_filter in Hp as [_ Hp]. exact Hp.
Qed.

Lemma candidates_from_catalog (self : DealMatcher.t Model)
    (deal : ExtractedDeal) (limit : nat) (p : Product) :
  p ∈ get_candidates self deal limit ->
  p ∈ products (DealMatcher.catalog Model self).
Proof.
  unfold DealMatcher._get_candidates.
  set (cat := DealMatcher.catalog Model self).
  set (found := if str_truthy (product_name deal) then _ else []).
  assert (forall q, q ∈ found -> q ∈ products cat) as Hfound.
  { subst found. destruct (str_truthy _); [|intros q Hq; inversion Hq].
    intros q Hq. eapply search_from_catalog, Hq. }
  intros Hp.
  eapply elem_of_submseteq in Hp as Hp';
    [|apply sublist_submseteq, sublist_take].
  clear Hp. revert Hp'.
  destruct ((length found <? 10)%nat &&
            negb (bool_decide (DealMatcher.meta_category deal = "")));
    [|apply Hfound].
  assert (forall extra acc,
            (forall q, q ∈ extra -> q ∈ products cat) ->
            (forall q, q ∈ acc -> q ∈ products cat) ->
            forall q,
              q ∈ fold_left (fun acc p =>
                     if bool_decide (p ∈ acc) then acc else acc ++ [p])
                     extra acc ->
              q ∈ products cat) as Hfold.
  { induction extra as [|x extra IH]; intros acc Hextra Hacc q; simpl;
      [apply Hacc |].
    apply IH.
    - intros r Hr. apply Hextra. right. exact Hr.
    - intros r Hr. destruct (bool_decide _); [apply Hacc, Hr |].
      apply elem_of_app in Hr as [Hr | Hr]; [apply Hacc, Hr |].
      apply list_elem_of_singleton in Hr as ->. apply Hextra. left. }
  apply Hfold; [|exact Hfound].
  intros q Hq. eapply category_from_catalog, Hq.
Qed.

(** X12: without a classifier (none trained or loaded, or no library), and
    with every recorded purchase frequency of the catalog between 0 and 1,
    [_match_single_deal] does not raise and every match score it returns
    lies between 0 and 1. *)
Theorem heuristic_scores_in_unit_interval (self : DealMatcher.t Model)
    (deal : ExtractedDeal) (top_k : nat) :
  DealMatcher.model Model self = None \/ SKLEARN_AVAILABLE = false ->
  Forall (fun p => match p_purchase_frequency p with
                   | Some f => 0 <= f <= 1
                   | None => True
                   end) (products (DealMatcher.catalog Model self)) ->
  exists ms,
    match_single self deal top_k = Ok ms /\
    Forall (fun m => 0 <= match_score m <= 1) ms.
Proof.
  intros Hmodel Hfreq. unfold DealMatcher._match_single_deal.
  destruct (negb _); [exists []; split; [reflexivity | constructor] |].
  pose proof (candidates_from_catalog self deal 50) as Hsub.
  destruct (get_candidates self deal 50) as [|c cs] eqn:Hc;
    [exists []; split; [reflexivity | constructor] |].
  destruct (features_of_unit deal (c :: cs)) as (cf & -> & Hcf).
  { apply Forall_forall. intros p Hp.
    eapply Forall_forall in Hfreq; [exact Hfreq | apply Hsub, Hp]. }
  cbn [mbind result_bind].
  assert (Forall (fun m => 0 <= match_score m <= 1)
            (DealMatcher._heuristic_match deal cf top_k)) as Hh.
  { unfold DealMatcher._heuristic_match.
    apply Forall_map, Forall_forall. intros s Hs. simpl.
    eapply elem_of_submseteq in Hs as Hs';
      [|apply sublist_submseteq, sublist_take].
    destruct (sort_desc_spec
                (map (fun pf : Product * list Q =>
                        (pf, DealMatcher.dot pf.2 DealMatcher.weights)) cf))
      as [Hp _].
    rewrite Hp in Hs'. apply list_elem_of_fmap in Hs' as (pf & -> & Hpf).
    simpl. eapply Forall_forall in Hcf; [exact Hcf | exact Hpf]. }
  destruct Hmodel as [-> | ->]; [eauto |].
  destruct (DealMatcher.model Model self); eauto.
Qed.

(** X13: with an empty catalog [match] returns no match for any list of
    deals, and does not raise, whether or not a classifier is present. *)
Theorem empty_catalog_matches_nothing (self : DealMatcher.t Model)
    (deals : list ExtractedDeal) (top_k : nat) :
  products (DealMatcher.catalog Model self) = [] ->
  match_all self deals top_k = Ok [].
Proof.
  intros Hempty. unfold DealMatcher.match_.
  assert (forall deal, match_single self deal top_k = Ok []) as Hone.
  { intros deal. unfold DealMatcher._match_single_deal.
    destruct (negb _); [reflexivity |].
    pose proof (candidates_from_catalog self deal 50) as Hsub.
    destruct (get_candidates self deal 50) as [|c cs]; [reflexivity |].
    specialize (Hsub c ltac:(left)). rewrite Hempty in Hsub. inversion Hsub. }
  induction deals as [|d deals IH]; simpl; [reflexivity |].
  rewrite Hone, IH. reflexivity.
Qed.

End Matching.

Lemma heuristic_scores_in_unit_interval_witness :
  exists ms,
    DealMatcher._match_single_deal Demo.Model Demo.SKLEARN_AVAILABLE
      Demo.predict_top demo_matcher demo_deal 3 = Ok ms /\
    length ms = 2%nat /\
    Forall (fun m => 0 <= match_score m <= 1) ms.
Proof.
  destruct (heuristic_scores_in_unit_interval Demo.Model
              Demo.SKLEARN_AVAILABLE Demo.predict_top demo_matcher demo_deal 3)
    as (ms & Hms & Hall).
  - left. reflexivity.
  - repeat constructor; simpl; lra.
  - exists ms. split; [exact Hms |]. split; [|exact Hall].
    assert (match DealMatcher._match_single_deal Demo.Model
                    Demo.SKLEARN_AVAILABLE Demo.predict_top demo_matcher
                    demo_deal 3 with
            | Ok l => length l
            | Raise _ => 0%nat
            end = 2%nat) as Hlen by (vm_compute; reflexivity).
    rewrite Hms in Hlen. exact Hlen.
Defined.

Lemma empty_catalog_matches_nothing_witness :
  DealMatcher.match_ Demo.Model Demo.SKLEARN_AVAILABLE Demo.predict_top
    (DealMatcher.mkMatcher Demo.Model None empty_catalog None)
    [demo_deal; Demo.original_deal] 3 = Ok [].
Proof. apply empty_catalog_matches_nothing. reflexivity. Defined.

End MatcherFacts.

(** ** The accuracy tracker: further properties *)

Module TrackerCountFacts.
Import AccuracyTracker StoreAccuracyOps AccuracyReports TrackerCounts.

(** *** Counting events *)

Lemma count_snoc (p : event -> bool) (events : list event) (e : event) :
  count p (events ++ [e])
  = (count p events + (if p e then 1 else 0))%Z.
Proof.
  unfold count. rewrite List.filter_app, length_app. simpl.
  destruct (p e); simpl; lia.
Qed.

Lemma count_nonneg (p : event -> bool) (events : list event) :
  (0 <= count p events)%Z.
Proof. unfold count. lia. Qed.

Lemma count_le (p q : event -> bool) (events : list event) :
  (forall e, p e = true -> q e = true) ->
  (count p events <= count q events)%Z.
Proof.
  intros Hpq. unfold count. apply inj_le.
  induction events as [|e events IH]; simpl; [lia |].
  destruct (p e) eqn:Hp.
  - rewrite (Hpq e Hp). simpl. lia.
  - destruct (q e); simpl; lia.
Qed.

Lemma run_snoc (st : t * disk) (events : list event) (e : event) :
  run st (events ++ [e]) = step (run st events) e.
Proof. unfold run. rewrite fold_left_app. reflexivity. Qed.

Lemma tally_snoc (p : event -> bool) (events : list event) (e : event) :
  tally p (events ++ [e])
  = if p e then
      match e with
      | RecordResult _ c _ _ _ => bump c true (tally p events)
      | RecordCorrection _ _ _ => corrected (tally p events)
      end
    else tally p events.
Proof.
  unfold tally. rewrite !count_snoc.
  destruct (p e); simpl.
  - destruct e as [s c ph ty ts | s ph ty]; simpl.
    + unfold bump. simpl. destruct c; simpl; f_equal; lia.
    + unfold corrected. simpl. f_equal; lia.
  - f_equal; lia.
Qed.

Lemma tally_unnamed (p : event -> bool) (events : list event) :
  count p events = 0%Z -> tally p events = no_metrics.
Proof.
  intros Hz. unfold tally, no_metrics.
  assert (forall q, count (fun e => p e && q e) events = 0%Z) as H.
  { intros q.
    pose proof (count_nonneg (fun e => p e && q e) events).
    pose proof (count_le (fun e => p e && q e) p events) as Hle.
    assert (forall e, p e && q e = true -> p e = true) as Himp
      by (intros e He; apply andb_true_iff in He; tauto).
    specialize (Hle Himp). lia. }
  rewrite !H. reflexivity.
Qed.

Lemma results_split (events : list event) :
  count (fun e => true && is_result e) events
  = (count (fun e => true && is_correct e) events
     + count (fun e => true && is_incorrect e) events)%Z.
Proof.
  unfold count. rewrite <- Nat2Z.inj_add. f_equal.
  induction events as [|e events IH]; [reflexivity |].
  destruct e as [s c ph ty ts | s ph ty]; simpl in *; [|exact IH].
  destruct c; simpl in *; lia.
Qed.

(** The accuracy of a tally is a fraction. *)
Lemma tally_accuracy_unit (p : event -> bool) (events : list event) :
  0 <= metrics_accuracy (tally p events) <= 1.
Proof.
  unfold metrics_accuracy, tally. simpl.
  destruct (_ =? 0)%Z eqn:Hz; [lra |].
  apply Z.eqb_neq in Hz.
  pose proof (count_nonneg (fun e => p e && is_correct e) events) as H0.
  pose proof (count_nonneg (fun e => p e && is_result e) events) as H1.
  assert (count (fun e => p e && is_correct e) events
          <= count (fun e => p e && is_result e) events)%Z as Hle.
  { apply count_le. intros e He. apply andb_true_iff in He as [Hp Hc].
    rewrite Hp. destruct e; [reflexivity | discriminate]. }
  unfold qdiv. apply SimilarityFacts.part_of_whole.
  - change 0 with (inject_Z 0). rewrite <- Zle_Qle. exact H0.
  - rewrite <- Zle_Qle. exact Hle.
  - change 0 with (inject_Z 0). rewrite <- Zlt_Qlt. lia.
Qed.

(** *** The counters after a sequence of calls *)

Lemma step_counted (self : t) (fs : disk) (events : list event) (e : event) :
  tallied self events -> tallied (step (self, fs) e).1 (events ++ [e]).
Proof.
  intros [Hg Hs]. split.
  - rewrite tally_snoc.
    destruct e as [s c ph ty ts | s ph ty]; simpl; rewrite Hg; reflexivity.
  - intros name. rewrite tally_snoc, count_snoc.
    assert (forall s,
              overall (store_entry self (lower_str s))
              = tally (names (lower_str s)) events) as Hentry.
    { intros s. unfold store_entry. specialize (Hs (lower_str s)).
      destruct (stores self !! lower_str s) as [sa|]; simpl; [exact Hs |].
      symmetry. apply tally_unnamed, Hs. }
    destruct e as [s c ph ty ts | s ph ty]; simpl.
    + destruct (bool_decide (lower_str s = name)) eqn:Hn.
      * apply bool_decide_eq_true in Hn as <-.
        rewrite lookup_insert_eq. simpl. rewrite Hentry. reflexivity.
      * apply bool_decide_eq_false in Hn.
        rewrite lookup_insert_ne by exact Hn.
        specialize (Hs name).
        destruct (stores self !! name); [exact Hs | lia].
    + destruct (bool_decide (lower_str s = name)) eqn:Hn.
      * apply bool_decide_eq_true in Hn as <-.
        rewrite lookup_insert_eq. simpl. rewrite Hentry. reflexivity.
      * apply bool_decide_eq_false in Hn.
        rewrite lookup_insert_ne by exact Hn.
        specialize (Hs name).
        destruct (stores self !! name); [exact Hs | lia].
Qed.

Lemma run_counted (path : option string) (events : list event) :
  forall fs, tallied (run (new_empty path, fs) events).1 events.
Proof.
  induction events as [|e events IH] using rev_ind; intros fs.
  - split; [reflexivity |]. intros name. simpl.
    rewrite lookup_empty. reflexivity.
  - rewrite run_snoc.
    destruct (run (new_empty path, fs) events) as [self fs'] eqn:Hrun.
    apply step_counted. specialize (IH fs). rewrite Hrun in IH. exact IH.
Qed.

(** X14: after any sequence of [record_result] and [record_correction]
    calls on a new tracker, the global counters are the numbers of results,
    of correct and of incorrect results and of corrections recorded; the
    report of a store counts the results recorded under its name, whatever
    the case of the letters; and the global accuracy and every store
    accuracy lie between 0 and 1. *)
Theorem tracker_counts_recorded_events (path : option string) (fs : disk)
    (events : list event) :
  let self := (run (new_empty path, fs) events).1 in
  let g := get_global_accuracy self in
  gr_total_deals g = count is_result events /\
  gr_correct_matches g = count is_correct events /\
  gr_incorrect_matches g = count is_incorrect events /\
  gr_corrections_received g = count is_correction events /\
  (gr_total_deals g = gr_correct_matches g + gr_incorrect_matches g)%Z /\
  0 <= gr_accuracy g <= 1 /\
  forall store,
    sr_total_deals (get_store_accuracy self store)
    = count (fun e => names (lower_str store) e && is_result e) events /\
    0 <= sr_accuracy (get_store_accuracy self store) <= 1.
Proof.
  intros self g.
  destruct (run_counted path events fs) as [Hg Hs]. fold self in Hg, Hs.
  subst g. unfold get_global_accuracy. simpl. rewrite Hg.
  split; [reflexivity |]. split; [reflexivity |]. split; [reflexivity |].
  split; [reflexivity |].
  split.
  - simpl. apply (results_split events).
  - split; [apply tally_accuracy_unit |].
    intros store. unfold get_store_accuracy.
    specialize (Hs (lower_str store)).
    destruct (stores self !! lower_str store) as [sa|]; simpl.
    + rewrite Hs. split; [reflexivity | apply tally_accuracy_unit].
    + apply tally_unnamed in Hs. injection Hs as H1 _ _ _.
      split; [symmetry; exact H1 | lra].
Qed.

(** *** The sums of [get_phase_accuracy] *)

Lemma phase_sums_fresh (phase : Z) (m : gmap string StoreAccuracy)
    (k : string) (sa : StoreAccuracy) :
  m !! k = None ->
  phase_sums phase (<[ k := sa ]> m)
  = ((phase_sums phase m).1 + (phase_share phase sa).1,
     (phase_sums phase m).2 + (phase_share phase sa).2)%Z.
Proof.
  intros Hk. unfold phase_sums.
  rewrite (map_fold_insert_L
             (fun (_ : string) sa (acc : Z * Z) =>
                match by_phase sa !! phase with
                | Some m => (acc.1 + total_deals m, acc.2 + correct_matches m)%Z
                | None => acc
                end)); [| | exact Hk].
  - unfold phase_share. destruct (by_phase sa !! phase); simpl.
    + reflexivity.
    + destruct (map_fold _ _ m). simpl. f_equal; lia.
  - intros j1 j2 z1 z2 y _ _ _.
    destruct (by_phase z1 !! phase), (by_phase z2 !! phase); simpl;
      try reflexivity.
    f_equal; lia.
Qed.

Lemma phase_sums_insert (phase : Z) (m : gmap string StoreAccuracy)
    (k : string) (sa : StoreAccuracy) :
  let old := match m !! k with
             | Some sa0 => phase_share phase sa0
             | None => (0%Z, 0%Z)
             end in
  phase_sums phase (<[ k := sa ]> m)
  = ((phase_sums phase m).1 - old.1 + (phase_share phase sa).1,
     (phase_sums phase m).2 - old.2 + (phase_share phase sa).2)%Z.
Proof.
  cbv zeta. destruct (m !! k) as [sa0|] eqn:Hk.
  - assert (phase_sums phase m
            = ((phase_sums phase (delete k m)).1 + (phase_share phase sa0).1,
               (phase_sums phase (delete k m)).2 + (phase_share phase sa0).2)%Z)
      as Hm.
    { rewrite <- (insert_delete_id m k sa0 Hk) at 1.
      apply phase_sums_fresh, lookup_delete_eq. }
    rewrite <- (insert_delete_eq m k sa).
    rewrite phase_sums_fresh by apply lookup_delete_eq.
    rewrite Hm. simpl. f_equal; lia.
  - rewrite phase_sums_fresh by exact Hk. simpl. f_equal; lia.
Qed.

Lemma phase_share_entry (self : t) (name : string) (phase : Z) :
  phase_share phase (store_entry self name)
  = match stores self !! name with
    | Some sa0 => phase_share phase sa0
    | None => (0%Z, 0%Z)
    end.
Proof.
  unfold store_entry. destruct (stores self !! name); reflexivity.
Qed.

Lemma phase_share_add_result (sa : StoreAccuracy) (c : bool) (ph : Z)
    (ty : string) (ts : Z) (phase : Z) :
  phase_share phase (add_result sa c ph ty ts)
  = if bool_decide (ph = phase)
    then (((phase_share phase sa).1 + 1)%Z,
          ((phase_share phase sa).2 + (if c then 1 else 0))%Z)
    else phase_share phase sa.
Proof.
  unfold phase_share, add_result. simpl.
  destruct (bool_decide (ph = phase)) eqn:Hp.
  - apply bool_decide_eq_true in Hp as ->.
    rewrite lookup_insert_eq. unfold bump.
    destruct (by_phase sa !! phase); simpl; destruct c; f_equal; lia.
  - apply bool_decide_eq_false in Hp.
    rewrite lookup_insert_ne by exact Hp. reflexivity.
Qed.

Lemma phase_share_add_correction (sa : StoreAccuracy) (ph : Z) (ty : string)
    (phase : Z) :
  phase_share phase (add_correction sa ph ty) = phase_share phase sa.
Proof.
  unfold phase_share, add_correction. simpl.
  destruct (decide (ph = phase)) as [-> | Hne].
  - rewrite lookup_alter_eq. destruct (by_phase sa !! phase); reflexivity.
  - rewrite lookup_alter_ne by exact Hne. reflexivity.
Qed.

Lemma pair_eta (p : Z * Z) : (p.1, p.2) = p.
Proof. destruct p. reflexivity. Qed.

Lemma step_phase_sums (self : t) (fs : disk) (e : event) (phase : Z) :
  phase_sums phase (stores (step (self, fs) e).1)
  = ((phase_sums phase (stores self)).1
     + (if in_phase phase e then 1 else 0),
     (phase_sums phase (stores self)).2
     + (if in_phase phase e && is_correct e then 1 else 0))%Z.
Proof.
  destruct e as [s c ph ty ts | s ph ty]; simpl.
  - rewrite phase_sums_insert. cbv zeta.
    rewrite phase_share_add_result, phase_share_entry.
    destruct (bool_decide (ph = phase)); simpl;
      destruct (stores self !! lower_str s); simpl;
      try destruct c; simpl; f_equal; lia.
  - rewrite phase_sums_insert. cbv zeta.
    rewrite phase_share_add_correction, phase_share_entry.
    destruct (stores self !! lower_str s); simpl; f_equal; lia.
Qed.

Lemma run_phase_sums (path : option string) (events : list event)
    (phase : Z) :
  forall fs,
    phase_sums phase (stores (run (new_empty path, fs) events).1)
    = (count (in_phase phase) events,
       count (fun e => in_phase phase e && is_correct e) events).
Proof.
  induction events as [|e events IH] using rev_ind; intros fs.
  - reflexivity.
  - rewrite run_snoc.
    destruct (run (new_empty path, fs) events) as [self fs'] eqn:Hrun.
    rewrite step_phase_sums. specialize (IH fs). rewrite Hrun in IH.
    simpl in IH. rewrite IH, !count_snoc. reflexivity.
Qed.

Lemma get_phase_accuracy_sums (self : t) (phase : Z) :
  let sums := phase_sums phase (stores self) in
  let r := get_phase_accuracy self phase in
  pa_total_deals r = sums.1 /\
  pa_accuracy r = (if (0 <? sums.1)%Z then qdiv sums.2 sums.1 else 0) /\
  pa_target r = phase_target phase /\
  pa_meets_target r = Qle_bool (pa_target r) (pa_accuracy r) /\
  pa_gap r = pa_target r - pa_accuracy r.
Proof.
  cbv zeta. unfold get_phase_accuracy, phase_sums.
  destruct (map_fold _ _ (stores self)) as [total correct]. simpl.
  repeat split; reflexivity.
Qed.

(** X15: after any sequence of [record_result] and [record_correction]
    calls on a new tracker, [get_phase_accuracy] reports for a phase the
    number of results recorded in that phase, over all stores, and as
    accuracy the share of correct ones among them (0.0 when there are
    none), a value between 0 and 1; the target is met exactly when the gap
    is not positive. *)
Theorem phase_accuracy_counts_phase_results (path : option string)
    (fs : disk) (events : list event) (phase : Z) :
  let self := (run (new_empty path, fs) events).1 in
  let r := get_phase_accuracy self phase in
  let total := count (in_phase phase) events in
  let correct := count (fun e => in_phase phase e && is_correct e) events in
  pa_total_deals r = total /\
  pa_accuracy r = (if (0 <? total)%Z then qdiv correct total else 0) /\
  0 <= pa_accuracy r <= 1 /\
  (pa_meets_target r = true <-> pa_gap r <= 0).
Proof.
  intros self r total correct.
  destruct (get_phase_accuracy_sums self phase)
    as (Ht & Ha & Htarget & Hm & Hg).
  fold r in Ht, Ha, Htarget, Hm, Hg.
  unfold self in Ht, Ha. rewrite run_phase_sums in Ht, Ha. simpl in Ht, Ha.
  fold total correct in Ht, Ha.
  split; [exact Ht |]. split; [exact Ha |].
  split.
  - rewrite Ha. destruct (0 <? total)%Z eqn:Hpos; [|lra].
    apply Z.ltb_lt in Hpos.
    unfold qdiv. apply SimilarityFacts.part_of_whole.
    + change 0 with (inject_Z 0). rewrite <- Zle_Qle. apply count_nonneg.
    + rewrite <- Zle_Qle. apply count_le.
      intros e He. apply andb_true_iff in He. tauto.
    + change 0 with (inject_Z 0). rewrite <- Zlt_Qlt. exact Hpos.
  - rewrite Hm, Hg, Qle_bool_iff. split; intros H; lra.
Qed.

(** X16: a correction changes no accuracy figure.  [record_correction]
    adds one to the corrections received, globally and for the store, and
    leaves the global accuracy, the phase accuracies and the deal counts and
    accuracies of every store as they were. *)
Theorem corrections_leave_accuracy_unchanged (self : t) (store : string)
    (phase : Z) (deal_type : string) (fs : disk) :
  let self' := (record_correction self store phase deal_type fs).1 in
  gr_corrections_received (get_global_accuracy self')
  = (gr_corrections_received (get_global_accuracy self) + 1)%Z /\
  gr_total_deals (get_global_accuracy self')
  = gr_total_deals (get_global_accuracy self) /\
  gr_accuracy (get_global_accuracy self')
  = gr_accuracy (get_global_accuracy self) /\
  (forall ph, get_phase_accuracy self' ph = get_phase_accuracy self ph) /\
  (forall s,
     sr_total_deals (get_store_accuracy self' s)
     = sr_total_deals (get_store_accuracy self s) /\
     sr_accuracy (get_store_accuracy self' s)
     = sr_accuracy (get_store_accuracy self s)).
Proof.
  cbv zeta. unfold record_correction. simpl.
  split; [reflexivity |]. split; [reflexivity |]. split; [reflexivity |].
  split.
  - intros ph.
    pose proof (step_phase_sums self fs (RecordCorrection store phase
                                           deal_type) ph) as Hsum.
    simpl in Hsum. rewrite !Z.add_0_r, pair_eta in Hsum.
    unfold get_phase_accuracy.
    change (map_fold _ _ (stores ?x)) with (phase_sums ph (stores x)).
    simpl. rewrite Hsum. reflexivity.
  - intros s. unfold get_store_accuracy. simpl.
    destruct (decide (lower_str store = lower_str s)) as [Heq | Hne].
    + rewrite Heq, lookup_insert_eq. unfold store_entry.
      destruct (stores self !! lower_str s); simpl; split; reflexivity.
    + rewrite lookup_insert_ne by exact Hne. split; reflexivity.
Qed.

End TrackerCountFacts.

(** ** Trends *)

Module TrendFacts.
Import AccuracyTracker TrackerAux TrendAux.

Lemma insert_sorted_length (x : Z) (l : list Z) :
  length (insert_sorted x l) = S (length l).
Proof.
  induction l as [|y l IH]; simpl; [reflexivity |].
  destruct (x <? y)%Z; simpl; [reflexivity | rewrite IH; reflexivity].
Qed.

Lemma sorted_length (l : list Z) : length (sorted l) = length l.
Proof.
  unfold sorted.
  assert (forall acc,
            length (fold_left (fun acc x => insert_sorted x acc) l acc)
            = (length acc + length l)%nat) as H.
  { induction l as [|x l IH]; intros acc; simpl; [lia |].
    rewrite IH, insert_sorted_length. lia. }
  apply (H []).
Qed.

(** The day buckets hold only days on which an entry falls. *)
Lemma group_by_day_days (hist : list HistoryEntry) (d : Z) :
  (forall e ts, e ∈ hist -> h_timestamp e = Some ts -> date_of ts = d) ->
  forall k, is_Some (group_by_day hist !! k) -> k = d.
Proof.
  unfold group_by_day.
  assert (forall acc : gmap Z (Z * Z),
            (forall e ts, e ∈ hist -> h_timestamp e = Some ts ->
                          date_of ts = d) ->
            (forall k, is_Some (acc !! k) -> k = d) ->
            forall k,
              is_Some (fold_left (fun (daily : gmap Z (Z * Z)) e =>
                 match h_timestamp e with
                 | Some ts =>
                     let '(c, n) := default (0%Z, 0%Z) (daily !! date_of ts) in
                     <[ date_of ts :=
                          ((if h_is_correct e then c + 1 else c)%Z,
                           (n + 1)%Z) ]> daily
                 | None => daily
                 end) hist acc !! k) -> k = d) as H.
  { induction hist as [|e hist IH]; intros acc Hh Hacc k; simpl;
      [apply Hacc |].
    apply IH.
    - intros e' ts He'. apply Hh. right. exact He'.
    - intros k'. destruct (h_timestamp e) as [ts|] eqn:Hts; [|apply Hacc].
      destruct (default _ _) as [c n].
      destruct (decide (date_of ts = k')) as [<- | Hne].
      + intros _. apply (Hh e ts); [left | exact Hts].
      + rewrite lookup_insert_ne by exact Hne. apply Hacc. }
  intros Hh. apply H; [exact Hh |].
  intros k Hk. rewrite lookup_empty in Hk. destruct Hk as [? Hk]. discriminate.
Qed.

Lemma one_day_bucket (m : gmap Z (Z * Z)) (d : Z) :
  (forall k, is_Some (m !! k) -> k = d) ->
  (length (map_to_list m) <= 1)%nat.
Proof.
  intros H. rewrite length_map_to_list, <- size_dom.
  transitivity (size ({[ d ]} : gset Z)); [|rewrite size_singleton; lia].
  apply subseteq_size. intros k Hk.
  apply elem_of_dom in Hk. apply elem_of_singleton, H, Hk.
Qed.

Lemma collected_entries (self : t) (store : option string) (cutoff : Z)
    (e : HistoryEntry) :
  e ∈ collect_history self store cutoff ->
  exists name sa ts,
    stores self !! name = Some sa /\ e ∈ history sa /\
    h_timestamp e = Some ts /\ (cutoff <= ts)%Z.
Proof.
  unfold collect_history. intros He.
  apply list_elem_of_In, in_concat in He as (l & Hl & He).
  apply in_map_iff in Hl as (name & <- & _).
  destruct (stores self !! name) as [sa|] eqn:Hsa; [|inversion He].
  apply list_elem_of_In in He. unfold recent in He.
  apply list_elem_of_filter in He as [Hrec Hin].
  unfold is_recent in Hrec.
  destruct (h_timestamp e) as [ts|] eqn:Hts; [|inversion Hrec].
  apply Is_true_true, Z.leb_le in Hrec.
  exists name, sa, ts. auto.
Qed.

(** X17: when all results recorded within the window fall on one calendar
    day, [get_trend] reports "insufficient_data" however many results
    there are, and so does [predict_target_date] (whose window is 14
    days). *)
Theorem single_day_gives_no_trend (self : t) (now : Z)
    (store : option string) (days d : Z) (target : Q) :
  (forall name sa e ts,
     stores self !! name = Some sa -> e ∈ history sa ->
     h_timestamp e = Some ts ->
     (now - days * seconds_per_day <= ts)%Z -> date_of ts = d) ->
  td_trend (get_trend self now store days) = InsufficientData /\
  (days = 14%Z ->
   prediction (predict_target_date self now target store)
   = PInsufficientData).
Proof.
  intros Hday.
  assert (td_trend (get_trend self now store days) = InsufficientData) as Ht.
  { unfold get_trend.
    set (hist := collect_history self store _).
    assert (forall e ts, e ∈ hist -> h_timestamp e = Some ts ->
                         date_of ts = d) as Hh.
    { intros e ts He Hts.
      apply collected_entries in He as (name & sa & ts' & Hsa & Hin & Hts' & Hc).
      rewrite Hts in Hts'. injection Hts' as <-.
      eapply Hday; eauto. }
    destruct hist as [|e hist'] eqn:Hhist; [reflexivity |].
    rewrite <- Hhist in *. simpl. unfold classify, daily_rates.
    rewrite length_map, sorted_length, length_fmap.
    pose proof (one_day_bucket _ d (group_by_day_days hist d Hh)) as Hlen.
    destruct (_ <? 2)%nat eqn:Hlt; [reflexivity |].
    apply Nat.ltb_ge in Hlt. lia. }
  split; [exact Ht |].
  intros ->. unfold predict_target_date. rewrite Ht. reflexivity.
Qed.

Lemma single_day_gives_no_trend_witness :
  td_data_points (get_trend one_day_tracker (day 6) None 14) = 3%nat /\
  td_trend (get_trend one_day_tracker (day 6) None 14) = InsufficientData /\
  prediction (predict_target_date one_day_tracker (day 6) (85 # 100) None)
  = PInsufficientData.
Proof.
  split; [vm_compute; reflexivity |].
  destruct (single_day_gives_no_trend one_day_tracker (day 6) None 14 5
              (85 # 100)) as [Ht Hp].
  - intros name sa e ts Hsa He Hts _.
    unfold one_day_tracker in Hsa. cbn [stores] in Hsa.
    apply lookup_singleton_Some in Hsa as [_ <-].
    cbn [history] in He.
    repeat (apply elem_of_cons in He as [-> | He];
            [simpl in Hts; injection Hts as <-; vm_compute; reflexivity |]).
    inversion He.
  - split; [exact Ht | apply Hp; reflexivity].
Defined.

End TrendFacts.

(** ** The tracker file *)

Module TrackerFileFacts.
Import AccuracyTracker TemplateCodec TrackerCodec.

(** *** Decimal texts *)

Lemma digit_char (d : N) :
  (d < 10)%N ->
  is_digit (pretty_N_char d) = true /\
  Num.digit_val (pretty_N_char d) = Z.of_N d.
Proof.
  intros Hd.
  assert (d = 0 \/ d = 1 \/ d = 2 \/ d = 3 \/ d = 4 \/ d = 5 \/ d = 6 \/
          d = 7 \/ d = 8 \/ d = 9)%N as H by lia.
  repeat (destruct H as [-> | H]; [split; reflexivity |]).
  subst d. split; reflexivity.
Qed.

Lemma digits_of_pretty_go (x : N) :
  forall s,
    Num.digits_val 0 (chars (pretty_N_go x s))
    = Num.digits_val (Z.of_N x) (chars s).
Proof.
  induction (N.lt_wf_0 x) as [x _ IH]. intros s.
  destruct (decide (x = 0%N)) as [-> | Hx].
  - rewrite pretty_N_go_0. reflexivity.
  - rewrite pretty_N_go_step by lia.
    rewrite IH by (apply N.div_lt; lia).
    destruct (digit_char (x `mod` 10)) as [Hd Hv];
      [apply N.mod_lt; lia |].
    change (chars (String ?c ?r)) with (c :: chars r).
    cbn [Num.digits_val]. rewrite Hd, Hv. f_equal.
    pose proof (N.div_mod x 10 ltac:(lia)). lia.
Qed.

Lemma digits_of_pretty_pos (p : positive) :
  digits_of (pretty_N_go (N.pos p) "") = Some (Z.pos p).
Proof.
  unfold digits_of.
  pose proof (digits_of_pretty_go (N.pos p) "") as H. simpl in H.
  destruct (chars (pretty_N_go (N.pos p) "")) as [|c l]; [discriminate |].
  exact H.
Qed.

Lemma int_of_text_pretty (z : Z) : int_of_text (pretty z) = Some z.
Proof.
  destruct z as [|p|p].
  - reflexivity.
  - change (pretty (Z.pos p)) with (pretty_N_go (N.pos p) "").
    unfold int_of_text.
    destruct (pretty_N_go (N.pos p) "") as [|c rest] eqn:Hs.
    + rewrite <- Hs. apply digits_of_pretty_pos.
    + destruct (decide (c = "-"%char)) as [-> | Hc].
      * exfalso. apply (pretty_N_go_ne_dash (N.pos p) "" rest);
          [discriminate | exact Hs].
      * assert (digits_of (String c rest) = Some (Z.pos p)) as Hd
          by (rewrite <- Hs; apply digits_of_pretty_pos).
        destruct c as [[] [] [] [] [] [] [] []]; try exact Hd.
        congruence.
  - change (pretty (Z.neg p)) with (String "-" (pretty_N_go (N.pos p) "")).
    unfold int_of_text. rewrite digits_of_pretty_pos. reflexivity.
Qed.

(** *** Decoding what [_save] encodes *)

Lemma metrics_roundtrip (m : AccuracyMetrics) :
  metrics_of_json
    [ ("total_deals", JNum (inject_Z (total_deals m)));
      ("correct_matches", JNum (inject_Z (correct_matches m)));
      ("incorrect_matches", JNum (inject_Z (incorrect_matches m)));
      ("corrections_received", JNum (inject_Z (corrections_received m))) ]
  = Some m.
Proof. destruct m. reflexivity. Qed.

Lemma phase_metrics_roundtrip (m : AccuracyMetrics) :
  phase_metrics_of_json (phase_metrics_to_json m) = Some (kept_of_phase m).
Proof. destruct m. reflexivity. Qed.

Lemma type_metrics_roundtrip (m : AccuracyMetrics) :
  type_metrics_of_json (type_metrics_to_json m) = Some (kept_of_type m).
Proof. destruct m. reflexivity. Qed.

Lemma entry_roundtrip (e : HistoryEntry) :
  entry_of_json (entry_to_json e) = Some e.
Proof. destruct e as [[ts|] c p ty]; reflexivity. Qed.

Lemma entries_roundtrip (l : list HistoryEntry) :
  all_some (map entry_of_json (map entry_to_json l)) = Some l.
Proof.
  induction l as [|e l IH]; [reflexivity |].
  cbn [map]. rewrite entry_roundtrip. cbn [all_some].
  rewrite IH. reflexivity.
Qed.

(** *** The loops *)

(** A map rebuilt entry by entry from its own listing. *)
Lemma rebuilt_lookup `{Countable K} {A B} (g : K -> A -> B)
    (l : list (K * A)) :
  NoDup l.*1 ->
  forall (acc : gmap K B) (k : K),
    fold_left (fun acc kv => <[ kv.1 := g kv.1 kv.2 ]> acc) l acc !! k
    = match list_find (fun kv => kv.1 = k) l with
      | Some (_, kv) => Some (g kv.1 kv.2)
      | None => acc !! k
      end.
Proof.
  induction l as [|[k0 a] l IH]; intros Hnd acc k; simpl; [reflexivity |].
  apply NoDup_cons in Hnd as [Hk0 Hnd].
  rewrite IH by exact Hnd.
  destruct (decide (k0 = k)) as [-> | Hne].
  - assert (list_find (fun kv : K * A => kv.1 = k) l = None) as Hnone.
    { apply list_find_None, Forall_forall. intros [k' a'] Hin Heq.
      simpl in Heq. subst k'. apply Hk0.
      apply list_elem_of_fmap. exists (k, a'). auto. }
    rewrite Hnone. simpl. rewrite lookup_insert_eq. reflexivity.
  - destruct (list_find _ l) as [[i kv]|]; simpl; [reflexivity |].
    rewrite lookup_insert_ne by exact Hne. reflexivity.
Qed.

Lemma rebuilt_from_map `{Countable K} {A B} (g : K -> A -> B)
    (m : gmap K A) (k : K) :
  fold_left (fun (acc : gmap K B) kv => <[ kv.1 := g kv.1 kv.2 ]> acc)
    (map_to_list m) ∅ !! k
  = g k <$> (m !! k).
Proof.
  rewrite rebuilt_lookup by apply NoDup_fst_map_to_list.
  destruct (list_find _ (map_to_list m)) as [[i [k' a]]|] eqn:Hf.
  - apply list_find_Some in Hf as (Hin & Heq & _). simpl in Heq. subst k'.
    apply list_elem_of_lookup_2, elem_of_map_to_list in Hin.
    rewrite Hin. reflexivity.
  - rewrite lookup_empty.
    destruct (m !! k) as [a|] eqn:Hk; [|reflexivity].
    exfalso. apply elem_of_map_to_list in Hk.
    eapply list_find_None, Forall_forall in Hf; [|exact Hk].
    apply Hf. reflexivity.
Qed.

Lemma load_phases_saved (l : list (Z * AccuracyMetrics)) :
  forall acc,
    load_phases acc
      (map (fun kv : Z * AccuracyMetrics =>
              (pretty kv.1, phase_metrics_to_json kv.2)) l)
    = Ok (fold_left (fun acc kv => <[ kv.1 := kept_of_phase kv.2 ]> acc)
            l acc).
Proof.
  induction l as [|[k m] l IH]; intros acc; [reflexivity |].
  cbn [map load_phases fst snd].
  rewrite int_of_text_pretty, phase_metrics_roundtrip.
  cbn [need mbind result_bind]. rewrite IH. reflexivity.
Qed.

Lemma load_types_saved (l : list (string * AccuracyMetrics)) :
  forall acc,
    load_types acc
      (map (fun kv : string * AccuracyMetrics =>
              (kv.1, type_metrics_to_json kv.2)) l)
    = Ok (fold_left (fun acc kv => <[ kv.1 := kept_of_type kv.2 ]> acc)
            l acc).
Proof.
  induction l as [|[k m] l IH]; intros acc; [reflexivity |].
  cbn [map load_types fst snd].
  rewrite type_metrics_roundtrip.
  cbn [need mbind result_bind]. rewrite IH. reflexivity.
Qed.

Lemma store_of_json_fields (name : string) (sn : json)
    (ovf bpf btf : list (string * json)) (hl : list json) :
  store_of_json name
    (JObj [ ("store_name", sn); ("overall", JObj ovf); ("by_phase", JObj bpf);
            ("by_deal_type", JObj btf); ("history", JArr hl) ])
  = (ov ← need (metrics_of_json ovf);
     hist ← need (all_some (map entry_of_json hl));
     by_phase ← load_phases ∅ bpf;
     by_deal_type ← load_types ∅ btf;
     Ok (mkStoreAccuracy name ov by_phase by_deal_type hist)).
Proof. reflexivity. Qed.

Lemma store_roundtrip (name : string) (sa : StoreAccuracy) :
  store_of_json name (store_to_json sa) = Ok (reloaded_store name sa).
Proof.
  unfold store_to_json, metrics_to_json. rewrite store_of_json_fields.
  rewrite metrics_roundtrip. cbn [need mbind result_bind].
  rewrite entries_roundtrip. cbn [need mbind result_bind].
  rewrite load_phases_saved. cbn [mbind result_bind].
  rewrite load_types_saved. cbn [mbind result_bind].
  unfold reloaded_store. f_equal. f_equal.
  - apply map_eq. intros k.
    rewrite (rebuilt_from_map (fun _ m => kept_of_phase m)), lookup_fmap.
    reflexivity.
  - apply map_eq. intros k.
    rewrite (rebuilt_from_map (fun _ m => kept_of_type m)), lookup_fmap.
    reflexivity.
Qed.

Lemma load_fields (self : t) (path : string) (fs : disk)
    (gf sf : list (string * json)) :
  storage_path self = Some path ->
  fs !! path = Some (JObj [ ("global_metrics", JObj gf);
                            ("stores", JObj sf) ]) ->
  _load self fs
  = (gm ← need (metrics_of_json gf);
     stores' ← load_stores (stores self) sf;
     Ok (mkTracker (Some path) stores' gm)).
Proof.
  intros Hp Hf. unfold _load. rewrite Hp. cbn [mbind option_bind].
  rewrite Hf. reflexivity.
Qed.

Lemma load_stores_saved (l : list (string * StoreAccuracy)) :
  forall acc,
    load_stores acc
      (map (fun kv : string * StoreAccuracy => (kv.1, store_to_json kv.2)) l)
    = Ok (fold_left (fun acc kv => <[ kv.1 := reloaded_store kv.1 kv.2 ]> acc)
            l acc).
Proof.
  induction l as [|[k sa] l IH]; intros acc; [reflexivity |].
  cbn [map load_stores fst snd].
  rewrite store_roundtrip. cbn [mbind result_bind]. rewrite IH. reflexivity.
Qed.

(** X18: a tracker constructed on the file another tracker saved holds the
    same global counters and, under each store name, that store's overall
    counters, its per-phase and per-deal-type totals and correct matches
    and the last 1000 entries of its history.  Not everything comes back:
    the corrections received per deal type (and the incorrect matches per
    phase and per deal type, never counted) are read back as 0, and the
    store name is the key the store is filed under. *)
Theorem saved_tracker_reloads (self : t) (path : string) (fs : disk) :
  storage_path self = Some path ->
  exists loaded,
    new (Some path) (_save self fs) = Ok loaded /\
    storage_path loaded = Some path /\
    global_metrics loaded = global_metrics self /\
    forall name,
      stores loaded !! name = reloaded_store name <$> (stores self !! name).
Proof.
  intros Hpath. unfold new, _save. rewrite Hpath.
  rewrite lookup_insert_eq.
  rewrite bool_decide_eq_true_2 by (eexists; reflexivity).
  unfold to_json, metrics_to_json.
  erewrite load_fields; [| reflexivity | apply lookup_insert_eq].
  rewrite metrics_roundtrip. cbn [need mbind result_bind stores new_empty].
  rewrite load_stores_saved. cbn [mbind result_bind].
  eexists. split; [reflexivity |].
  split; [reflexivity |]. split; [reflexivity |].
  intros name. cbn [stores]. apply rebuilt_from_map.
Qed.

Lemma saved_tracker_reloads_witness :
  exists loaded,
    new (Some "t.json")
      (record_result (new_empty (Some "t.json")) "Costco" true 1 "price" 0 ∅).2
    = Ok loaded /\
    global_metrics loaded = mkMetrics 1 1 0 0.
Proof.
  set (st := record_result (new_empty (Some "t.json")) "Costco" true 1
               "price" 0 ∅).
  destruct (saved_tracker_reloads st.1 "t.json" ∅ eq_refl)
    as (loaded & Hnew & _ & Hg & _).
  exists loaded. split; [exact Hnew | exact Hg].
Defined.

End TrackerFileFacts.


(** ** Calls of the learner, one after another *)

Module LearnerRunFacts.
Import ProgressiveLearner LearnerAux LearnerReports LearnerFacts.

Lemma calls_of_cons (p : call -> bool) (c : call) (calls : list call) :
  calls_of p (c :: calls)
  = ((if p c then 1 else 0) + calls_of p calls)%Z.
Proof. unfold calls_of. simpl. destruct (p c); simpl; lia. Qed.

(** A correction leaves the accuracy of every phase as it was. *)
Lemma correction_keeps_phase_accuracy (tr : AccuracyTracker.t)
    (store : string) (ph : Z) (ty : string) (fs : disk) (phase : Z) :
  AccuracyTracker.get_phase_accuracy
    (AccuracyTracker.record_correction tr store ph ty fs).1 phase
  = AccuracyTracker.get_phase_accuracy tr phase.
Proof.
  assert (TrackerCounts.phase_sums phase
            (AccuracyTracker.stores
               (AccuracyTracker.record_correction tr store ph ty fs).1)
          = TrackerCounts.phase_sums phase (AccuracyTracker.stores tr)) as H.
  { etransitivity;
      [exact (TrackerCountFacts.step_phase_sums tr fs
                (AccuracyReports.RecordCorrection store ph ty) phase) |].
    cbn [TrackerCounts.in_phase andb]. rewrite !Z.add_0_r.
    apply TrackerCountFacts.pair_eta. }
  unfold TrackerCounts.phase_sums in H.
  unfold AccuracyTracker.get_phase_accuracy. rewrite H. reflexivity.
Qed.

Section Facts.

Variable Model : Type.
Variable new_forest : Model.
Variable SKLEARN_AVAILABLE : bool.
Variable predict_top : Model -> list (list Q) -> nat -> result (list (nat * Q)).
Variable fit_and_score :
  list (list Q) -> list bool -> nat -> result (Model * (Q * Q * list Q)).
Variable re_compile : string -> option Re.regex.

Local Abbreviation learner := (t Model).
Local Abbreviation check :=
  (_check_phase_advancement Model new_forest SKLEARN_AVAILABLE fit_and_score).
Local Abbreviation retrain :=
  (_retrain_ml_model Model new_forest SKLEARN_AVAILABLE fit_and_score).
Local Abbreviation process :=
  (process_ad Model new_forest SKLEARN_AVAILABLE predict_top fit_and_score
     re_compile).
Local Abbreviation learn :=
  (learn_from_correction Model new_forest SKLEARN_AVAILABLE fit_and_score).
Local Abbreviation step_ :=
  (step Model new_forest SKLEARN_AVAILABLE predict_top fit_and_score
     re_compile).
Local Abbreviation run_ :=
  (run Model new_forest SKLEARN_AVAILABLE predict_top fit_and_score re_compile).
Local Abbreviation completes_ :=
  (completes Model new_forest SKLEARN_AVAILABLE predict_top fit_and_score
     re_compile).

Lemma retrain_same_books (self : learner) :
  same_books (retrain self).2 self /\
  current_phase (retrain self).2 = current_phase self.
Proof.
  unfold _retrain_ml_model, same_books.
  destruct (length (training_data self) <? 10)%nat; [auto 10 |].
  destruct (DealMatcher.train _ _ _ _ _ _) as [[report|e] matcher'];
    simpl; auto 10.
Qed.

Lemma check_same_books (self : learner) : same_books (check self).2 self.
Proof.
  unfold _check_phase_advancement.
  destruct (current_phase self).
  - destruct (_ || _); simpl; unfold same_books; auto 10.
  - destruct (_ && _); simpl; [| unfold same_books; auto 10].
    destruct (training_data self); simpl; [unfold same_books; auto 10 |].
    destruct (retrain_same_books self) as [H _]. exact H.
  - unfold same_books; simpl; auto 10.
Qed.

(** The guard check in Phase 2. *)
Lemma check_in_phase_2 (self : learner) :
  current_phase self = PHASE_2_TEMPLATE ->
  let guard :=
    ((min_ads_for_phase_3 (config self) <=? total_ads self)%Z ||
     (min_corrections_for_phase_3 (config self)
        <=? total_corrections self)%Z) &&
    Qle_bool (min_accuracy_for_phase_3 (config self))
      (phase_2_accuracy self) in
  (check self).1 = guard /\
  current_phase (check self).2
  = if guard then PHASE_3_ML else PHASE_2_TEMPLATE.
Proof.
  intros Hp. cbv zeta. unfold _check_phase_advancement, phase_2_accuracy.
  rewrite Hp.
  destruct (_ && _); simpl; [split; reflexivity | split; [reflexivity | exact Hp]].
Qed.

Lemma check_one_step (self : learner) :
  (phase_value (current_phase (check self).2)
   <= phase_value (current_phase self) + 1)%Z.
Proof.
  pose proof (check_phase_cases Model new_forest SKLEARN_AVAILABLE
                fit_and_score self) as H.
  destruct (current_phase self) eqn:Hp.
  - rewrite H. destruct (_ || _); simpl; rewrite ?Hp; simpl; lia.
  - destruct H as [-> | ->]; simpl; lia.
  - rewrite H. simpl. rewrite Hp. simpl. lia.
Qed.

Lemma total_ads_same (a b : learner) :
  ads_processed a = ads_processed b -> total_ads a = total_ads b.
Proof. unfold total_ads. intros ->. reflexivity. Qed.

(** [learn_from_correction] ends with the guard check on a learner with one
    more correction on its books, the correction recorded by the tracker. *)
Lemma learn_shape (self : learner) (deal_id : string)
    (original_deal corrected_deal : ExtractedDeal) (raw store : string)
    (original_match : option ProductMatch) (corrected_product : option Product)
    (now : Z) (now_iso : string) (fs : disk) :
  exists res self5 fs1 fs2 correction,
    learn self deal_id original_deal corrected_deal raw store original_match
      corrected_product now now_iso fs
    = (res, (check self5).2, _save_state (check self5).2 fs2) /\
    current_phase self5 = current_phase self /\
    ads_processed self5 = ads_processed self /\
    total_corrections self5 = (total_corrections self + 1)%Z /\
    corrections self5 = corrections self ++ [correction] /\
    config self5 = config self /\
    data_dir self5 = data_dir self /\
    accuracy_tracker self5
    = (AccuracyTracker.record_correction (accuracy_tracker self) store
         (phase_value (current_phase self))
         (DealType_value (deal_type original_deal)) fs1).1.
Proof.
  unfold learn_from_correction.
  destruct (TemplateDealParser.learn_from_correction _ _ _ _ _ _ _)
    as [tp fs1].
  match goal with
  | |- context [corrections self ++ [?c]] => set (correction := c)
  end.
  match goal with
  | |- context [let '(_, _) := ?x in _] =>
      assert (exists s3 acts, x = (s3, acts) /\
                current_phase s3 = current_phase self /\
                ads_processed s3 = ads_processed self /\
                total_corrections s3 = (total_corrections self + 1)%Z /\
                corrections s3 = corrections self ++ [correction] /\
                config s3 = config self /\
                data_dir s3 = data_dir self /\
                accuracy_tracker s3 = accuracy_tracker self)
        as (s3 & acts & -> & Hp3 & Ha3 & Ht3 & Hr3 & Hc3 & Hd3 & Hk3)
  end.
  { destruct original_match as [om|];
      [destruct (product_truthy corrected_product) |];
      eexists _, _; (split; [reflexivity |]); simpl; auto 10. }
  rewrite Hp3, Hk3.
  destruct (AccuracyTracker.record_correction (accuracy_tracker self) store
              (phase_value (current_phase self))
              (DealType_value (deal_type original_deal)) fs1)
    as [tracker fs2] eqn:Hrec.
  match goal with
  | |- context [bool_decide (current_phase ?s4 = PHASE_3_ML) && _] =>
      set (self4 := s4)
  end.
  assert (current_phase self4 = current_phase self /\
          ads_processed self4 = ads_processed self /\
          total_corrections self4 = (total_corrections self + 1)%Z /\
          corrections self4 = corrections self ++ [correction] /\
          config self4 = config self /\
          data_dir self4 = data_dir self /\
          accuracy_tracker self4 = tracker)
    as (Hp4 & Ha4 & Ht4 & Hr4 & Hc4 & Hd4 & Hk4).
  { subst self4. simpl. auto 10. }
  clearbody self4.
  destruct (bool_decide (current_phase self4 = PHASE_3_ML) && _).
  - destruct (retrain_same_books self4)
      as [(Ha5 & Ht5 & Hr5 & Hk5 & Hc5 & Hd5) Hp5].
    destruct (retrain self4) as [status self5]. cbn [snd] in *.
    destruct (check self5) as [advanced self6] eqn:Hck.
    eexists _, self5, fs1, fs2, correction. rewrite Hck.
    split; [reflexivity |].
    repeat split; rewrite ?Hrec; simpl; congruence.
  - destruct (check self4) as [advanced self6] eqn:Hck.
    eexists _, self4, fs1, fs2, correction. rewrite Hck.
    split; [reflexivity |].
    repeat split; rewrite ?Hrec; simpl; congruence.
Qed.

(** The books after one call. *)
Lemma step_books (st : learner * disk) (c : call) :
  let self' := (step_ st c).1 in
  config self' = config st.1 /\
  data_dir self' = data_dir st.1 /\
  phase_2_accuracy self' = phase_2_accuracy st.1 /\
  (forall key,
     default 0%Z (ads_processed self' !! key)
     = (default 0%Z (ads_processed st.1 !! key)
        + (if is_ad_of key c then 1 else 0))%Z) /\
  total_ads self' = (total_ads st.1 + (if is_ad c then 1 else 0))%Z /\
  total_corrections self'
  = (total_corrections st.1 + (if is_learn c then 1 else 0))%Z /\
  length (corrections self')
  = (length (corrections st.1) + (if is_learn c then 1 else 0))%nat.
Proof.
  destruct st as [self fs]. destruct c; cbv zeta; simpl.
  - assert (exists s, (process self ad_text store coordinates).2 = s /\
                      (s = (check (counted self store)).2 \/
                       s = counted self store)) as (s & -> & Hs).
    { destruct (process_ad_cases Model new_forest SKLEARN_AVAILABLE
                  predict_top fit_and_score re_compile self ad_text store
                  coordinates) as [[res ->] | [e ->]]; simpl; eauto. }
    assert (same_books s (counted self store))
      as (Ha & Ht & Hr & Hk & Hc & Hd).
    { destruct Hs as [-> | ->]; [apply check_same_books |].
      unfold same_books; auto 10. }
    unfold phase_2_accuracy.
    rewrite Hc, Hd, Hk, Ht, Hr, (total_ads_same _ _ Ha), Ha,
      (counted_total Model self store).
    repeat split; try (simpl; lia).
    intros key. unfold counted. simpl. fold (ad_key store).
    destruct (decide (ad_key store = key)) as [<- | Hne].
    + rewrite lookup_insert_eq, bool_decide_eq_true_2 by reflexivity.
      reflexivity.
    + rewrite lookup_insert_ne, bool_decide_eq_false_2 by exact Hne.
      lia.
  - destruct (learn_shape self deal_id original_deal corrected_deal raw store
                original_match corrected_product now now_iso fs)
      as (res & self5 & fs1 & fs2 & correction & -> & Hp5 & Ha5 & Ht5 & Hr5
          & Hc5 & Hd5 & Hk5).
    simpl.
    destruct (check_same_books self5) as (Ha & Ht & Hr & Hk & Hc & Hd).
    unfold phase_2_accuracy.
    rewrite Hc, Hd, Hk, Ht, Hr, (total_ads_same _ _ Ha), Ha, Hc5, Hd5, Hk5,
      Ht5, Hr5, (total_ads_same _ _ Ha5), Ha5,
      correction_keeps_phase_accuracy, length_app.
    repeat split; try (simpl; lia).
Qed.

Lemma step_one_phase (st : learner * disk) (c : call) :
  (phase_value (current_phase (step_ st c).1)
   <= phase_value (current_phase st.1) + 1)%Z.
Proof.
  destruct st as [self fs]. destruct c; simpl.
  - destruct (process_ad_cases Model new_forest SKLEARN_AVAILABLE
                predict_top fit_and_score re_compile self ad_text store
                coordinates) as [[res ->] | [e ->]]; simpl.
    + apply (check_one_step (counted self store)).
    + lia.
  - destruct (learn_shape self deal_id original_deal corrected_deal raw store
                original_match corrected_product now now_iso fs)
      as (res & self5 & fs1 & fs2 & correction & -> & Hp5 & _).
    simpl. rewrite <- Hp5. apply check_one_step.
Qed.

(** Without a Phase-2 accuracy at the threshold no call enters Phase 3. *)
Lemma step_stays_below_phase_3 (st : learner * disk) (c : call) :
  current_phase st.1 <> PHASE_3_ML ->
  phase_2_accuracy st.1 < min_accuracy_for_phase_3 (config st.1) ->
  current_phase (step_ st c).1 <> PHASE_3_ML.
Proof.
  intros Hp Hacc.
  assert (forall s : learner,
            phase_2_accuracy s = phase_2_accuracy st.1 ->
            config s = config st.1 ->
            current_phase s = current_phase st.1 ->
            current_phase (check s).2 <> PHASE_3_ML) as Hcheck.
  { intros s Hs Hc Hps.
    destruct (current_phase s) eqn:Hcur.
    - pose proof (check_phase_cases Model new_forest SKLEARN_AVAILABLE
                    fit_and_score s) as H.
      rewrite Hcur in H. rewrite H.
      destruct (_ || _); simpl; rewrite ?Hcur; discriminate.
    - destruct (check_in_phase_2 s Hcur) as [_ ->].
      rewrite Hs, Hc, (TrackerFacts.Qle_bool_false _ _ Hacc), andb_false_r.
      discriminate.
    - congruence. }
  destruct st as [self fs]. destruct c; simpl in *.
  - destruct (process_ad_cases Model new_forest SKLEARN_AVAILABLE
                predict_top fit_and_score re_compile self ad_text store
                coordinates) as [[res ->] | [e ->]]; simpl.
    + apply Hcheck; reflexivity.
    + exact Hp.
  - destruct (learn_shape self deal_id original_deal corrected_deal raw store
                original_match corrected_product now now_iso fs)
      as (res & self5 & fs1 & fs2 & correction & -> & Hp5 & Ha5 & Ht5 & Hr5
          & Hc5 & Hd5 & Hk5).
    simpl. apply Hcheck; [| exact Hc5 | exact Hp5].
    unfold phase_2_accuracy. rewrite Hk5, correction_keeps_phase_accuracy.
    reflexivity.
Qed.

(** X19: a call raises the phase by one step at most: after [n] calls the
    phase lies between the initial phase and the initial phase plus [n], and
    never above 3.  A learner that starts in Phase 1 with counters beyond
    every threshold is in Phase 2, not 3, after its next call. *)
Theorem phase_rises_one_step_per_call (st : learner * disk)
    (calls : list call) :
  let before := phase_value (current_phase st.1) in
  let after := phase_value (current_phase (run_ st calls).1) in
  (before <= after <= Z.min 3 (before + Z.of_nat (length calls)))%Z.
Proof.
  cbv zeta. revert st.
  induction calls as [|c calls IH]; intros st.
  - simpl. destruct (current_phase st.1); simpl; lia.
  - change (run_ st (c :: calls)) with (run_ (step_ st c) calls).
    specialize (IH (step_ st c)).
    pose proof (step_one_phase st c) as Hup.
    pose proof (step_phase_forward Model new_forest SKLEARN_AVAILABLE
                  predict_top fit_and_score re_compile st c) as Hfw.
    simpl length. lia.
Qed.

(** X20: [process_ad] and [learn_from_correction] leave the accuracy the
    tracker reports for Phase 2 as it is, so a learner below Phase 3 whose
    Phase-2 accuracy is below [min_accuracy_for_phase_3] never reaches
    Phase 3 by these calls, however many ads and corrections it sees. *)
Theorem phase_3_needs_recorded_accuracy (st : learner * disk)
    (calls : list call) :
  current_phase st.1 <> PHASE_3_ML ->
  phase_2_accuracy st.1 < min_accuracy_for_phase_3 (config st.1) ->
  current_phase (run_ st calls).1 <> PHASE_3_ML /\
  phase_2_accuracy (run_ st calls).1 = phase_2_accuracy st.1.
Proof.
  revert st. induction calls as [|c calls IH]; intros st Hp Hacc.
  - simpl. split; [exact Hp | reflexivity].
  - change (run_ st (c :: calls)) with (run_ (step_ st c) calls).
    destruct (step_books st c) as (Hc & _ & Hk & _).
    destruct (IH (step_ st c)) as [H1 H2].
    + apply step_stays_below_phase_3; assumption.
    + rewrite Hk, Hc. exact Hacc.
    + split; [exact H1 | rewrite H2; exact Hk].
Qed.

(** X21: a call that returns from Phase 2 leaves the learner in Phase 3
    exactly when, with this call counted, the ads or the corrections have
    reached their Phase-3 threshold and the Phase-2 accuracy of the tracker
    is at least [min_accuracy_for_phase_3]; otherwise it stays in
    Phase 2. *)
Theorem phase_2_call_decides_phase_3 (self : learner) (fs : disk) (c : call) :
  current_phase self = PHASE_2_TEMPLATE ->
  completes_ self c ->
  let self' := (step_ (self, fs) c).1 in
  let reached :=
    ((min_ads_for_phase_3 (config self) <= total_ads self')%Z \/
     (min_corrections_for_phase_3 (config self)
      <= total_corrections self')%Z) /\
    min_accuracy_for_phase_3 (config self) <= phase_2_accuracy self in
  (current_phase self' = PHASE_3_ML <-> reached) /\
  (current_phase self' = PHASE_2_TEMPLATE <-> ~ reached).
Proof.
  intros Hp Hdone. cbv zeta.
  assert (exists s,
            (step_ (self, fs) c).1 = (check s).2 /\
            current_phase s = PHASE_2_TEMPLATE /\
            config s = config self /\
            phase_2_accuracy s = phase_2_accuracy self)
    as (s & Hstep & Hps & Hcs & Hks).
  { destruct c; simpl in *.
    - destruct Hdone as [res Hres].
      destruct (process_ad_cases Model new_forest SKLEARN_AVAILABLE
                  predict_top fit_and_score re_compile self ad_text store
                  coordinates) as [[res' Heq] | [e Heq]];
        rewrite Heq in *; simpl in *; [| discriminate].
      exists (counted self store). auto.
    - destruct (learn_shape self deal_id original_deal corrected_deal raw
                  store original_match corrected_product now now_iso fs)
        as (res & self5 & fs1 & fs2 & correction & -> & Hp5 & Ha5 & Ht5
            & Hr5 & Hc5 & Hd5 & Hk5).
      simpl. exists self5. repeat split; try congruence.
      unfold phase_2_accuracy. rewrite Hk5, correction_keeps_phase_accuracy.
      reflexivity. }
  rewrite Hstep.
  destruct (check_same_books s) as (Ha & Ht & _).
  rewrite (total_ads_same _ _ Ha), Ht.
  destruct (check_in_phase_2 s Hps) as [_ ->].
  rewrite Hcs, Hks.
  match goal with
  | |- context [if ?g then _ else _] => set (guard := g)
  end.
  assert (guard = true <->
          ((min_ads_for_phase_3 (config self) <= total_ads s)%Z \/
           (min_corrections_for_phase_3 (config self)
            <= total_corrections s)%Z) /\
          min_accuracy_for_phase_3 (config self) <= phase_2_accuracy self)
    as Hg.
  { subst guard.
    rewrite andb_true_iff, orb_true_iff, !Z.leb_le, Qle_bool_iff.
    reflexivity. }
  destruct guard; (split; split; intros H);
    try discriminate; try reflexivity;
    try (apply Hg; reflexivity);
    try (exfalso; apply H, Hg; reflexivity);
    try (apply Hg in H; discriminate);
    try (intros Hr; apply Hg in Hr; discriminate).
Qed.

(** X22: every call is counted.  After any sequence of calls the total of
    the ad counters has grown by the number of [process_ad] calls (also of
    those that raised), the counter of a store key by the number of
    [process_ad] calls for that store, [total_corrections] and the list of
    corrections by the number of [learn_from_correction] calls; the
    configuration and the data directory are as before. *)
Theorem calls_are_counted (st : learner * disk) (calls : list call)
    (key : string) :
  let self' := (run_ st calls).1 in
  total_ads self' = (total_ads st.1 + calls_of is_ad calls)%Z /\
  default 0%Z (ads_processed self' !! key)
  = (default 0%Z (ads_processed st.1 !! key)
     + calls_of (is_ad_of key) calls)%Z /\
  total_corrections self'
  = (total_corrections st.1 + calls_of is_learn calls)%Z /\
  Z.of_nat (length (corrections self'))
  = (Z.of_nat (length (corrections st.1)) + calls_of is_learn calls)%Z /\
  config self' = config st.1 /\
  data_dir self' = data_dir st.1.
Proof.
  cbv zeta. revert st.
  induction calls as [|c calls IH]; intros st.
  - unfold calls_of. simpl. repeat split; lia.
  - change (run_ st (c :: calls)) with (run_ (step_ st c) calls).
    destruct (IH (step_ st c)) as (H1 & H2 & H3 & H4 & H5 & H6).
    destruct (step_books st c) as (Hc & Hd & _ & Hk & Ha & Ht & Hr).
    rewrite !calls_of_cons, H1, H2, H3, H4, H5, H6, Hc, Hd, Hk, Ha, Ht, Hr.
    repeat split; try lia.
    destruct (is_learn c); lia.
Qed.

(** X23: the report of [should_advance_phase] agrees with the guard check:
    below Phase 3 its [ready] is the answer [_check_phase_advancement] would
    give, and it is true exactly when [ads_needed] or [corrections_needed]
    is 0 and, in Phase 2, the current accuracy has reached the accuracy
    needed; both numbers are never negative.  In Phase 3 the report has no
    [ready] and no next phase, and the check answers no. *)
Theorem advance_report_agrees_with_check (self : learner) :
  let r := should_advance_phase self in
  ar_current_phase r = phase_value (current_phase self) /\
  match current_phase self with
  | PHASE_3_ML =>
      ar_ready r = None /\ ar_next_phase r = None /\ (check self).1 = false
  | _ =>
      ar_ready r = Some (check self).1 /\
      ar_next_phase r = Some (phase_value (current_phase self) + 1)%Z /\
      exists ads corr,
        ar_ads_needed r = Some ads /\ ar_corrections_needed r = Some corr /\
        (0 <= ads)%Z /\ (0 <= corr)%Z /\
        ((check self).1 = true <->
         (ads = 0 \/ corr = 0)%Z /\
         match ar_accuracy_needed r, ar_current_accuracy r with
         | Some needed, Some current => needed <= current
         | _, _ => True
         end)
  end.
Proof.
  cbv zeta. unfold should_advance_phase.
  destruct (current_phase self) eqn:Hp; simpl.
  - split; [reflexivity |].
    pose proof (check_phase_cases Model new_forest SKLEARN_AVAILABLE
                  fit_and_score self) as H.
    rewrite Hp in H. rewrite H.
    set (g := (_ || _)).
    assert (g = true <->
            (min_ads_for_phase_2 (config self) <= total_ads self)%Z \/
            (min_corrections_for_phase_2 (config self)
             <= total_corrections self)%Z) as Hg.
    { subst g. rewrite orb_true_iff, !Z.leb_le. reflexivity. }
    split; [destruct g; reflexivity |].
    split; [reflexivity |].
    eexists _, _. split; [reflexivity |]. split; [reflexivity |].
    split; [lia |]. split; [lia |].
    replace ((if g then (true, set_current_phase PHASE_2_TEMPLATE self)
              else (false, self)).1) with g by (destruct g; reflexivity).
    rewrite Hg. split.
    + intros [H1 | H1]; (split; [lia | exact I]).
    + intros [[H1 | H1] _]; lia.
  - split; [reflexivity |].
    destruct (check_in_phase_2 self Hp) as [Hck _]. rewrite Hck.
    fold (phase_2_accuracy self).
    split; [reflexivity |]. split; [reflexivity |].
    eexists _, _. split; [reflexivity |]. split; [reflexivity |].
    split; [lia |]. split; [lia |].
    rewrite andb_true_iff, orb_true_iff, !Z.leb_le, Qle_bool_iff.
    split.
    + intros [[H1 | H1] H2]; (split; [lia | exact H2]).
    + intros [[H1 | H1] H2]; (split; [lia | exact H2]).
  - split; [reflexivity |].
    pose proof (check_phase_cases Model new_forest SKLEARN_AVAILABLE
                  fit_and_score self) as H.
    rewrite Hp in H. rewrite H. auto.
Qed.

(** X24: [force_phase] with 1, 2 or 3 sets that phase, whatever the phase
    was (it may lower it), touches no counter and saves the state: a learner
    constructed on the same data directory afterwards reads that phase and
    the counters back.  Any other number leaves the learner and the files as
    they are. *)
Theorem force_phase_sets_and_saves (self other : learner) (phase : Z)
    (fs : disk) :
  let self' := (force_phase self phase fs).1 in
  let fs' := (force_phase self phase fs).2 in
  ((1 <= phase <= 3)%Z ->
   phase_value (current_phase self') = phase /\
   same_books self' self /\
   (data_dir other = data_dir self ->
    (training_data self = [] ->
     fs !! training_path (data_dir self) = None) ->
    exists loaded,
      _load_state other fs' = Ok loaded /\
      phase_value (current_phase loaded) = phase /\
      ads_processed loaded = ads_processed self /\
      total_corrections loaded = total_corrections self /\
      pending_corrections_for_retrain loaded
      = pending_corrections_for_retrain self)) /\
  (~ (1 <= phase <= 3)%Z -> self' = self /\ fs' = fs).
Proof.
  cbv zeta. unfold force_phase.
  destruct (phase_of_value phase) as [p|] eqn:Hph.
  - assert (phase_value p = phase /\ (1 <= phase <= 3)%Z) as [Hv Hr].
    { unfold phase_of_value in Hph.
      destruct (phase =? 1)%Z eqn:E1; [apply Z.eqb_eq in E1 |];
        [injection Hph as <-; simpl; lia |].
      destruct (phase =? 2)%Z eqn:E2; [apply Z.eqb_eq in E2 |];
        [injection Hph as <-; simpl; lia |].
      destruct (phase =? 3)%Z eqn:E3; [apply Z.eqb_eq in E3 |];
        [injection Hph as <-; simpl; lia | discriminate]. }
    simpl. split; [| intros Hn; contradiction].
    intros _. split; [exact Hv |].
    split; [unfold same_books; simpl; auto 10 |].
    intros Hdir Htrain.
    set (self' := set_current_phase p self).
    destruct (PersistenceFacts.load_saved_state Model self' other
                (_save_state self' fs))
      as (loaded & Hl & H1 & H2 & H3 & H4 & _).
    + exact Hdir.
    + apply PersistenceFacts.save_state_state_file.
    + rewrite PersistenceFacts.save_state_training_file.
      subst self'. simpl.
      destruct (training_data self) eqn:Ht; [apply Htrain |]; reflexivity.
    + exists loaded. rewrite H1, H2, H3, H4. subst self'. simpl. auto.
  - simpl. split; [| auto].
    intros Hr. exfalso. unfold phase_of_value in Hph.
    destruct (phase =? 1)%Z eqn:E1; [discriminate |].
    destruct (phase =? 2)%Z eqn:E2; [discriminate |].
    destruct (phase =? 3)%Z eqn:E3; [discriminate |].
    apply Z.eqb_neq in E1, E2, E3. lia.
Qed.

(** X25: [record_result] files the result under the phase the learner is
    in: the tracker's total for that phase grows by one, the totals of the
    other phases stay.  It makes no phase check: the phase, the counters and
    the configuration are as before. *)
Theorem results_go_to_current_phase (self : learner) (store : string)
    (deal : ExtractedDeal) (is_correct : bool) (match_ : option ProductMatch)
    (now : Z) (fs : disk) (phase : Z) :
  let self' := (record_result self store deal is_correct match_ now fs).1 in
  current_phase self' = current_phase self /\
  ads_processed self' = ads_processed self /\
  total_corrections self' = total_corrections self /\
  config self' = config self /\
  AccuracyTracker.pa_total_deals
    (AccuracyTracker.get_phase_accuracy (accuracy_tracker self') phase)
  = (AccuracyTracker.pa_total_deals
       (AccuracyTracker.get_phase_accuracy (accuracy_tracker self) phase)
     + (if bool_decide (phase_value (current_phase self) = phase)
        then 1 else 0))%Z.
Proof.
  cbv zeta. unfold record_result.
  pose proof (TrackerCountFacts.step_phase_sums (accuracy_tracker self) fs
                (AccuracyReports.RecordResult store is_correct
                   (phase_value (current_phase self))
                   (DealType_value (deal_type deal)) now) phase) as H.
  cbn [AccuracyReports.step fst snd TrackerCounts.in_phase] in H.
  destruct (AccuracyTracker.record_result _ _ _ _ _ _ _) as [tracker fs'].
  cbn [fst snd] in *.
  repeat (split; [reflexivity |]).
  cbn [accuracy_tracker set_accuracy_tracker].
  destruct (TrackerCountFacts.get_phase_accuracy_sums tracker phase)
    as [-> _].
  destruct (TrackerCountFacts.get_phase_accuracy_sums
              (accuracy_tracker self) phase) as [-> _].
  rewrite H. reflexivity.
Qed.

(** The mean of numbers between 0 and 1 lies between 0 and 1. *)
Lemma qsum_bounds (l : list Q) :
  Forall unit_interval l ->
  0 <= AccuracyTracker.qsum l <= qlen l.
Proof.
  unfold qlen. induction 1 as [|x l [Hx0 Hx1] _ [IH0 IH1]].
  - simpl. split; apply Qle_refl.
  - cbn [AccuracyTracker.qsum fold_right length].
    fold (AccuracyTracker.qsum l).
    rewrite Nat2Z.inj_succ, <- Z.add_1_r, inject_Z_plus.
    change (inject_Z 1) with 1. split; lra.
Qed.

Lemma mean_unit (l : list Q) :
  l <> [] -> Forall unit_interval l ->
  unit_interval (AccuracyTracker.qsum l / qlen l).
Proof.
  intros Hne Hall. destruct (qsum_bounds l Hall) as [H0 H1].
  assert (0 < qlen l) as Hpos.
  { unfold qlen. destruct l; [contradiction |].
    change 0 with (inject_Z 0). rewrite <- Zlt_Qlt. simpl length. lia. }
  split.
  - apply Qle_shift_div_l; [exact Hpos | lra].
  - apply Qle_shift_div_r; [exact Hpos | lra].
Qed.

(** The confidence of an extraction without product matches. *)
Lemma unmatched_confidence_bounds (deals : list ExtractedDeal)
    (phase : LearningPhase) :
  deals <> [] ->
  Forall (fun d => unit_interval (confidence d)) deals ->
  14 # 100 <= _calculate_confidence deals [] phase <= 1.
Proof.
  intros Hne Hall. unfold _calculate_confidence.
  destruct deals as [|d deals]; [contradiction |].
  set (l := d :: deals) in *.
  assert (unit_interval (AccuracyTracker.qsum (map confidence l) / qlen l))
    as [H0 H1].
  { replace (qlen l) with (qlen (map confidence l))
      by (unfold qlen; rewrite length_map; reflexivity).
    apply mean_unit; [discriminate |].
    apply Forall_map. exact Hall. }
  set (m := AccuracyTracker.qsum (map confidence l) / qlen l) in *.
  assert (35 # 100 <= phase_weight phase <= 75 # 100) as [Hw0 Hw1].
  { destruct phase; simpl; split; lra. }
  split.
  - apply Q.min_glb; lra.
  - apply Q.le_min_r.
Qed.

(** X26: when no product matching takes place (the learner is below
    Phase 3, or holds no classifier, or has an empty catalog), a
    [process_ad] call that returns reports no matches, the phase used is 1
    or 2 and not above the learner's phase, every deal has a confidence
    between 0 and 1, and the overall confidence is 0.0 for no deals and
    between 0.14 and 1.0 otherwise; [ads_processed_for_store] is the
    store's counter with this ad counted. *)
Theorem process_ad_confidence_without_matching (self : learner)
    (ad_text : string) (store : option string)
    (coordinates : list Coordinate) (res : ProcessingResult) :
  current_phase self <> PHASE_3_ML \/
  DealMatcher.model Model (ml_matcher self) = None \/
  products (catalog self) = [] ->
  (process self ad_text store coordinates).1 = Ok res ->
  res_matches res = [] /\
  (phase_used res = PHASE_1_REGEX \/
   phase_used res = PHASE_2_TEMPLATE /\ current_phase self <> PHASE_1_REGEX) /\
  Forall (fun d => unit_interval (confidence d)) (res_deals res) /\
  (res_deals res = [] -> res_confidence res = 0) /\
  (res_deals res <> [] -> 14 # 100 <= res_confidence res <= 1) /\
  ads_processed_for_store res
  = (default 0%Z (ads_processed self !! ad_key store) + 1)%Z.
Proof.
  intros Hno Hres. unfold process_ad in Hres. cbv zeta in Hres.
  match type of Hres with
  | (match ?o with Ok _ => _ | Raise _ => _ end).1 = _ =>
      destruct o as [r|e] eqn:Hout
  end; simpl in Hres; [| discriminate].
  injection Hres as ->.
  apply bind_ok in Hout as (regex_results & Hregex & Hout).
  apply bind_ok in Hout as (step2 & Hstep2 & Hout).
  apply bind_ok in Hout as (step3 & Hstep3 & Hout).
  cbn [current_phase set_ads_processed ml_matcher catalog] in *.
  assert (step3 = ([], step2.2)) as ->.
  { match type of Hstep3 with
    | (if ?c then _ else _) = _ => assert (c = false) as Hc
    end.
    { destruct Hno as [Hp | [Hm | Hk]].
      - destruct (current_phase self); simpl; congruence.
      - rewrite Hm, andb_false_intro1; [reflexivity |].
        rewrite andb_false_intro2; [reflexivity |].
        apply bool_decide_eq_false_2. intros [m Hm']. discriminate.
      - rewrite Hk, andb_false_intro2; reflexivity. }
    rewrite Hc in Hstep3. injection Hstep3 as <-. reflexivity. }
  assert (Forall (fun d => unit_interval (confidence d)) regex_results)
    as Hregex_unit.
  { apply regex_parse_shape in Hregex as [ds ->].
    apply regex_calculate_confidence_unit. }
  assert (Forall (fun d => unit_interval (confidence d)) step2.1 /\
          (step2.2 = PHASE_1_REGEX \/
           step2.2 = PHASE_2_TEMPLATE /\ current_phase self <> PHASE_1_REGEX))
    as [Hdeals Hphase].
  { destruct (2 <=? phase_value (current_phase self))%Z eqn:Hge.
    - apply bind_ok in Hstep2 as (template_results & Htpl & Hstep2).
      assert (current_phase self <> PHASE_1_REGEX) as Hne.
      { intros Hp. rewrite Hp in Hge. discriminate. }
      assert (Forall (fun d => unit_interval (confidence d))
                template_results) as Htpl_unit.
      { apply template_parse_shape in Htpl as (ds & tpl & ->).
        apply template_calculate_confidence_unit. }
      destruct template_results as [|t ts]; injection Hstep2 as <-; simpl.
      + split; [exact Hregex_unit | left; reflexivity].
      + split; [| right; split; [reflexivity | exact Hne]].
        unfold _merge_results. rewrite MergeFacts.learner_merge_loop.
        apply Forall_app. split; [exact Htpl_unit |].
        apply Forall_forall. intros d Hd.
        apply list_elem_of_In, filter_In in Hd as [Hd _].
        apply list_elem_of_In in Hd.
        revert d Hd. apply Forall_forall. exact Hregex_unit.
    - injection Hstep2 as <-. simpl.
      split; [exact Hregex_unit | left; reflexivity]. }
  injection Hout as <-. cbn [res_matches phase_used res_deals res_confidence
                              ads_processed_for_store fst snd].
  split; [reflexivity |].
  split; [exact Hphase |].
  split; [exact Hdeals |].
  split; [intros ->; reflexivity |].
  split; [intros Hne; apply unmatched_confidence_bounds; assumption |].
  reflexivity.
Qed.

End Facts.

Lemma phase_3_needs_recorded_accuracy_witness :
  let calls := replicate 30 Demo.one_more_ad ++ [Demo.one_correction] in
  current_phase
    (run Demo.Model Demo.new_forest Demo.SKLEARN_AVAILABLE Demo.predict_top
       Demo.fit_and_score TemplateDealParser.compile_default
       (Demo.fresh_learner, ∅) calls).1 <> PHASE_3_ML /\
  phase_2_accuracy
    (run Demo.Model Demo.new_forest Demo.SKLEARN_AVAILABLE Demo.predict_top
       Demo.fit_and_score TemplateDealParser.compile_default
       (Demo.fresh_learner, ∅) calls).1 = 0.
Proof.
  intros calls.
  destruct (phase_3_needs_recorded_accuracy Demo.Model Demo.new_forest
           Demo.SKLEARN_AVAILABLE Demo.predict_top Demo.fit_and_score
           TemplateDealParser.compile_default (Demo.fresh_learner, ∅) calls)
    as [H1 H2].
  - vm_compute. discriminate.
  - vm_compute. reflexivity.
  - split; [exact H1 |]. rewrite H2. vm_compute. reflexivity.
Defined.

Lemma phase_2_call_decides_phase_3_witness :
  current_phase
    (step Demo.Model Demo.new_forest Demo.SKLEARN_AVAILABLE Demo.predict_top
       Demo.fit_and_score TemplateDealParser.compile_default
       (LearnerDemo.learner_phase_2, ∅) Demo.one_more_ad).1 = PHASE_3_ML.
Proof.
  assert (current_phase LearnerDemo.learner_phase_2 = PHASE_2_TEMPLATE) as Hp
    by (vm_compute; reflexivity).
  assert (completes Demo.Model Demo.new_forest Demo.SKLEARN_AVAILABLE
            Demo.predict_top Demo.fit_and_score
            TemplateDealParser.compile_default LearnerDemo.learner_phase_2
            Demo.one_more_ad) as Hdone.
  { let v := eval vm_compute in
      (process_ad Demo.Model Demo.new_forest Demo.SKLEARN_AVAILABLE
         Demo.predict_top Demo.fit_and_score
         TemplateDealParser.compile_default LearnerDemo.learner_phase_2
         "Milk $2.50" (Some "kroger") []).1 in
    match v with Ok ?r => exists r end.
    vm_compute. reflexivity. }
  pose proof (phase_2_call_decides_phase_3 Demo.Model Demo.new_forest
              Demo.SKLEARN_AVAILABLE Demo.predict_top Demo.fit_and_score
              TemplateDealParser.compile_default LearnerDemo.learner_phase_2
              ∅ Demo.one_more_ad Hp Hdone) as H.
  cbv zeta in H. destruct H as [[_ H] _].
  apply H.
  split.
  - left. vm_compute. discriminate.
  - vm_compute. discriminate.
Defined.

Lemma process_ad_confidence_without_matching_witness :
  exists res,
    (process_ad Demo.Model Demo.new_forest Demo.SKLEARN_AVAILABLE
       Demo.predict_top Demo.fit_and_score TemplateDealParser.compile_default
       Demo.learner_4_19 "Milk $2.50" (Some "kroger") []).1 = Ok res /\
    res_matches res = [] /\
    14 # 100 <= res_confidence res <= 1 /\
    ads_processed_for_store res = 4%Z.
Proof.
  let v := eval vm_compute in
    (process_ad Demo.Model Demo.new_forest Demo.SKLEARN_AVAILABLE
       Demo.predict_top Demo.fit_and_score TemplateDealParser.compile_default
       Demo.learner_4_19 "Milk $2.50" (Some "kroger") []).1 in
  match v with
  | Ok ?r =>
      assert ((process_ad Demo.Model Demo.new_forest Demo.SKLEARN_AVAILABLE
                 Demo.predict_top Demo.fit_and_score
                 TemplateDealParser.compile_default Demo.learner_4_19
                 "Milk $2.50" (Some "kroger") []).1 = Ok r) as Hres
        by (vm_compute; reflexivity);
      exists r
  end.
  assert (current_phase Demo.learner_4_19 <> PHASE_3_ML) as Hp
    by (vm_compute; discriminate).
  pose proof (process_ad_confidence_without_matching Demo.Model
                Demo.new_forest Demo.SKLEARN_AVAILABLE Demo.predict_top
                Demo.fit_and_score TemplateDealParser.compile_default
                Demo.learner_4_19 "Milk $2.50" (Some "kroger") [] _
                (or_introl Hp) Hres) as (Hm & _ & _ & _ & Hc & Ha).
  split; [exact Hres |].
  split; [exact Hm |].
  split.
  - apply Hc. discriminate.
  - rewrite Ha. vm_compute. reflexivity.
Defined.

End LearnerRunFacts.
